(** * Geometric validation, cropping and resampling of image/mask pairs

    A shallow embedding of [radiomics/imageoperations.py]: the functions
    [checkMask], [_correctMask], [_checkROI], [cropToTumorMask] and
    [resampleImage], together with the part of SimpleITK they call.

    Conventions of the embedding.
    - numpy arrays and Python tuples of numbers are lists; a 3D grid has
      lists of length 3 (direction: 9 entries, row-major, as
      [GetDirection] returns them).
    - Physical coordinates, spacings and continuous indices are exact
      rationals ([Q]); [numpy.floor] and [numpy.ceil] are [Qfloor] and
      [Qceiling].  Rounding error of binary floating point is outside the
      model.
    - Voxel values are integers ([Z]); the pixel type is a tag, and a cast
      to an integer type wraps around at the type's width.
    - The module-level [logger] is a writer effect: every function returns
      its value together with the records it logged, in order.
    - A Python exception that the function does not catch is the result
      [None] of an [option] ([cropToTumorMask]) or the outcome [Raises] of
      the call ([checkMask], whose handler looks up [e.message], an
      attribute that exceptions have on Python 2 only). *)

From Stdlib Require Import ZArith QArith Qround List String Ascii Bool Lia Lqa.
From Stdlib Require DecimalString DecimalNat.
From Stdlib Require Import Permutation.
Import ListNotations.

Open Scope Z_scope.

(** ** Logging as a writer effect *)

Inductive Level := DEBUG | INFO | WARNING | ERROR.

(** A log record: its level and the message template passed to the logger
    (the arguments substituted into the template are not kept). *)
Definition LogRecord : Type := Level * string.

Definition Logged (A : Type) : Type := A * list LogRecord.

Definition ret {A} (a : A) : Logged A := (a, []).

Definition bind {A B} (m : Logged A) (f : A -> Logged B) : Logged B :=
  let (a, l1) := m in
  let (b, l2) := f a in
  (b, l1 ++ l2).

Definition logger_log (lv : Level) (msg : string) : Logged unit := (tt, [(lv, msg)]).
Definition logger_debug := logger_log DEBUG.
Definition logger_info := logger_log INFO.
Definition logger_warning := logger_log WARNING.
Definition logger_error := logger_log ERROR.

Declare Scope logged_scope.
Delimit Scope logged_scope with logged.
Notation "x <- m ;; k" := (bind m (fun x => k))
  (at level 61, m at next level, right associativity) : logged_scope.
Notation "m ;; k" := (bind m (fun _ => k))
  (at level 61, right associativity) : logged_scope.
Open Scope logged_scope.

Definition result {A} (m : Logged A) : A := fst m.
Definition records {A} (m : Logged A) : list LogRecord := snd m.

Definition level_eqb (a b : Level) : bool :=
  match a, b with
  | DEBUG, DEBUG | INFO, INFO | WARNING, WARNING | ERROR, ERROR => true
  | _, _ => false
  end.

(** [logged lv msg m]: the run [m] emitted the record [(lv, msg)]. *)
Definition logged {A} (lv : Level) (msg : string) (m : Logged A) : bool :=
  existsb (fun r => level_eqb (fst r) lv && String.eqb (snd r) msg) (records m).

(** The ERROR records of a run. *)
Definition errors {A} (m : Logged A) : list string :=
  map snd (filter (fun r => level_eqb (fst r) ERROR) (records m)).

(** ** Python and numpy helpers *)

(** [sub in s] on strings. *)
Fixpoint contains (sub s : string) : bool :=
  String.prefix sub s ||
  match s with
  | EmptyString => false
  | String _ s' => contains sub s'
  end.

(** [x in xs] on integers. *)
Definition Zin (x : Z) (xs : list Z) : bool := existsb (Z.eqb x) xs.

(** Elementwise binary operation of two arrays of the same shape. *)
Fixpoint zipWith {A B C} (f : A -> B -> C) (xs : list A) (ys : list B) : list C :=
  match xs, ys with
  | x :: xs', y :: ys' => f x y :: zipWith f xs' ys'
  | _, _ => []
  end.

(** [a[0::2]] and [a[1::2]]. *)
Fixpoint evens {A} (l : list A) : list A :=
  match l with
  | x :: _ :: l' => x :: evens l'
  | [x] => [x]
  | [] => []
  end.

Definition odds {A} (l : list A) : list A :=
  match l with
  | _ :: l' => evens l'
  | [] => []
  end.

(** [numpy.sum] of a boolean array: the number of [True] entries. *)
Definition count_true (l : list bool) : Z := Z.of_nat (List.length (filter (fun b => b) l)).

(** [numpy.array_equal]: same shape and equal elements. *)
Fixpoint array_equal (a b : list Q) : bool :=
  match a, b with
  | [], [] => true
  | x :: a', y :: b' => Qeq_bool x y && array_equal a' b'
  | _, _ => false
  end.

Definition Qlt_bool (x y : Q) : bool := negb (Qle_bool y x).

Definition inQ (z : Z) : Q := inject_Z z.

(** ** SimpleITK images *)

Inductive PixelID :=
| sitkUInt8 | sitkInt8 | sitkUInt16 | sitkInt16
| sitkUInt32 | sitkInt32 | sitkUInt64 | sitkInt64
| sitkFloat32 | sitkFloat64.

Record Image := mkImage {
  GetSize : list Z;
  GetSpacing : list Q;
  GetOrigin : list Q;
  GetDirection : list Q;
  GetPixelID : PixelID;
  (** voxel values, first axis fastest *)
  GetPixels : list Z
}.

(** Product of a row-major 3x3 matrix and a 3-vector. *)
Definition matvec (m v : list Q) : list Q :=
  match m, v with
  | [a; b; c; d; e; f; g; h; i], [x; y; z] =>
      [a * x + b * y + c * z; d * x + e * y + f * z; g * x + h * y + i * z]%Q
  | _, _ => []
  end.

Definition det3 (m : list Q) : Q :=
  match m with
  | [a; b; c; d; e; f; g; h; i] =>
      (a * (e * i - f * h) - b * (d * i - f * g) + c * (d * h - e * g))%Q
  | _ => 0%Q
  end.

(** Inverse of a row-major 3x3 matrix (adjugate over determinant). *)
Definition inverse3 (m : list Q) : list Q :=
  match m with
  | [a; b; c; d; e; f; g; h; i] =>
      let dt := det3 m in
      [ (e * i - f * h) / dt; (c * h - b * i) / dt; (b * f - c * e) / dt;
        (f * g - d * i) / dt; (a * i - c * g) / dt; (c * d - a * f) / dt;
        (d * h - e * g) / dt; (b * g - a * h) / dt; (a * e - b * d) / dt ]%Q
  | _ => []
  end.

(** physical = origin + direction . (spacing * continuousIndex) *)
Definition TransformContinuousIndexToPhysicalPoint (im : Image) (cidx : list Q) : list Q :=
  zipWith Qplus (GetOrigin im)
          (matvec (GetDirection im) (zipWith Qmult (GetSpacing im) cidx)).

(** continuousIndex = (direction^-1 . (physical - origin)) / spacing *)
Definition TransformPhysicalPointToContinuousIndex (im : Image) (p : list Q) : list Q :=
  zipWith Qdiv (matvec (inverse3 (GetDirection im)) (zipWith Qminus p (GetOrigin im)))
          (GetSpacing im).

(** *** Voxel addressing *)

Definition numberOfPixels (size : list Z) : Z := fold_right Z.mul 1 size.

(** Index of the [k]-th voxel of a grid of the given size. *)
Definition unravel (size : list Z) (k : Z) : list Z :=
  match size with
  | [sx; sy; _] => [k mod sx; (k / sx) mod sy; k / (sx * sy)]
  | _ => []
  end.

(** Position of the voxel at an index in the pixel list. *)
Definition ravel (size : list Z) (idx : list Z) : Z :=
  match size, idx with
  | [sx; sy; _], [x; y; z] => x + sx * (y + sy * z)
  | _, _ => 0
  end.

Definition GetPixel (im : Image) (idx : list Z) : Z :=
  nth (Z.to_nat (ravel (GetSize im) idx)) (GetPixels im) 0.

(** All indices of a grid, in storage order. *)
Definition gridIndices (size : list Z) : list (list Z) :=
  map (fun k => unravel size (Z.of_nat k)) (seq 0 (Z.to_nat (numberOfPixels size))).

(** Indices of the voxels that carry [label]. *)
Definition labelIndices (mask : Image) (label : Z) : list (list Z) :=
  map (fun kv => unravel (GetSize mask) (Z.of_nat (fst kv)))
      (filter (fun kv => snd kv =? label)
              (combine (seq 0 (List.length (GetPixels mask))) (GetPixels mask))).

Definition minimum (l : list Z) : Z :=
  match l with
  | [] => 0
  | x :: l' => fold_left Z.min l' x
  end.

Definition maximum (l : list Z) : Z :=
  match l with
  | [] => 0
  | x :: l' => fold_left Z.max l' x
  end.

Definition axis (i : nat) (idxs : list (list Z)) : list Z :=
  map (fun idx => nth i idx 0) idxs.

Fixpoint dedup (l : list Z) : list Z :=
  match l with
  | [] => []
  | x :: l' => if Zin x l' then dedup l' else x :: dedup l'
  end.

(** *** Label statistics *)

(** Bounding box of the voxels with [label], as lower index and size per
    axis: (L_X, L_Y, L_Z, S_X, S_Y, S_Z). *)
Definition boundingBoxLS (mask : Image) (label : Z) : list Z :=
  let idxs := labelIndices mask label in
  let lo := map (fun i => minimum (axis i idxs)) [0%nat; 1%nat; 2%nat] in
  let hi := map (fun i => maximum (axis i idxs)) [0%nat; 1%nat; 2%nat] in
  lo ++ zipWith (fun l u => u - l + 1) lo hi.

(** The same box as lower and upper index per axis, interleaved:
    (L_X, U_X, L_Y, U_Y, L_Z, U_Z). *)
Definition boundingBoxLU (mask : Image) (label : Z) : list Z :=
  let idxs := labelIndices mask label in
  flat_map (fun i => [minimum (axis i idxs); maximum (axis i idxs)])
           [0%nat; 1%nat; 2%nat].

(** [sitk.LabelShapeStatisticsImageFilter] after [Execute(mask)]: the
    labels are the values of the mask other than the background value 0. *)
Record LabelShapeStatisticsImageFilter := { lssif_mask : Image }.

Definition lssif_Execute (mask : Image) : LabelShapeStatisticsImageFilter :=
  {| lssif_mask := mask |}.

Definition lssif_GetLabels (f : LabelShapeStatisticsImageFilter) : list Z :=
  dedup (filter (fun v => negb (v =? 0)) (GetPixels (lssif_mask f))).

Definition lssif_GetBoundingBox (f : LabelShapeStatisticsImageFilter) (label : Z) : list Z :=
  boundingBoxLS (lssif_mask f) label.

(** [sitk.LabelStatisticsImageFilter] after a successful
    [Execute(image, mask)]: every value of the mask is a label. *)
Record LabelStatisticsImageFilter := { lsif_mask : Image }.

Definition lsif_GetLabels (f : LabelStatisticsImageFilter) : list Z :=
  dedup (GetPixels (lsif_mask f)).

Definition lsif_GetBoundingBox (f : LabelStatisticsImageFilter) (label : Z) : list Z :=
  boundingBoxLU (lsif_mask f) label.

Definition lsif_GetCount (f : LabelStatisticsImageFilter) (label : Z) : Z :=
  Z.of_nat (List.length (labelIndices (lsif_mask f) label)).

(** A [RuntimeError] raised by SimpleITK, with its text. *)
Record RuntimeError := { message : string }.

(** The interpreter that runs the code, which supports both through
    [six].  An exception has the attribute [message], holding its text,
    on Python 2 only. *)
Inductive Python := Python2 | Python3.

(** The [AttributeError] of a lookup that finds no such attribute. *)
Record AttributeError := { attribute : string }.

(** What a call gives: the value it returns, or the exception it lets
    through to its caller. *)
Inductive Outcome (A : Type) :=
| Returns (a : A)
| Raises (err : AttributeError).
Arguments Returns {A} a.
Arguments Raises {A} err.

(** *** Casting *)

Definition wrap_unsigned (bits v : Z) : Z := v mod 2 ^ bits.
Definition wrap_signed (bits v : Z) : Z := (v + 2 ^ (bits - 1)) mod 2 ^ bits - 2 ^ (bits - 1).

Definition castPixel (p : PixelID) (v : Z) : Z :=
  match p with
  | sitkUInt8 => wrap_unsigned 8 v
  | sitkInt8 => wrap_signed 8 v
  | sitkUInt16 => wrap_unsigned 16 v
  | sitkInt16 => wrap_signed 16 v
  | sitkUInt32 => wrap_unsigned 32 v
  | sitkInt32 => wrap_signed 32 v
  | sitkUInt64 => wrap_unsigned 64 v
  | sitkInt64 => wrap_signed 64 v
  | sitkFloat32 | sitkFloat64 => v
  end.

(** [sitk.Cast(image, pixelID)] *)
Definition Cast (im : Image) (p : PixelID) : Image :=
  {| GetSize := GetSize im; GetSpacing := GetSpacing im; GetOrigin := GetOrigin im;
     GetDirection := GetDirection im; GetPixelID := p;
     GetPixels := map (castPixel p) (GetPixels im) |}.

(** *** Cropping *)

Record CropImageFilter := {
  LowerBoundaryCropSize : list Z;
  UpperBoundaryCropSize : list Z
}.

Definition cif_default : CropImageFilter :=
  {| LowerBoundaryCropSize := [0; 0; 0]; UpperBoundaryCropSize := [0; 0; 0] |}.

Definition SetLowerBoundaryCropSize (f : CropImageFilter) (l : list Z) : CropImageFilter :=
  {| LowerBoundaryCropSize := l; UpperBoundaryCropSize := UpperBoundaryCropSize f |}.

Definition SetUpperBoundaryCropSize (f : CropImageFilter) (u : list Z) : CropImageFilter :=
  {| LowerBoundaryCropSize := LowerBoundaryCropSize f; UpperBoundaryCropSize := u |}.

(** The crop sizes are unsigned and may not exceed the grid. *)
Definition cif_valid (f : CropImageFilter) (size : list Z) : bool :=
  (List.length (LowerBoundaryCropSize f) =? List.length size)%nat &&
  (List.length (UpperBoundaryCropSize f) =? List.length size)%nat &&
  forallb (fun l => 0 <=? l) (LowerBoundaryCropSize f) &&
  forallb (fun u => 0 <=? u) (UpperBoundaryCropSize f) &&
  forallb (fun b => b)
    (zipWith (fun s lu => fst lu + snd lu <=? s) size
             (combine (LowerBoundaryCropSize f) (UpperBoundaryCropSize f))).

(** [cif.Execute(image)]: an index-space slice.  The voxel at index [i] of
    the output is the voxel at [lower + i] of the input; the origin moves
    to the physical point of index [lower].  [None]: SimpleITK raises. *)
Definition cif_Execute (f : CropImageFilter) (im : Image) : option Image :=
  if cif_valid f (GetSize im) then
    let lower := LowerBoundaryCropSize f in
    let size' := zipWith Z.sub (zipWith Z.sub (GetSize im) lower) (UpperBoundaryCropSize f) in
    Some {| GetSize := size';
            GetSpacing := GetSpacing im;
            GetOrigin := TransformContinuousIndexToPhysicalPoint im (map inQ lower);
            GetDirection := GetDirection im;
            GetPixelID := GetPixelID im;
            GetPixels := map (fun idx => GetPixel im (zipWith Z.add lower idx))
                             (gridIndices size') |}
  else None.

(** *** Resampling *)

Inductive Interpolator :=
| sitkNearestNeighbor | sitkLinear | sitkBSpline | sitkGaussian
| sitkLabelGaussian | sitkHammingWindowedSinc | sitkCosineWindowedSinc
| sitkWelchWindowedSinc | sitkLanczosWindowedSinc | sitkBlackmanWindowedSinc.

(** [sitkUnknown] as output pixel type ([None]) keeps the input's type. *)
Record ResampleImageFilter := {
  rif_Size : list Z;
  rif_OutputSpacing : list Q;
  rif_OutputOrigin : list Q;
  rif_OutputDirection : list Q;
  rif_OutputPixelType : option PixelID;
  rif_Interpolator : Interpolator;
  rif_DefaultPixelValue : Z
}.

Definition rif_default : ResampleImageFilter :=
  {| rif_Size := [0; 0; 0];
     rif_OutputSpacing := [1; 1; 1]%Q;
     rif_OutputOrigin := [0; 0; 0]%Q;
     rif_OutputDirection := [1; 0; 0; 0; 1; 0; 0; 0; 1]%Q;
     rif_OutputPixelType := None;
     rif_Interpolator := sitkLinear;
     rif_DefaultPixelValue := 0 |}.

Definition SetReferenceImage (f : ResampleImageFilter) (ref : Image) : ResampleImageFilter :=
  {| rif_Size := GetSize ref; rif_OutputSpacing := GetSpacing ref;
     rif_OutputOrigin := GetOrigin ref; rif_OutputDirection := GetDirection ref;
     rif_OutputPixelType := rif_OutputPixelType f; rif_Interpolator := rif_Interpolator f;
     rif_DefaultPixelValue := rif_DefaultPixelValue f |}.

Definition SetInterpolator (f : ResampleImageFilter) (i : Interpolator) : ResampleImageFilter :=
  {| rif_Size := rif_Size f; rif_OutputSpacing := rif_OutputSpacing f;
     rif_OutputOrigin := rif_OutputOrigin f; rif_OutputDirection := rif_OutputDirection f;
     rif_OutputPixelType := rif_OutputPixelType f; rif_Interpolator := i;
     rif_DefaultPixelValue := rif_DefaultPixelValue f |}.

Definition SetOutputSpacing (f : ResampleImageFilter) (s : list Q) : ResampleImageFilter :=
  {| rif_Size := rif_Size f; rif_OutputSpacing := s;
     rif_OutputOrigin := rif_OutputOrigin f; rif_OutputDirection := rif_OutputDirection f;
     rif_OutputPixelType := rif_OutputPixelType f; rif_Interpolator := rif_Interpolator f;
     rif_DefaultPixelValue := rif_DefaultPixelValue f |}.

Definition SetOutputDirection (f : ResampleImageFilter) (d : list Q) : ResampleImageFilter :=
  {| rif_Size := rif_Size f; rif_OutputSpacing := rif_OutputSpacing f;
     rif_OutputOrigin := rif_OutputOrigin f; rif_OutputDirection := d;
     rif_OutputPixelType := rif_OutputPixelType f; rif_Interpolator := rif_Interpolator f;
     rif_DefaultPixelValue := rif_DefaultPixelValue f |}.

Definition SetSize (f : ResampleImageFilter) (s : list Z) : ResampleImageFilter :=
  {| rif_Size := s; rif_OutputSpacing := rif_OutputSpacing f;
     rif_OutputOrigin := rif_OutputOrigin f; rif_OutputDirection := rif_OutputDirection f;
     rif_OutputPixelType := rif_OutputPixelType f; rif_Interpolator := rif_Interpolator f;
     rif_DefaultPixelValue := rif_DefaultPixelValue f |}.

Definition SetOutputOrigin (f : ResampleImageFilter) (o : list Q) : ResampleImageFilter :=
  {| rif_Size := rif_Size f; rif_OutputSpacing := rif_OutputSpacing f;
     rif_OutputOrigin := o; rif_OutputDirection := rif_OutputDirection f;
     rif_OutputPixelType := rif_OutputPixelType f; rif_Interpolator := rif_Interpolator f;
     rif_DefaultPixelValue := rif_DefaultPixelValue f |}.

Definition SetOutputPixelType (f : ResampleImageFilter) (p : PixelID) : ResampleImageFilter :=
  {| rif_Size := rif_Size f; rif_OutputSpacing := rif_OutputSpacing f;
     rif_OutputOrigin := rif_OutputOrigin f; rif_OutputDirection := rif_OutputDirection f;
     rif_OutputPixelType := Some p; rif_Interpolator := rif_Interpolator f;
     rif_DefaultPixelValue := rif_DefaultPixelValue f |}.

(** A continuous index is inside the buffer when it lies in
    [-0.5, size - 0.5) on every axis. *)
Definition insideBuffer (im : Image) (cidx : list Q) : bool :=
  (List.length cidx =? List.length (GetSize im))%nat &&
  forallb (fun b => b)
    (zipWith (fun s c => Qle_bool (- (1 # 2)) c && Qlt_bool c (inQ s - (1 # 2)))
             (GetSize im) cidx).

(** Nearest-neighbour interpolation: the stored value of the voxel whose
    centre is nearest (halves round up). *)
Definition nearestNeighbor (im : Image) (cidx : list Q) : Z :=
  GetPixel im (map (fun c => Qfloor (c + (1 # 2))) cidx).

(** The output grid of a resample filter, as an image without voxels. *)
Definition rif_grid (f : ResampleImageFilter) (input : Image) : Image :=
  {| GetSize := rif_Size f; GetSpacing := rif_OutputSpacing f;
     GetOrigin := rif_OutputOrigin f; GetDirection := rif_OutputDirection f;
     GetPixelID := match rif_OutputPixelType f with
                   | Some p => p
                   | None => GetPixelID input
                   end;
     GetPixels := [] |}.

Fixpoint zipWith3 {A B C D} (f : A -> B -> C -> D)
         (xs : list A) (ys : list B) (zs : list C) : list D :=
  match xs, ys, zs with
  | x :: xs', y :: ys', z :: zs' => f x y z :: zipWith3 f xs' ys' zs'
  | _, _, _ => []
  end.

Definition Qmin2 (x y : Q) : Q := if Qle_bool x y then x else y.
Definition Qmax2 (x y : Q) : Q := if Qle_bool x y then y else x.

(** [kwargs] of [checkMask]; [None] is a key that is not given. *)
Record Kwargs := {
  kw_label : option Z;
  kw_minimumROIDimensions : option Z;
  kw_minimumROISize : option Z;
  kw_correctMask : option bool
}.

(** [d.get(key, default)] *)
Definition get {A} (o : option A) (default : A) : A :=
  match o with
  | Some v => v
  | None => default
  end.

(** The [interpolator] argument: a SimpleITK constant or its name. *)
Inductive InterpolatorArg :=
| ByValue (i : Interpolator)
| ByName (name : string).

(** [getattr(sitk, name)], restricted to the interpolator constants. *)
Definition sitk_getattr (name : string) : option Interpolator :=
  if String.eqb name "sitkNearestNeighbor" then Some sitkNearestNeighbor
  else if String.eqb name "sitkLinear" then Some sitkLinear
  else if String.eqb name "sitkBSpline" then Some sitkBSpline
  else if String.eqb name "sitkGaussian" then Some sitkGaussian
  else if String.eqb name "sitkLabelGaussian" then Some sitkLabelGaussian
  else if String.eqb name "sitkHammingWindowedSinc" then Some sitkHammingWindowedSinc
  else if String.eqb name "sitkCosineWindowedSinc" then Some sitkCosineWindowedSinc
  else if String.eqb name "sitkWelchWindowedSinc" then Some sitkWelchWindowedSinc
  else if String.eqb name "sitkLanczosWindowedSinc" then Some sitkLanczosWindowedSinc
  else if String.eqb name "sitkBlackmanWindowedSinc" then Some sitkBlackmanWindowedSinc
  else None.

(** Early [return] inside a block, or fall through to the code after it. *)
Inductive Flow (R C : Type) :=
| Return (r : R)
| Continue (c : C).
Arguments Return {R C} r.
Arguments Continue {R C} c.

Module Msg.
Definition typeMismatch : string :=
  "Both images for LabelStatisticsImageFilter don't match type or dimension!".
Definition spaceMismatch : string := "Inputs do not occupy the same physical space!".
Definition labelAbsentG : string := "Label (%g) not present in mask".
Definition labelAbsentD : string := "Label (%d) not present in mask".
Definition datatypeError : string :=
  "Image/Mask datatype or size mismatch. Potential solution: enable correctMask, see Documentation:Usage:Customizing the Extraction:Settings:correctMask for more information".
Definition geometryError : string :=
  "Image/Mask geometry mismatch. Potential solution: increase tolerance using geometryTolerance, see Documentation:Usage:Customizing the Extraction:Settings:geometryTolerance for more information".
Definition correctionFailed : string :=
  "Image/Mask correction failed, ROI invalid (not found or outside of physical image bounds)".
Definition bbFailed : string :=
  "Calculation of bounding box failed, for more information run with DEBUG logging and check log".
Definition tooFewDims : string :=
  "mask has too few dimensions (number of dimensions %d, minimum required %d)".
Definition tooSmall : string :=
  "Size of the ROI is too small (minimum size: %g, ROI size: %g".
Definition outOfBounds : string :=
  "Bounding box of ROI is larger than image space:\n\tROI bounds (image coordinate space) %s\n\tImage Size %s".
Definition resampling : string := "Resampling...".
Definition notRecognized : string :=
  "interpolator " ++ String (ascii_of_nat 34) "%s" ++ String (ascii_of_nat 34) " not recognized, using sitkBSpline".
End Msg.

(** ** The functions of [imageoperations.py] *)

Section ImageOperations.

(** The input check of [LabelStatisticsImageFilter.Execute(image, mask)]:
    [Some e] when SimpleITK raises the [RuntimeError] [e] (the two grids
    do not match in type, dimension or physical space), [None] when the
    statistics are computed. *)
Variable lsif_verify : Image -> Image -> option RuntimeError.

(** The interpolation kernels other than nearest neighbour: the value at
    a continuous index of the input. *)
Variable interpolate : Interpolator -> Image -> list Q -> Z.

Definition lsif_Execute (image mask : Image) : RuntimeError + LabelStatisticsImageFilter :=
  match lsif_verify image mask with
  | Some e => inl e
  | None => inr {| lsif_mask := mask |}
  end.

(** [rif.Execute(input)] with the identity transform: every voxel of the
    output grid is mapped to its physical point and from there to a
    continuous index of the input, where the input is interpolated;
    outside the input's buffer the default pixel value is used. *)
Definition rif_Execute (f : ResampleImageFilter) (input : Image) : Image :=
  let grid := rif_grid f input in
  {| GetSize := GetSize grid; GetSpacing := GetSpacing grid;
     GetOrigin := GetOrigin grid; GetDirection := GetDirection grid;
     GetPixelID := GetPixelID grid;
     GetPixels :=
       map (fun idx =>
              let p := TransformContinuousIndexToPhysicalPoint grid (map inQ idx) in
              let c := TransformPhysicalPointToContinuousIndex input p in
              if insideBuffer input c then
                match rif_Interpolator f with
                | sitkNearestNeighbor => nearestNeighbor input c
                | i => interpolate i input c
                end
              else rif_DefaultPixelValue f)
           (gridIndices (GetSize grid)) |}.

Definition _checkROI (imageNode maskNode : Image) (label : Z) : Logged (option (list Z)) :=
  logger_debug "Checking ROI validity" ;;
  let lssif := lssif_Execute maskNode in
  logger_debug "Checking if label %d is persent in the mask" ;;
  if negb (Zin label (lssif_GetLabels lssif)) then
    logger_error Msg.labelAbsentD ;;
    ret None
  else
    let bb := lssif_GetBoundingBox lssif label in
    logger_debug "Comparing physical space of bounding box to physical space of image" ;;
    let ROIBounds :=
      (TransformContinuousIndexToPhysicalPoint maskNode
         (map (fun l => inQ l - (1 # 2))%Q (firstn 3 bb)),
       TransformContinuousIndexToPhysicalPoint maskNode
         (zipWith (fun l s => inQ l + inQ s - (1 # 2))%Q (firstn 3 bb) (skipn 3 bb))) in
    let ROIBounds :=
      (TransformPhysicalPointToContinuousIndex imageNode (fst ROIBounds),
       TransformPhysicalPointToContinuousIndex imageNode (snd ROIBounds)) in
    logger_debug "ROI bounds (image coordinate space): %s" ;;
    let tolerance := (1 # 1000)%Q in
    if existsb (fun m => Qlt_bool m (- (1 # 2) - tolerance)%Q)
               (zipWith Qmin2 (fst ROIBounds) (snd ROIBounds))
       || existsb (fun b => b)
                  (zipWith (fun m s => Qlt_bool (inQ s - (1 # 2) + tolerance)%Q m)
                           (zipWith Qmax2 (fst ROIBounds) (snd ROIBounds))
                           (GetSize imageNode))
    then
      logger_error Msg.outOfBounds ;;
      ret None
    else
      logger_debug "ROI valid, calculating resampling grid" ;;
      ret (Some bb).

Definition _correctMask (imageNode maskNode : Image) (label : Z) : Logged (option Image) :=
  logger_debug "Resampling mask to image geometry" ;;
  roi <- _checkROI imageNode maskNode label ;;
  match roi with
  | None => ret None
  | Some _ =>
      let rif := rif_default in
      let rif := SetReferenceImage rif imageNode in
      let rif := SetInterpolator rif sitkNearestNeighbor in
      logger_debug Msg.resampling ;;
      ret (Some (rif_Execute rif maskNode))
  end.

(** Number of axes on which the box (L_X, U_X, L_Y, U_Y, L_Z, U_Z) is
    more than one voxel wide. *)
Definition ndims_of (boundingBox : list Z) : Z :=
  count_true (map (fun s => s >? 1)
                  (zipWith (fun u l => u - l + 1) (odds boundingBox) (evens boundingBox))).

(** The interpreter, and the lookup [e.message] under it. *)
Variable python : Python.

Definition e_message (e : RuntimeError) : Outcome string :=
  match python with
  | Python2 => Returns (message e)
  | Python3 => Raises {| attribute := "message" |}
  end.

Definition checkMask (imageNode maskNode : Image) (kwargs : Kwargs)
  : Logged (Outcome (option (list Z) * option Image)) :=
  let boundingBox : option (list Z) := None in
  let correctedMask : option Image := None in
  let label := get (kw_label kwargs) 1 in
  let minDims := get (kw_minimumROIDimensions kwargs) 1 in
  let minSize := kw_minimumROISize kwargs in
  logger_debug "Checking mask with label %d" ;;
  logger_debug "Calculating bounding box" ;;
  flow <-
    match lsif_Execute imageNode maskNode with
    | inr lsif =>
        if negb (Zin label (lsif_GetLabels lsif)) then
          logger_error Msg.labelAbsentG ;;
          ret (Return (Returns (boundingBox, correctedMask)))
        else ret (Continue (lsif, correctedMask))
    | inl e =>
        if negb (get (kw_correctMask kwargs) false) then
          reported <-
            match e_message e with
            | Raises err => ret (Raises err)
            | Returns text =>
                if contains Msg.typeMismatch text then
                  logger_error Msg.datatypeError ;;
                  logger_debug "Additional information on error." ;;
                  ret (Returns tt)
                else
                  match e_message e with
                  | Raises err => ret (Raises err)
                  | Returns text =>
                      if contains Msg.spaceMismatch text then
                        logger_error Msg.geometryError ;;
                        logger_debug "Additional information on error." ;;
                        ret (Returns tt)
                      else ret (Returns tt)
                  end
            end ;;
          match reported with
          | Raises err => ret (Return (Raises err))
          | Returns _ => ret (Return (Returns (boundingBox, correctedMask)))
          end
        else
          logger_warning "Image/Mask geometry mismatch, attempting to correct Mask" ;;
          correctedMask <- _correctMask imageNode maskNode label ;;
          match correctedMask with
          | None =>
              logger_error Msg.correctionFailed ;;
              ret (Return (Returns (boundingBox, correctedMask)))
          | Some corrected =>
              match lsif_Execute imageNode corrected with
              | inl _ =>
                  logger_error Msg.bbFailed ;;
                  logger_debug "Bounding box calculation with resampled mask failed" ;;
                  ret (Return (Returns (boundingBox, correctedMask)))
              | inr lsif => ret (Continue (lsif, correctedMask))
              end
          end
    end ;;
  match flow with
  | Return r => ret r
  | Continue (lsif, correctedMask) =>
      let boundingBox := lsif_GetBoundingBox lsif label in
      logger_debug "Checking minimum number of dimensions requirements (%d)" ;;
      let ndims := ndims_of boundingBox in
      if ndims <=? minDims then
        logger_error Msg.tooFewDims ;;
        ret (Returns (Some boundingBox, correctedMask))
      else
        match minSize with
        | Some minSize =>
            logger_debug "Checking minimum size requirements (minimum size: %d)" ;;
            let roiSize := lsif_GetCount lsif label in
            if roiSize <=? minSize then
              logger_error Msg.tooSmall ;;
              ret (Returns (Some boundingBox, correctedMask))
            else ret (Returns (Some boundingBox, correctedMask))
        | None => ret (Returns (Some boundingBox, correctedMask))
        end
  end.

(** [None]: an exception of [CropImageFilter] propagates to the caller. *)
Definition cropToTumorMask (imageNode maskNode : Image) (boundingBox : list Z)
  : Logged (option (Image * Image)) :=
  let oldMaskID := GetPixelID maskNode in
  let maskNode := Cast maskNode sitkInt32 in
  let size := GetSize maskNode in
  let ijkMinBounds := evens boundingBox in
  let ijkMaxBounds := zipWith (fun s u => s - u - 1) size (odds boundingBox) in
  logger_debug "Cropping to size %s" ;;
  let cif := cif_default in
  let cif := SetLowerBoundaryCropSize cif ijkMinBounds in
  let cif := SetUpperBoundaryCropSize cif ijkMaxBounds in
  match cif_Execute cif imageNode with
  | None => ret None
  | Some croppedImageNode =>
      match cif_Execute cif maskNode with
      | None => ret None
      | Some croppedMaskNode =>
          let croppedMaskNode := Cast croppedMaskNode oldMaskID in
          ret (Some (croppedImageNode, croppedMaskNode))
      end
  end.

(** The resampling grid of [resampleImage], computed from the bounding box
    [bb] that [_checkROI] returned: the spacing in effect, the clamped
    bounds in the new index space, the new size and the new origin. *)
Record ResamplingGrid := {
  grid_spacing : list Q;
  grid_spacingRatio : list Q;
  grid_bbNewLBound : list Z;
  grid_bbNewUBound : list Z;
  grid_maxUbound : list Z;
  grid_newSize : list Z;
  grid_newOrigin : list Q
}.

Definition resamplingGrid (maskNode : Image) (bb : list Z)
           (resampledPixelSpacing : list Q) (padDistance : Z) : ResamplingGrid :=
  let maskSpacing := GetSpacing maskNode in
  let maskSize := GetSize maskNode in
  let resampledPixelSpacing :=
    zipWith3 (fun s r m => if negb (s =? 1) then r else m)
             (skipn 3 bb) resampledPixelSpacing maskSpacing in
  let spacingRatio := zipWith Qdiv maskSpacing resampledPixelSpacing in
  let bbNewLBound :=
    zipWith (fun l r => Qfloor ((inQ l - (1 # 2)) * r - inQ padDistance)%Q)
            (firstn 3 bb) spacingRatio in
  let bbNewUBound :=
    zipWith3 (fun l s r => Qceiling ((inQ l + inQ s - (1 # 2)) * r + inQ padDistance)%Q)
             (firstn 3 bb) (skipn 3 bb) spacingRatio in
  let maxUbound := zipWith (fun s r => Qceiling (inQ s * r)%Q - 1) maskSize spacingRatio in
  let bbNewLBound := map (fun l => if l <? 0 then 0 else l) bbNewLBound in
  let bbNewUBound := zipWith (fun u m => if u >? m then m else u) bbNewUBound maxUbound in
  let newSize := zipWith (fun u l => u - l + 1) bbNewUBound bbNewLBound in
  let bbOriginalLBound := zipWith (fun l r => inQ l / r)%Q bbNewLBound spacingRatio in
  let newOriginIndex :=
    zipWith (fun r m => (1 # 2) * (r - m) / m)%Q resampledPixelSpacing maskSpacing in
  let newCroppedOriginIndex := zipWith Qplus newOriginIndex bbOriginalLBound in
  let newOrigin := TransformContinuousIndexToPhysicalPoint maskNode newCroppedOriginIndex in
  {| grid_spacing := resampledPixelSpacing;
     grid_spacingRatio := spacingRatio;
     grid_bbNewLBound := bbNewLBound;
     grid_bbNewUBound := bbNewUBound;
     grid_maxUbound := maxUbound;
     grid_newSize := newSize;
     grid_newOrigin := newOrigin |}.

Definition resampleImage (imageNode maskNode : option Image)
           (resampledPixelSpacing : list Q) (interpolator : InterpolatorArg)
           (label : Z) (padDistance : Z) : Logged (option Image * option Image) :=
  logger_debug "Resampling image and mask" ;;
  match imageNode, maskNode with
  | Some imageNode, Some maskNode =>
      logger_debug "Comparing resampled spacing to original spacing (image and mask" ;;
      let maskSpacing := GetSpacing maskNode in
      let imageSpacing := GetSpacing imageNode in
      if array_equal maskSpacing resampledPixelSpacing
         && array_equal imageSpacing resampledPixelSpacing
      then
        logger_info "New spacing equal to old, no resampling required" ;;
        ret (Some imageNode, Some maskNode)
      else
        bb <- _checkROI imageNode maskNode label ;;
        match bb with
        | None => ret (None, None)
        | Some bb =>
            let g := resamplingGrid maskNode bb resampledPixelSpacing padDistance in
            let imagePixelType := GetPixelID imageNode in
            let maskPixelType := GetPixelID maskNode in
            let direction := GetDirection maskNode in
            logger_info "Applying resampling from spacing %s and size %s to spacing %s and size %s" ;;
            interpolator <-
              match interpolator with
              | ByValue i => ret i
              | ByName name =>
                  match sitk_getattr name with
                  | Some i => ret i
                  | None =>
                      logger_warning Msg.notRecognized ;;
                      ret sitkBSpline
                  end
              end ;;
            let rif := rif_default in
            let rif := SetOutputSpacing rif (grid_spacing g) in
            let rif := SetOutputDirection rif direction in
            let rif := SetSize rif (grid_newSize g) in
            let rif := SetOutputOrigin rif (grid_newOrigin g) in
            logger_debug "Resampling image" ;;
            let rif := SetOutputPixelType rif imagePixelType in
            let rif := SetInterpolator rif interpolator in
            let resampledImageNode := rif_Execute rif imageNode in
            logger_debug "Resampling mask" ;;
            let rif := SetOutputPixelType rif maskPixelType in
            let rif := SetInterpolator rif sitkNearestNeighbor in
            let resampledMaskNode := rif_Execute rif maskNode in
            ret (Some resampledImageNode, Some resampledMaskNode)
        end
  | _, _ => ret (None, None)
  end.

End ImageOperations.

(** ** Further functions of [imageoperations.py] *)

(** [range(a, b)] *)
Definition Zrange (a b : Z) : list Z :=
  map (fun i => a + Z.of_nat i) (seq 0 (Z.to_nat (b - a))).

(** [max(xs)] of Python: [None] stands for the ValueError on an empty
    sequence. *)
Definition py_max (xs : list Z) : option Z :=
  match xs with
  | [] => None
  | x :: xs' => Some (fold_left Z.max xs' x)
  end.

(** [kwargs] of [generateAngles]. *)
Record AngleKwargs := {
  kw_distances : option (list Z);
  kw_force2D : option bool;
  kw_force2Ddimension : option Z
}.

(** The three nested loops of [generateAngles]. *)
Definition allAngles (maxDistance : Z) : list (list Z) :=
  flat_map (fun z =>
              [0; 0; z] ::
              flat_map (fun y =>
                          [0; z; y] ::
                          map (fun x => [z; y; x])
                              (Zrange (- maxDistance) (maxDistance + 1)))
                       (Zrange (- maxDistance) (maxDistance + 1)))
           (Zrange 1 (maxDistance + 1)).

(** [numpy.max(numpy.abs(angle))] *)
Definition maxAbs (angle : list Z) : Z := maximum (map Z.abs angle).

(** [size - numpy.abs(angles)] for one row, [size] broadcast against the
    row: shapes (3,) and (1,) fit a row of three, any other shape is the
    ValueError of numpy ([None]). *)
Definition broadcast3 (size : list Z) : option (list Z) :=
  match size with
  | [s] => Some [s; s; s]
  | [_; _; _] => Some size
  | _ => None
  end.

(** [a[i]] on a row of length 3, with Python's negative indices; [None]
    is the IndexError. *)
Definition column (i : Z) : option nat :=
  if (0 <=? i) && (i <? 3) then Some (Z.to_nat i)
  else if (-3 <=? i) && (i <? 0) then Some (Z.to_nat (i + 3))
  else None.

(** [None]: the function raises (ValueError of [max] on no distances, of
    numpy on an empty array of angles or on a size of the wrong shape,
    IndexError on the force2D dimension). *)
Definition generateAngles (size : list Z) (kwargs : AngleKwargs)
  : Logged (option (list (list Z))) :=
  logger_debug "Generating angles" ;;
  let distances := get (kw_distances kwargs) [1] in
  let force2Dextraction := get (kw_force2D kwargs) false in
  let force2Ddimension := get (kw_force2Ddimension kwargs) 0 in
  match py_max distances with
  | None => ret None
  | Some maxDistance =>
      let angles := allAngles maxDistance in
      let angles :=
        if maxDistance >? 1
        then filter (fun angle => Zin (maxAbs angle) distances) angles
        else angles in
      match angles, broadcast3 size with
      | [], _ => ret None
      | _, None => ret None
      | _ :: _, Some size =>
          let angles :=
            filter (fun angle =>
                      negb (minimum (zipWith Z.sub size (map Z.abs angle)) <=? 0))
                   angles in
          if force2Dextraction then
            match column force2Ddimension with
            | None => ret None
            | Some d =>
                let angles := filter (fun angle => nth d angle 0 =? 0) angles in
                logger_debug "Generated %d angles" ;;
                ret (Some angles)
            end
          else
            logger_debug "Generated %d angles" ;;
            ret (Some angles)
      end
  end.

(** *** Gray-level discretisation *)

(** [min(xs)] and [max(xs)] of Python on numbers; [None] stands for the
    ValueError on an empty sequence. *)
Definition py_minQ (xs : list Q) : option Q :=
  match xs with
  | [] => None
  | x :: xs' => Some (fold_left Qmin2 xs' x)
  end.

Definition py_maxQ (xs : list Q) : option Q :=
  match xs with
  | [] => None
  | x :: xs' => Some (fold_left Qmax2 xs' x)
  end.

(** [x % w]: the remainder of the floored division. *)
Definition py_mod (x w : Q) : Q := (x - w * inQ (Qfloor (x / w)))%Q.

(** [numpy.arange(start, stop, step)]: the ceil((stop - start) / step)
    values start + i * step. *)
Definition arange (start stop step : Q) : list Q :=
  map (fun i => start + inQ (Z.of_nat i) * step)%Q
      (seq 0 (Z.to_nat (Qceiling ((stop - start) / step)))).

(** [None]: the ValueError of [min] on no values. *)
Definition getBinEdges (binwidth : Q) (parameterValues : list Q) : Logged (option (list Q)) :=
  match py_minQ parameterValues, py_maxQ parameterValues with
  | Some mn, Some mx =>
      let lowBound := (mn - py_mod mn binwidth)%Q in
      let highBound := (mx + binwidth)%Q in
      let binEdges := arange lowBound highBound binwidth in
      let binEdges :=
        if (List.length binEdges =? 1)%nat
        then [nth 0 binEdges 0 - (1 # 2); nth 0 binEdges 0 + (1 # 2)]%Q
        else binEdges in
      logger_debug "Calculated %d bins for bin width %g with edges: %s)" ;;
      ret (Some binEdges)
  | _, _ => ret None
  end.

(** [numpy.digitize(x, bins)] for increasing [bins]: the index i with
    bins[i-1] <= x < bins[i], which is the number of edges that are <= x. *)
Definition digitize (x : Q) (bins : list Q) : Z :=
  Z.of_nat (List.length (filter (fun b => Qle_bool b x) bins)).

(** [a[coords]] for a list of positions; [None] is the IndexError. *)
Fixpoint take (a : list Q) (coords : list nat) : option (list Q) :=
  match coords with
  | [] => Some []
  | c :: coords' =>
      match nth_error a c, take a coords' with
      | Some v, Some vs => Some (v :: vs)
      | _, _ => None
      end
  end.

Fixpoint update (a : list Q) (c : nat) (v : Q) : list Q :=
  match a, c with
  | [], _ => []
  | _ :: a', O => v :: a'
  | x :: a', S c' => x :: update a' c' v
  end.

(** [a[coords] = values] *)
Fixpoint put (a : list Q) (coords : list nat) (values : list Q) : list Q :=
  match coords, values with
  | c :: coords', v :: values' => put (update a c v) coords' values'
  | _, _ => a
  end.

(** The matrix is taken flattened; a coordinate is a position in it.
    [None]: the exception of the indexing or of [getBinEdges]. *)
Definition binImage (binwidth : Q) (parameterMatrix : list Q)
           (parameterMatrixCoordinates : list nat)
  : Logged (option (list Q * list Q)) :=
  logger_debug "Discretizing gray levels inside ROI" ;;
  match take parameterMatrix parameterMatrixCoordinates with
  | None => ret None
  | Some values =>
      binEdges <- getBinEdges binwidth values ;;
      match binEdges with
      | None => ret None
      | Some binEdges =>
          let parameterMatrix :=
            put parameterMatrix parameterMatrixCoordinates
                (map (fun x => inQ (digitize x binEdges)) values) in
          ret (Some (parameterMatrix, binEdges))
      end
  end.

(** *** Thresholding *)

(** The truth value of [insideValue] in [if insideValue:]: [None] and 0
    are false. *)
Definition truthy (v : option Z) : bool :=
  match v with
  | Some v => negb (v =? 0)
  | None => false
  end.

Definition withinThresholds (lower upper : Q) (v : Z) : bool :=
  Qle_bool lower (inQ v) && Qle_bool (inQ v) upper.

(** [sitk.BinaryThresholdImageFilter]: the output is of type UInt8, with
    the inside value where lower <= v <= upper and the outside value
    elsewhere.  [None]: the exception for lower > upper or for a value
    that does not fit UInt8. *)
Definition btif_Execute (insideValue outsideValue : Z) (lowerThreshold upperThreshold : Q)
           (im : Image) : option Image :=
  if Qle_bool lowerThreshold upperThreshold
     && (0 <=? insideValue) && (insideValue <? 256)
     && (0 <=? outsideValue) && (outsideValue <? 256)
  then Some {| GetSize := GetSize im; GetSpacing := GetSpacing im;
               GetOrigin := GetOrigin im; GetDirection := GetDirection im;
               GetPixelID := sitkUInt8;
               GetPixels := map (fun v => if withinThresholds lowerThreshold upperThreshold v
                                          then insideValue else outsideValue)
                                (GetPixels im) |}
  else None.

(** [sitk.ThresholdImageFilter]: voxels with lower <= v <= upper are kept,
    the others are set to the outside value, converted to the pixel type.
    [None]: the exception for lower > upper. *)
Definition tif_Execute (outsideValue : Z) (lower upper : Q) (im : Image) : option Image :=
  if Qle_bool lower upper
  then Some {| GetSize := GetSize im; GetSpacing := GetSpacing im;
               GetOrigin := GetOrigin im; GetDirection := GetDirection im;
               GetPixelID := GetPixelID im;
               GetPixels := map (fun v => if withinThresholds lower upper v
                                          then v else castPixel (GetPixelID im) outsideValue)
                                (GetPixels im) |}
  else None.

Definition applyThreshold (inputImage : Image) (lowerThreshold upperThreshold : Q)
           (insideValue : option Z) (outsideValue : Z) : option Image :=
  if truthy insideValue then
    btif_Execute (get insideValue 0) outsideValue lowerThreshold upperThreshold inputImage
  else
    tif_Execute outsideValue lowerThreshold upperThreshold inputImage.

(** *** Normalisation *)

(** A volume of real intensities, as [sitk.Normalize] returns it. *)
Record RealImage := {
  real_Size : list Z;
  real_Spacing : list Q;
  real_Origin : list Q;
  real_Direction : list Q;
  real_Pixels : list Q
}.

(** [sitk.GetArrayFromImage]: a copy of the voxel values. *)
Definition GetArrayFromImage (im : RealImage) : list Q := real_Pixels im.

(** [sitk.GetImageFromArray(arr)] followed by [CopyInformation(ref)]. *)
Definition GetImageFromArray (arr : list Q) (ref : RealImage) : RealImage :=
  {| real_Size := real_Size ref; real_Spacing := real_Spacing ref;
     real_Origin := real_Origin ref; real_Direction := real_Direction ref;
     real_Pixels := arr |}.

(** [image * scale] *)
Definition scaleImage (im : RealImage) (scale : Q) : RealImage :=
  {| real_Size := real_Size im; real_Spacing := real_Spacing im;
     real_Origin := real_Origin im; real_Direction := real_Direction im;
     real_Pixels := map (fun v => v * scale)%Q (real_Pixels im) |}.

Section Normalize.

(** [sitk.Normalize]: the intensities minus their mean, over their
    standard deviation. *)
Variable sitk_Normalize : Image -> RealImage.

Definition normalizeImage (image : Image) (scale : Q) (outliers : option Q)
  : Logged RealImage :=
  logger_debug "Normalizing image with scale %d" ;;
  let image := sitk_Normalize image in
  match outliers with
  | Some outliers =>
      logger_debug "Removing outliers > %g standard deviations" ;;
      let imageArr := GetArrayFromImage image in
      let imageArr := map (fun v => if Qlt_bool outliers v then outliers else v) imageArr in
      let imageArr := map (fun v => if Qlt_bool v (- outliers) then (- outliers)%Q else v)
                          imageArr in
      let newImage := GetImageFromArray imageArr image in
      ret tt
  | None => ret tt
  end ;;
  let image := scaleImage image scale in
  ret image.

End Normalize.

(** *** Laplacian of Gaussian *)




Section LoG.

(** [LaplacianRecursiveGaussianImageFilter] with the given sigma, and
    [str(sigma)]. *)
Variable lrgif_Execute : Q -> Image -> Image.
Variable str : Q -> string.



End LoG.

(** *** Wavelet decomposition *)

(** A numpy array: its shape and its elements in C order (last axis
    fastest). *)
Record ndarray := { shape : list Z; elements : list Q }.

(** What the wavelet functions raise: a ValueError of the code or of
    PyWavelets with its text, an exception from inside numpy, or one from
    inside SimpleITK. *)
Inductive Exception :=
  | ValueError (msg : string)
  | NumpyError
  | SitkError.

Definition and_then {A B} (r : Exception + A) (k : A -> Exception + B) : Exception + B :=
  match r with
  | inl e => inl e
  | inr a => k a
  end.

(** [sitk.GetArrayFromImage] of a volume: the axes come in the order
    z, y, x and the voxels in the order of the image buffer. *)
Definition sitk_GetArrayFromImage (im : Image) : ndarray :=
  {| shape := rev (GetSize im); elements := map inQ (GetPixels im) |}.

(** [sitk.GetImageFromArray]: an image on the unit grid. *)
Definition sitk_GetImageFromArray (arr : ndarray) : RealImage :=
  {| real_Size := rev (shape arr);
     real_Spacing := map (fun _ => 1%Q) (shape arr);
     real_Origin := map (fun _ => 0%Q) (shape arr);
     real_Direction := [1; 0; 0; 0; 1; 0; 0; 0; 1]%Q;
     real_Pixels := elements arr |}.

(** [im.CopyInformation(ref)]: origin, spacing and direction of [ref];
    refused when the sizes differ. *)
Definition CopyInformation (im : RealImage) (ref : Image) : Exception + RealImage :=
  if list_eq_dec Z.eq_dec (real_Size im) (GetSize ref) then
    inr {| real_Size := real_Size im; real_Spacing := GetSpacing ref;
           real_Origin := GetOrigin ref; real_Direction := GetDirection ref;
           real_Pixels := real_Pixels im |}
  else inl SitkError.

(** [a.resize(new_shape, refcheck=False)]: the buffer is cut or
    extended with zeros. *)
Definition ndarray_resize (a : ndarray) (new_shape : list Z) : ndarray :=
  let n := Z.to_nat (numberOfPixels new_shape) in
  {| shape := new_shape; elements := firstn n (elements a ++ repeat 0%Q n) |}.

(** [numpy.resize(a, new_shape)]: the elements of [a] in C order,
    repeated as often as needed to fill the new shape (zeros when [a] is
    empty). *)
Definition numpy_resize (a : ndarray) (new_shape : list Z) : ndarray :=
  let n := Z.to_nat (numberOfPixels new_shape) in
  {| shape := new_shape;
     elements := match elements a with
                 | [] => repeat 0%Q n
                 | _ => firstn n (List.concat (repeat (elements a) n))
                 end |}.

(** [a[i][j][k]] in an array of three dimensions. *)
Definition item3 (a : ndarray) (i j k : nat) : Q :=
  nth ((i * Z.to_nat (nth 1 (shape a) 0) + j) * Z.to_nat (nth 2 (shape a) 0) + k)
      (elements a) 0%Q.

(** The vectors along the last axis of an array of shape (s0, s1, s2)
    that holds [f i j k] at [i][j][k], in the order of the first two
    indices. *)
Definition rows3 (s0 s1 s2 : nat) (f : nat -> nat -> nat -> Q) : list (list Q) :=
  flat_map (fun i => map (fun j => map (f i j) (seq 0 s2)) (seq 0 s1)) (seq 0 s0).

Definition array3 (s0 s1 s2 : nat) (f : nat -> nat -> nat -> Q) : ndarray :=
  {| shape := [Z.of_nat s0; Z.of_nat s1; Z.of_nat s2];
     elements := List.concat (rows3 s0 s1 s2 f) |}.

(** [chain.from_iterable(a)] for an array of three dimensions: the
    vectors [a[i][j]]. *)
Definition vectors (a : ndarray) : list (list Q) :=
  rows3 (Z.to_nat (nth 0 (shape a) 0)) (Z.to_nat (nth 1 (shape a) 0))
        (Z.to_nat (nth 2 (shape a) 0)) (item3 a).

(** [numpy.transpose(a, (0, 2, 1))] *)
Definition transpose_021 (a : ndarray) : ndarray :=
  array3 (Z.to_nat (nth 0 (shape a) 0)) (Z.to_nat (nth 2 (shape a) 0))
         (Z.to_nat (nth 1 (shape a) 0)) (fun i k j => item3 a i j k).

(** [numpy.transpose(a, (2, 1, 0))], which is also [a.T]. *)
Definition transpose_210 (a : ndarray) : ndarray :=
  array3 (Z.to_nat (nth 2 (shape a) 0)) (Z.to_nat (nth 1 (shape a) 0))
         (Z.to_nat (nth 0 (shape a) 0)) (fun k j i => item3 a i j k).

(** [numpy.hstack] of vectors, which refuses an empty list. *)
Definition numpy_hstack (arrays : list (list Q)) : Exception + list Q :=
  match arrays with
  | [] => inl NumpyError
  | _ => inr (List.concat arrays)
  end.

(** [a.reshape(new_shape)] of a vector, which refuses a shape for another
    number of elements. *)
Definition numpy_reshape (a : list Q) (new_shape : list Z) : Exception + ndarray :=
  if (List.length a =? Z.to_nat (numberOfPixels new_shape))%nat then
    inr {| shape := new_shape; elements := a |}
  else inl NumpyError.

(** [numpy.vstack] of vectors: a matrix, row by row; it refuses an empty
    list and vectors of different lengths. *)
Definition numpy_vstack (arrays : list (list Q)) : Exception + list (list Q) :=
  match arrays with
  | [] => inl NumpyError
  | first :: rest =>
      if forallb (fun r => (List.length r =? List.length first)%nat) rest then inr arrays
      else inl NumpyError
  end.

(** [numpy.split(matrix, sections)]: the rows in [sections] equal parts,
    when they can be divided so. *)
Definition numpy_split (matrix : list (list Q)) (sections : Z)
  : Exception + list (list (list Q)) :=
  if sections <=? 0 then inl NumpyError
  else if negb (List.length matrix mod Z.to_nat sections =? 0)%nat then
    inl NumpyError
  else
    let per := (List.length matrix / Z.to_nat sections)%nat in
    inr (map (fun c => firstn per (skipn (c * per) matrix)) (seq 0 (Z.to_nat sections))).

(** [numpy.asarray] of a list of matrices of one shape. *)
Definition numpy_asarray (slices : list (list (list Q))) : ndarray :=
  {| shape := [Z.of_nat (List.length slices);
               Z.of_nat (List.length (hd [] slices));
               Z.of_nat (List.length (hd [] (hd [] slices)))];
     elements := List.concat (List.concat slices) |}.

(** ['%s' % n] for a count. *)
Definition str_int (n : nat) : string :=
  DecimalString.NilEmpty.string_of_uint (Nat.to_uint n).

(** [kwargs] of [getWaveletImage]. *)
Record WaveletKwargs := {
  kw_wavelet : option string;
  kw_level : option Z;
  kw_start_level : option Z
}.

Section Wavelet.

(** [pywt.Wavelet(name)], which raises for a name it does not know. *)
Variable Wavelet : Type.
Variable pywt_Wavelet : string -> Exception + Wavelet.

(** [pywt.swt(vector, wavelet, level=1, start_level=0)[0]]: the
    approximation and the detail coefficients (cA, cD) of a vector. *)
Variable pywt_swt : list Q -> Wavelet -> Exception + (list Q * list Q).

(** A dict literal.  A dict is kept as the list of its items in the order
    in which it hands them out. *)
Variable dict : forall A : Type, list (string * A) -> list (string * A).

(** The loop over the vectors, which collects the detail coefficients in
    [H] and the approximation coefficients in [L]. *)
Fixpoint swt_all (arrays : list (list Q)) (wavelet : Wavelet)
  : Exception + (list (list Q) * list (list Q)) :=
  match arrays with
  | [] => inr ([], [])
  | i_array :: rest =>
      and_then (pywt_swt i_array wavelet) (fun '(cA, cD) =>
      and_then (swt_all rest wavelet) (fun '(H, L) =>
      inr (cD :: H, cA :: L)))
  end.

Definition _decompose_i (data : ndarray) (wavelet : Wavelet)
  : Exception + (ndarray * ndarray) :=
  let i_arrays := vectors data in
  and_then (swt_all i_arrays wavelet) (fun '(H, L) =>
  and_then (numpy_hstack H) (fun H =>
  and_then (numpy_reshape H (shape data)) (fun H =>
  and_then (numpy_hstack L) (fun L =>
  and_then (numpy_reshape L (shape data)) (fun L =>
  inr (H, L)))))).

Definition _decompose_j (data : ndarray) (wavelet : Wavelet)
  : Exception + (ndarray * ndarray) :=
  let s := shape data in
  let j_arrays := vectors (transpose_021 data) in
  and_then (swt_all j_arrays wavelet) (fun '(H, L) =>
  and_then (numpy_hstack H) (fun H =>
  and_then (numpy_reshape H [nth 0 s 0; nth 2 s 0; nth 1 s 0]) (fun H =>
  let H := transpose_021 H in
  and_then (numpy_hstack L) (fun L =>
  and_then (numpy_reshape L [nth 0 s 0; nth 2 s 0; nth 1 s 0]) (fun L =>
  let L := transpose_021 L in
  inr (H, L)))))).

Definition _decompose_k (data : ndarray) (wavelet : Wavelet)
  : Exception + (ndarray * ndarray) :=
  let k_arrays := vectors (transpose_210 data) in
  and_then (swt_all k_arrays wavelet) (fun '(H, L) =>
  and_then (numpy_vstack H) (fun H =>
  and_then (numpy_split H (nth 2 (shape data) 0)) (fun H =>
  let H := transpose_210 (numpy_asarray H) in
  and_then (numpy_vstack L) (fun L =>
  and_then (numpy_split L (nth 2 (shape data) 0)) (fun L =>
  let L := transpose_210 (numpy_asarray L) in
  inr (H, L)))))).

(** The loop over [range(0, start_level)]. *)
Fixpoint skipLevels (n : nat) (data : ndarray) (wavelet : Wavelet) : Exception + ndarray :=
  match n with
  | O => inr data
  | S n' =>
      and_then (_decompose_i data wavelet) (fun '(H, L) =>
      and_then (_decompose_j L wavelet) (fun '(LH, LL) =>
      and_then (_decompose_k LL wavelet) (fun '(LLH, LLL) =>
      skipLevels n' LLL wavelet)))
  end.

(** The loop over the items of [dec], which replaces every array by its
    image. *)
Fixpoint toImages (inputImage : Image) (original_shape : list Z)
         (dec : list (string * ndarray)) : Exception + list (string * RealImage) :=
  match dec with
  | [] => inr []
  | (decName, decImage) :: rest =>
      let decTemp := numpy_resize decImage original_shape in
      and_then (CopyInformation (sitk_GetImageFromArray decTemp) inputImage) (fun sitkImage =>
      and_then (toImages inputImage original_shape rest) (fun rest' =>
      inr ((decName, sitkImage) :: rest')))
  end.

(** The loop over [range(start_level, start_level + level)]: the last
    approximation and the dicts appended to [ret]. *)
Fixpoint decomposeLevels (n : nat) (inputImage : Image) (original_shape : list Z)
         (data : ndarray) (wavelet : Wavelet)
  : Exception + (ndarray * list (list (string * RealImage))) :=
  match n with
  | O => inr (data, [])
  | S n' =>
      and_then (_decompose_i data wavelet) (fun '(H, L) =>
      and_then (_decompose_j H wavelet) (fun '(HH, HL) =>
      and_then (_decompose_j L wavelet) (fun '(LH, LL) =>
      and_then (_decompose_k HH wavelet) (fun '(HHH, HHL) =>
      and_then (_decompose_k HL wavelet) (fun '(HLH, HLL) =>
      and_then (_decompose_k LH wavelet) (fun '(LHH, LHL) =>
      and_then (_decompose_k LL wavelet) (fun '(LLH, LLL) =>
      let dec := dict _ [("HHH", HHH); ("HHL", HHL); ("HLH", HLH); ("HLL", HLL);
                         ("LHH", LHH); ("LHL", LHL); ("LLH", LLH)]%string in
      and_then (toImages inputImage original_shape dec) (fun dec' =>
      and_then (decomposeLevels n' inputImage original_shape LLL wavelet) (fun '(data', ret') =>
      inr (data', dec' :: ret'))))))))))
  end.

Definition _swt3 (inputImage : Image) (wavelet : string) (level start_level : Z)
  : Exception + (RealImage * list (list (string * RealImage))) :=
  let matrix := sitk_GetArrayFromImage inputImage in
  if negb (List.length (shape matrix) =? 3)%nat then
    inl (ValueError "Expected 3D data array")
  else
    let original_shape := shape matrix in
    let adjusted_shape :=
      map (fun dim => if negb (dim mod 2 =? 0) then dim + 1 else dim) original_shape in
    let data := ndarray_resize matrix adjusted_shape in
    and_then (pywt_Wavelet wavelet) (fun wavelet =>
    and_then (skipLevels (Z.to_nat start_level) data wavelet) (fun data =>
    and_then (decomposeLevels (Z.to_nat level) inputImage original_shape data wavelet)
      (fun '(data, ret_) =>
    let data := numpy_resize data original_shape in
    and_then (CopyInformation (sitk_GetImageFromArray data) inputImage) (fun approximation =>
    inr (approximation, ret_))))).

(** The images [getWaveletImage] yields for the items of one level. *)
Fixpoint yieldItems (idx : nat) (wl : list (string * RealImage)) (kwargs : WaveletKwargs)
  : Logged (list (RealImage * string * WaveletKwargs)) :=
  match wl with
  | [] => ret []
  | (decompositionName, decompositionImage) :: rest =>
      logger_info "Computing Wavelet %s" ;;
      let inputImageName :=
        if (idx =? 1)%nat then ("wavelet-" ++ decompositionName)%string
        else ("wavelet" ++ str_int idx ++ "-" ++ decompositionName)%string in
      logger_debug "Yielding %s image" ;;
      rest' <- yieldItems idx rest kwargs ;;
      ret ((decompositionImage, inputImageName, kwargs) :: rest')
  end.

(** The loop over [enumerate(ret, start=idx)]. *)
Fixpoint yieldLevels (idx : nat) (ret_ : list (list (string * RealImage)))
         (kwargs : WaveletKwargs)
  : Logged (list (RealImage * string * WaveletKwargs)) :=
  match ret_ with
  | [] => ret []
  | wl :: rest =>
      yielded <- yieldItems idx wl kwargs ;;
      rest' <- yieldLevels (S idx) rest kwargs ;;
      ret (yielded ++ rest')
  end.

(** The images the generator yields, in order; an exception of [_swt3]
    is raised before the first of them. *)
Definition getWaveletImage (inputImage : Image) (kwargs : WaveletKwargs)
  : Logged (Exception + list (RealImage * string * WaveletKwargs)) :=
  logger_debug "Generating Wavelet images" ;;
  match _swt3 inputImage (get (kw_wavelet kwargs) "coif1"%string)
              (get (kw_level kwargs) 1) (get (kw_start_level kwargs) 0) with
  | inl e => ret (inl e)
  | inr (approx, ret_) =>
      yielded <- yieldLevels 1 ret_ kwargs ;;
      let inputImageName :=
        if (List.length ret_ =? 1)%nat then "wavelet-LLL"%string
        else ("wavelet" ++ str_int (List.length ret_) ++ "-LLL")%string in
      logger_debug "Yielding approximation (%s) image" ;;
      ret (inr (yielded ++ [(approx, inputImageName, kwargs)]))
  end.

End Wavelet.

(** ** A reference input check and test volumes *)

Definition isIntegerPixel (p : PixelID) : bool :=
  match p with
  | sitkFloat32 | sitkFloat64 => false
  | _ => true
  end.

(** An input check in the manner of SimpleITK, for the examples: a label
    image of a floating point type or of another size than the image is
    refused with the type-or-dimension message (which [checkMask] reports
    as a datatype or size mismatch); grids of one size that differ in
    origin, spacing or direction are refused with the physical-space
    message. *)
Definition sitk_verify (image mask : Image) : option RuntimeError :=
  if negb (isIntegerPixel (GetPixelID mask)
           && (List.length (GetSize image) =? List.length (GetSize mask))%nat
           && forallb (fun b => b) (zipWith Z.eqb (GetSize image) (GetSize mask))) then
    Some {| message := "Exception thrown in SimpleITK LabelStatisticsImageFilter_Execute: "
                       ++ Msg.typeMismatch |}
  else if negb (array_equal (GetOrigin image) (GetOrigin mask)
                && array_equal (GetSpacing image) (GetSpacing mask)
                && array_equal (GetDirection image) (GetDirection mask)) then
    Some {| message := "Exception thrown in SimpleITK LabelStatisticsImageFilter_Execute: "
                       ++ Msg.spaceMismatch |}
  else None.

(** An interpolation kernel for the examples: it reads the nearest voxel. *)
Definition nearest_kernel (_ : Interpolator) (im : Image) (cidx : list Q) : Z :=
  nearestNeighbor im cidx.

Definition identity3 : list Q := [1; 0; 0; 0; 1; 0; 0; 0; 1]%Q.

(** A volume of the given size with unit spacing, zero origin and identity
    direction, whose voxels are given by a function of the index. *)
Definition volume (size : list Z) (p : PixelID) (f : list Z -> Z) : Image :=
  {| GetSize := size; GetSpacing := [1; 1; 1]%Q; GetOrigin := [0; 0; 0]%Q;
     GetDirection := identity3; GetPixelID := p;
     GetPixels := map f (gridIndices size) |}.

(** The voxels of the box with the given lower index and extent carry
    [label], all others 0. *)
Definition boxLabel (lower extent : list Z) (label : Z) (idx : list Z) : Z :=
  if forallb (fun b => b)
       (zipWith3 (fun l e i => (l <=? i) && (i <? l + e)) lower extent idx)
  then label else 0.

Definition noKwargs : Kwargs :=
  {| kw_label := None; kw_minimumROIDimensions := None;
     kw_minimumROISize := None; kw_correctMask := None |}.

(** A volume on a grid with another origin. *)
Definition withOrigin (o : list Q) (im : Image) : Image :=
  {| GetSize := GetSize im; GetSpacing := GetSpacing im; GetOrigin := o;
     GetDirection := GetDirection im; GetPixelID := GetPixelID im;
     GetPixels := GetPixels im |}.

(** The volumes of the scenarios: a 10x10x10 image, a mask whose label 1
    fills the box at (2,2,2) of extent (4,4,4), a mask whose label 1 is a
    line of 5 voxels, an empty mask, and smaller grids. *)
Definition image10 : Image := volume [10; 10; 10] sitkInt16 (fun idx => ravel [10; 10; 10] idx).
Definition maskBox : Image := volume [10; 10; 10] sitkUInt8 (boxLabel [2; 2; 2] [4; 4; 4] 1).
Definition maskLine : Image := volume [10; 10; 10] sitkUInt8 (boxLabel [2; 2; 2] [5; 1; 1] 1).
Definition maskPlane : Image := volume [10; 10; 10] sitkUInt8 (boxLabel [2; 2; 2] [5; 3; 1] 1).
Definition maskSmall : Image := volume [8; 8; 8] sitkUInt8 (boxLabel [2; 2; 2] [4; 4; 4] 1).

(** ** Definitions used to state the properties *)

(** A three-dimensional grid. *)
Definition is3D (im : Image) : Prop :=
  List.length (GetSize im) = 3%nat /\ List.length (GetSpacing im) = 3%nat /\
  List.length (GetOrigin im) = 3%nat /\ List.length (GetDirection im) = 9%nat.

(** The two corners of the box [bb] = (lower, extent) of the mask, in the
    continuous index space of the image: lower - 0.5 and
    lower + extent - 0.5, through the mask's index-to-physical transform
    and the image's physical-to-index transform. *)
Definition roiCorners (imageNode maskNode : Image) (bb : list Z) : list Q * list Q :=
  (TransformPhysicalPointToContinuousIndex imageNode
     (TransformContinuousIndexToPhysicalPoint maskNode
        (map (fun l => inQ l - (1 # 2))%Q (firstn 3 bb))),
   TransformPhysicalPointToContinuousIndex imageNode
     (TransformContinuousIndexToPhysicalPoint maskNode
        (zipWith (fun l s => inQ l + inQ s - (1 # 2))%Q (firstn 3 bb) (skipn 3 bb)))).

(** A point lies within [-0.5 - tol, imageSize - 0.5 + tol] on every axis,
    tol = 1e-3. *)
Definition withinImage (imageSize : list Z) (c : list Q) : Prop :=
  Forall2 (fun ci s => - (1 # 2) - (1 # 1000) <= ci /\ ci <= inQ s - (1 # 2) + (1 # 1000))%Q
          c imageSize.

(** The test of [_checkROI] on the two corners: some axis is out of range. *)
Definition outOfRange (imageSize : list Z) (c0 c1 : list Q) : bool :=
  existsb (fun m => Qlt_bool m (- (1 # 2) - (1 # 1000))%Q) (zipWith Qmin2 c0 c1)
  || existsb (fun b => b)
             (zipWith (fun m s => Qlt_bool (inQ s - (1 # 2) + (1 # 1000))%Q m)
                      (zipWith Qmax2 c0 c1) imageSize).

(** The filter that [_correctMask] builds. *)
Definition correctingFilter (imageNode : Image) : ResampleImageFilter :=
  SetInterpolator (SetReferenceImage rif_default imageNode) sitkNearestNeighbor.

(** The crop filter that [cropToTumorMask] sets up for the bounding box
    (L_X, U_X, L_Y, U_Y, L_Z, U_Z) on a grid of the given size: lower
    margin = lower index, upper margin = size - upper index - 1. *)
Definition croppingFilter (size boundingBox : list Z) : CropImageFilter :=
  {| LowerBoundaryCropSize := evens boundingBox;
     UpperBoundaryCropSize := zipWith (fun s u => s - u - 1) size (odds boundingBox) |}.

Module GridSpec.

(** The new bounds as the specification words them, per axis: the lower
    bound floor((lower - 0.5) * ratio - padDistance) clamped to be at
    least 0, the upper bound ceil((lower + extent - 0.5) * ratio +
    padDistance) clamped to be at most ceil(maskSize * ratio) - 1. *)
Definition newLower (lower : Z) (ratio : Q) (padDistance : Z) : Z :=
  Z.max 0 (Qfloor ((inQ lower - (1 # 2)) * ratio - inQ padDistance)%Q).

Definition newUpper (lower extent : Z) (ratio : Q) (padDistance maskSize : Z) : Z :=
  Z.min (Qceiling (inQ maskSize * ratio)%Q - 1)
        (Qceiling ((inQ lower + inQ extent - (1 # 2)) * ratio + inQ padDistance)%Q).

Definition newSize (lower extent : Z) (ratio : Q) (padDistance maskSize : Z) : Z :=
  newUpper lower extent ratio padDistance maskSize - newLower lower ratio padDistance + 1.

(** The target spacing in effect on an axis: the mask's own spacing where
    the ROI is one voxel thick, the requested spacing elsewhere. *)
Definition targetSpacing (extent : Z) (requested maskSpacing : Q) : Q :=
  if extent =? 1 then maskSpacing else requested.

Definition ratio (extent : Z) (requested maskSpacing : Q) : Q :=
  (maskSpacing / targetSpacing extent requested maskSpacing)%Q.

End GridSpec.

Module CheckSpec.

(** The extents of a bounding box (L_X, U_X, L_Y, U_Y, L_Z, U_Z): the
    number of voxels from the lower to the upper index, per axis. *)
Definition extents (boundingBox : list Z) : list Z :=
  match boundingBox with
  | [lx; ux; ly; uy; lz; uz] => [ux - lx + 1; uy - ly + 1; uz - lz + 1]
  | _ => []
  end.

(** The dimensionality of a bounding box as the specification words it:
    the count of axes whose extent is > 1. *)
Definition dimensionality (extents : list Z) : Z :=
  Z.of_nat (List.length (filter (fun extent => 1 <? extent) extents)).

End CheckSpec.

(** The mask whose statistics [checkMask] goes on to check: the mask
    itself when the statistics are computed directly and the label is
    found, the corrected mask when the first computation raises, correction
    is enabled and succeeds, and the second computation does not raise.
    [None]: [checkMask] returns before the checks. *)
Definition checkedMask (lsif_verify : Image -> Image -> option RuntimeError)
           (interpolate : Interpolator -> Image -> list Q -> Z)
           (imageNode maskNode : Image) (kwargs : Kwargs) : option Image :=
  let label := get (kw_label kwargs) 1 in
  match lsif_verify imageNode maskNode with
  | None =>
      if Zin label (lsif_GetLabels {| lsif_mask := maskNode |}) then Some maskNode else None
  | Some _ =>
      if get (kw_correctMask kwargs) false then
        match result (_correctMask interpolate imageNode maskNode label) with
        | Some corrected =>
            match lsif_verify imageNode corrected with
            | None => Some corrected
            | Some _ => None
            end
        | None => None
        end
      else None
  end.

(** The outcome of the dimension check and the size check on a box and a
    voxel count: the error reported, if any. *)
Definition checksOutcome (boundingBox : list Z) (roiSize minDims : Z) (minSize : option Z)
  : list string :=
  if ndims_of boundingBox <=? minDims then [Msg.tooFewDims]
  else match minSize with
       | Some minSize => if roiSize <=? minSize then [Msg.tooSmall] else []
       | None => []
       end.

Definition kwargsCorrect : Kwargs :=
  {| kw_label := None; kw_minimumROIDimensions := None;
     kw_minimumROISize := None; kw_correctMask := Some true |}.

Definition kwargsMinSize (n : Z) : Kwargs :=
  {| kw_label := None; kw_minimumROIDimensions := None;
     kw_minimumROISize := Some n; kw_correctMask := None |}.

Ltac decide_outcome :=
  repeat match goal with
         | H : _ /\ _ |- _ => destruct H
         | H : exists _, _ |- _ => destruct H
         | H : Some _ = Some _ |- _ => injection H as H; subst
         | H : Some _ = None |- _ => discriminate H
         | H : None = Some _ |- _ => discriminate H
         | H : @eq (list string) _ _ |- _ => vm_compute in H; discriminate H
         end;
  try reflexivity; try lia.

(** An offset vector in canonical form: its first non-zero component is
    positive. *)
Definition canonical (a : list Z) : Prop :=
  match a with
  | [x; y; z] => 0 < x \/ (x = 0 /\ 0 < y) \/ (x = 0 /\ y = 0 /\ 0 < z)
  | _ => False
  end.

(** The offset fits a box of the given size: the neighbour of some voxel of
    the box lies in the box. *)
Definition fitsBox (size a : list Z) : Prop :=
  match size, a with
  | [s0; s1; s2], [x; y; z] => Z.abs x < s0 /\ Z.abs y < s1 /\ Z.abs z < s2
  | _, _ => False
  end.

Definition noAngleKwargs : AngleKwargs :=
  {| kw_distances := None; kw_force2D := None; kw_force2Ddimension := None |}.

Definition angleKwargs (distances : list Z) : AngleKwargs :=
  {| kw_distances := Some distances; kw_force2D := None; kw_force2Ddimension := None |}.

(** The interpolator that [resampleImage] ends up with: the constant, the
    constant of that name, or sitkBSpline for a name it does not find. *)
Definition chosenInterpolator (interpolator : InterpolatorArg) : Interpolator :=
  match interpolator with
  | ByValue i => i
  | ByName name =>
      match sitk_getattr name with
      | Some i => i
      | None => sitkBSpline
      end
  end.

(** The resample filter of [resampleImage] for a grid, an output pixel
    type and an interpolator. *)
Definition gridFilter (maskNode : Image) (g : ResamplingGrid)
           (p : PixelID) (i : Interpolator) : ResampleImageFilter :=
  {| rif_Size := grid_newSize g;
     rif_OutputSpacing := grid_spacing g;
     rif_OutputOrigin := grid_newOrigin g;
     rif_OutputDirection := GetDirection maskNode;
     rif_OutputPixelType := Some p;
     rif_Interpolator := i;
     rif_DefaultPixelValue := 0 |}.

(** A volume as SimpleITK keeps it: three-dimensional, with at least one
    voxel on every axis and as many voxel values as the grid has voxels. *)
Definition wellFormed (im : Image) : Prop :=
  is3D im
  /\ Forall (fun s => 0 < s) (GetSize im)
  /\ Z.of_nat (List.length (GetPixels im)) = numberOfPixels (GetSize im).

(** The grid can be inverted: the direction matrix is regular and no
    spacing is zero. *)
Definition invertibleGrid (im : Image) : Prop :=
  ~ (det3 (GetDirection im) == 0)%Q
  /\ Forall (fun s => ~ (s == 0)%Q) (GetSpacing im).

(** Two volumes on one grid. *)
Definition sameGrid (a b : Image) : Prop :=
  GetSize a = GetSize b /\ GetSpacing a = GetSpacing b
  /\ GetOrigin a = GetOrigin b /\ GetDirection a = GetDirection b.

(** The values that a pixel type holds (the integers stand for all values
    of the floating point types). *)
Definition representable (p : PixelID) (v : Z) : Prop :=
  match p with
  | sitkUInt8 => 0 <= v < 2 ^ 8
  | sitkInt8 => - 2 ^ 7 <= v < 2 ^ 7
  | sitkUInt16 => 0 <= v < 2 ^ 16
  | sitkInt16 => - 2 ^ 15 <= v < 2 ^ 15
  | sitkUInt32 => 0 <= v < 2 ^ 32
  | sitkInt32 => - 2 ^ 31 <= v < 2 ^ 31
  | sitkUInt64 => 0 <= v < 2 ^ 64
  | sitkInt64 => - 2 ^ 63 <= v < 2 ^ 63
  | sitkFloat32 | sitkFloat64 => True
  end.

(** The box (L_X, U_X, L_Y, U_Y, L_Z, U_Z) that covers a whole grid. *)
Definition fullBox (size : list Z) : list Z :=
  flat_map (fun s => [0; s - 1]) size.



Fixpoint hasChar (c : ascii) (s : string) : bool :=
  match s with
  | EmptyString => false
  | String c' s' => Ascii.eqb c' c || hasChar c s'
  end.

(** The detail sub-bands of one level of the decomposition. *)
Definition subbands : list string :=
  ["HHH"; "HHL"; "HLH"; "HLL"; "LHH"; "LHL"; "LLH"]%string.

(** The name of a wavelet image: the level is part of the name unless it
    is 1. *)
Definition waveletName (idx : nat) (decompositionName : string) : string :=
  if (idx =? 1)%nat then ("wavelet-" ++ decompositionName)%string
  else ("wavelet" ++ str_int idx ++ "-" ++ decompositionName)%string.

(** A filtered image that lies on the grid of the input image and has a
    value for each of its voxels. *)
Definition onGridOf (inputImage : Image) (im : RealImage) : Prop :=
  real_Size im = GetSize inputImage
  /\ real_Spacing im = GetSpacing inputImage
  /\ real_Origin im = GetOrigin inputImage
  /\ real_Direction im = GetDirection inputImage
  /\ List.length (real_Pixels im) = Z.to_nat (numberOfPixels (GetSize inputImage)).

(** What [_swt3] appends to [ret]: one dict for every level, with the
    seven sub-bands as keys and images on the grid of the input. *)
Definition levelDict (inputImage : Image) (wl : list (string * RealImage)) : Prop :=
  Permutation (map fst wl) subbands
  /\ Forall (fun kv => onGridOf inputImage (snd kv)) wl.

(** The name under which an image is yielded. *)
Definition yieldedName (y : RealImage * string * WaveletKwargs) : string := snd (fst y).

(** An array as [_swt3] hands it to the transforms: three dimensions,
    each positive and even, and an element for every index. *)
Definition evenArray (a : ndarray) : Prop :=
  List.length (shape a) = 3%nat
  /\ Forall (fun s => 0 < s /\ s mod 2 = 0) (shape a)
  /\ List.length (elements a) = Z.to_nat (numberOfPixels (shape a)).

(** A stationary transform: for a vector of even length it returns as
    many approximation and detail coefficients as the vector has
    elements. *)
Definition stationary {W : Type} (swt : list Q -> W -> Exception + (list Q * list Q)) : Prop :=
  forall v w, v <> [] -> Nat.even (List.length v) = true ->
    exists cA cD, swt v w = inr (cA, cD)
                  /\ List.length cA = List.length v /\ List.length cD = List.length v.

(** The coefficients of a vector: what the transform returns for it. *)
Definition coefficients {W : Type} (swt : list Q -> W -> Exception + (list Q * list Q))
           (v : list Q) (w : W) : list Q * list Q :=
  match swt v w with
  | inr c => c
  | inl _ => ([], [])
  end.
Definition approximationOf {W : Type} (swt : list Q -> W -> Exception + (list Q * list Q))
           (w : W) (v : list Q) : list Q := fst (coefficients swt v w).
Definition detailOf {W : Type} (swt : list Q -> W -> Exception + (list Q * list Q))
           (w : W) (v : list Q) : list Q := snd (coefficients swt v w).

(** A band: coefficients as many as the vector has elements, for
    every non-empty vector of even length. *)
Definition isBand (g : list Q -> list Q) : Prop :=
  forall v, v <> [] -> Nat.even (List.length v) = true -> List.length (g v) = List.length v.

(** The length of an axis of an array. *)
Definition dim (a : ndarray) (axis : nat) : nat := Z.to_nat (nth axis (shape a) 0).

(** The vectors of an array along each of its axes. *)
Definition vector_i (a : ndarray) (i j : nat) : list Q :=
  map (fun k => item3 a i j k) (seq 0 (Z.to_nat (nth 2 (shape a) 0))).
Definition vector_j (a : ndarray) (i k : nat) : list Q :=
  map (fun j => item3 a i j k) (seq 0 (Z.to_nat (nth 1 (shape a) 0))).
Definition vector_k (a : ndarray) (j k : nat) : list Q :=
  map (fun i => item3 a i j k) (seq 0 (Z.to_nat (nth 0 (shape a) 0))).

(** Reference collaborators: one wavelet, a transform that returns the
    sums and the differences of neighbours (the last element has the
    first as its neighbour), and dicts that keep the order of insertion. *)
Definition haarOnly (name : string) : Exception + unit :=
  if String.eqb name "haar" then inr tt
  else inl (ValueError "Unknown wavelet name").
Definition sumsAndDifferences (v : list Q) (_ : unit) : Exception + (list Q * list Q) :=
  let next := tl v ++ firstn 1 v in
  inr (zipWith Qplus v next, zipWith Qminus v next).
Definition insertionOrder (A : Type) (l : list (string * A)) : list (string * A) := l.
Definition image222 : Image := volume [2; 2; 2] sitkInt16 (fun idx => ravel [2; 2; 2] idx).
Definition image323 : Image := volume [3; 2; 3] sitkInt16 (fun idx => ravel [3; 2; 3] idx).
Definition array222 : ndarray := sitk_GetArrayFromImage image222.

(** ** Properties *)

(** *** The writer effect *)

Lemma result_bind {A B} (m : Logged A) (f : A -> Logged B) :
  result (bind m f) = result (f (result m)).
Proof.
  unfold bind, result. destruct m as [a l1]. simpl. destruct (f a). reflexivity.
Qed.

Lemma records_bind {A B} (m : Logged A) (f : A -> Logged B) :
  records (bind m f) = records m ++ records (f (result m)).
Proof.
  unfold bind, result, records. destruct m as [a l1]. simpl. destruct (f a). reflexivity.
Qed.

(** *** numpy helpers *)

Lemma array_equal_spec (a b : list Q) :
  array_equal a b = true <-> Forall2 Qeq a b.
Proof.
  revert b. induction a as [|x a IH]; intros [|y b]; simpl; split; intro H;
    try discriminate; try constructor; try solve [inversion H].
  - apply andb_true_iff in H. destruct H as [H _]. now apply Qeq_bool_iff.
  - apply andb_true_iff in H. destruct H as [_ H]. now apply IH.
  - inversion H; subst. apply andb_true_iff. split.
    + now apply Qeq_bool_iff.
    + now apply IH.
Qed.

Lemma Qlt_bool_false_iff (x y : Q) : Qlt_bool x y = false <-> (y <= x)%Q.
Proof.
  unfold Qlt_bool. rewrite negb_false_iff. apply Qle_bool_iff.
Qed.

Lemma Zin_In (x : Z) (l : list Z) : Zin x l = true <-> In x l.
Proof.
  unfold Zin. rewrite existsb_exists. split.
  - intros [y [Hy E]]. apply Z.eqb_eq in E. now subst.
  - intro H. exists x. split; [assumption | apply Z.eqb_refl].
Qed.

Lemma dedup_In (x : Z) (l : list Z) : In x (dedup l) <-> In x l.
Proof.
  induction l as [|y l IH]; simpl; [tauto|].
  destruct (Zin y l) eqn:E.
  - rewrite IH. split; [tauto|]. intros [->|H]; [|assumption].
    now apply Zin_In.
  - simpl. rewrite IH. tauto.
Qed.



(** *** [_checkROI] on an absent label *)



(** C10. If either [imageNode] or [maskNode] is [None], [resampleImage]
    returns the pair (None, None), whatever the other arguments are; it
    logs its opening debug record and nothing else, so neither the ROI
    check nor any resampling is run. *)
Theorem resampleImage_missing_input :
  forall interpolate (imageNode maskNode : option Image) (resampledPixelSpacing : list Q)
         (interpolator : InterpolatorArg) (label padDistance : Z),
    imageNode = None \/ maskNode = None ->
    resampleImage interpolate imageNode maskNode resampledPixelSpacing
                  interpolator label padDistance
    = ((None, None), [(DEBUG, "Resampling image and mask"%string)]).
Proof.
  intros interpolate imageNode maskNode rps interp label pad [-> | ->].
  - reflexivity.
  - destruct imageNode; reflexivity.
Qed.

Lemma resampleImage_missing_input_witness :
  (@None Image = None \/ Some maskBox = None) /\
  resampleImage nearest_kernel None (Some maskBox) [2; 2; 2]%Q (ByValue sitkBSpline) 1 5
  = ((None, None), [(DEBUG, "Resampling image and mask"%string)]).
Proof.
  split.
  - left. reflexivity.
  - apply (resampleImage_missing_input nearest_kernel None (Some maskBox)).
    left. reflexivity.
Defined.

(** C5. When the spacing of the image and the spacing of the mask both
    equal the requested spacing, component by component, [resampleImage]
    returns the image and the mask it was given, unchanged; the only
    records logged are the two opening debug records and the notice that
    no resampling is required. *)
Theorem resampleImage_same_spacing :
  forall interpolate (imageNode maskNode : Image) (resampledPixelSpacing : list Q)
         (interpolator : InterpolatorArg) (label padDistance : Z),
    Forall2 Qeq (GetSpacing maskNode) resampledPixelSpacing ->
    Forall2 Qeq (GetSpacing imageNode) resampledPixelSpacing ->
    resampleImage interpolate (Some imageNode) (Some maskNode) resampledPixelSpacing
                  interpolator label padDistance
    = ((Some imageNode, Some maskNode),
       [(DEBUG, "Resampling image and mask"%string);
        (DEBUG, "Comparing resampled spacing to original spacing (image and mask"%string);
        (INFO, "New spacing equal to old, no resampling required"%string)]).
Proof.
  intros interpolate imageNode maskNode rps interp label pad Hm Hi.
  apply array_equal_spec in Hm. apply array_equal_spec in Hi.
  unfold resampleImage. rewrite Hm, Hi. reflexivity.
Qed.

Lemma resampleImage_same_spacing_witness :
  resampleImage nearest_kernel (Some image10) (Some maskBox) [1; 1; 1]%Q
                (ByName "sitkLinear") 1 5
  = ((Some image10, Some maskBox),
     [(DEBUG, "Resampling image and mask"%string);
      (DEBUG, "Comparing resampled spacing to original spacing (image and mask"%string);
      (INFO, "New spacing equal to old, no resampling required"%string)]).
Proof.
  apply (resampleImage_same_spacing nearest_kernel image10 maskBox [1; 1; 1]%Q).
  - repeat constructor.
  - repeat constructor.
Defined.

(** *** [checkMask] on an absent label *)





(** *** Geometry: shapes of the transformed points *)

Lemma zipWith_length {A B C} (f : A -> B -> C) (xs : list A) (ys : list B) :
  List.length (zipWith f xs ys) = Nat.min (List.length xs) (List.length ys).
Proof.
  revert ys. induction xs as [|x xs IH]; intros [|y ys]; simpl; auto.
Qed.






(** *** The bounding box of a label *)

Lemma fold_min_le (l : list Z) (a : Z) :
  fold_left Z.min l a <= a /\ forall x, In x l -> fold_left Z.min l a <= x.
Proof.
  revert a. induction l as [|y l IH]; intro a; simpl.
  - split; [lia | intros x []].
  - destruct (IH (Z.min a y)) as [H1 H2]. split; [lia|].
    intros x [<- | Hx]; [lia | now apply H2].
Qed.

Lemma fold_max_ge (l : list Z) (a : Z) :
  a <= fold_left Z.max l a /\ forall x, In x l -> x <= fold_left Z.max l a.
Proof.
  revert a. induction l as [|y l IH]; intro a; simpl.
  - split; [lia | intros x []].
  - destruct (IH (Z.max a y)) as [H1 H2]. split; [lia|].
    intros x [<- | Hx]; [lia | now apply H2].
Qed.

Lemma minimum_le (l : list Z) (x : Z) : In x l -> minimum l <= x.
Proof.
  destruct l as [|a l]; [intros []|]. simpl.
  destruct (fold_min_le l a) as [H1 H2].
  intros [<- | Hx]; [assumption | now apply H2].
Qed.



(** The two forms of the box agree: upper = lower + extent - 1. *)
Lemma boundingBox_forms (mask : Image) (label : Z) (i : nat) :
  (i < 3)%nat ->
  nth (2 * i) (boundingBoxLU mask label) 0 = nth i (boundingBoxLS mask label) 0
  /\ nth (2 * i + 1) (boundingBoxLU mask label) 0
     = nth i (boundingBoxLS mask label) 0 + nth (3 + i) (boundingBoxLS mask label) 0 - 1.
Proof.
  intro Hi. unfold boundingBoxLU, boundingBoxLS. cbn [flat_map map app zipWith].
  destruct i as [|[|[|i]]]; [| | |lia]; cbn [nth Nat.add Nat.mul]; split; lia.
Qed.

(** *** The bounds comparison of [_checkROI] *)

Lemma Qmin2_ge (lo a b : Q) : (lo <= Qmin2 a b <-> lo <= a /\ lo <= b)%Q.
Proof.
  unfold Qmin2. destruct (Qle_bool a b) eqn:E.
  - apply Qle_bool_iff in E. split; [|tauto].
    intro H. split; [assumption | eapply Qle_trans; eassumption].
  - assert (Hlt : (b < a)%Q).
    { apply Qnot_le_lt. intro H. apply Qle_bool_iff in H. congruence. }
    split; [|tauto]. intro H. split; [|assumption].
    eapply Qle_trans; [eassumption | apply Qlt_le_weak; assumption].
Qed.

Lemma Qmax2_le (hi a b : Q) : (Qmax2 a b <= hi <-> a <= hi /\ b <= hi)%Q.
Proof.
  unfold Qmax2. destruct (Qle_bool a b) eqn:E.
  - apply Qle_bool_iff in E. split; [|tauto].
    intro H. split; [eapply Qle_trans; eassumption | assumption].
  - assert (Hlt : (b < a)%Q).
    { apply Qnot_le_lt. intro H. apply Qle_bool_iff in H. congruence. }
    split; [|tauto]. intro H. split; [assumption|].
    eapply Qle_trans; [apply Qlt_le_weak; eassumption | assumption].
Qed.

Lemma outOfRange_spec (imageSize : list Z) (c0 c1 : list Q) :
  List.length c0 = List.length imageSize ->
  List.length c1 = List.length imageSize ->
  outOfRange imageSize c0 c1 = false <->
  withinImage imageSize c0 /\ withinImage imageSize c1.
Proof.
  unfold outOfRange, withinImage.
  revert c0 c1. induction imageSize as [|s size IH]; intros [|a c0] [|b c1] H0 H1;
    try discriminate.
  - simpl. split; [intros _; split; constructor | reflexivity].
  - simpl in H0, H1. injection H0 as H0. injection H1 as H1.
    specialize (IH c0 c1 H0 H1). cbn [zipWith existsb].
    rewrite orb_false_iff in *. rewrite !orb_false_iff.
    rewrite !Qlt_bool_false_iff, Qmin2_ge, Qmax2_le.
    split.
    + intros [[[Ha Hb] Hr1] [[Ha' Hb'] Hr2]].
      destruct IH as [IH _]. destruct (IH (conj Hr1 Hr2)) as [F0 F1].
      split; constructor; auto.
    + intros [F0 F1].
      inversion F0 as [|? ? ? ? Ha Ft0]; subst.
      inversion F1 as [|? ? ? ? Hb Ft1]; subst.
      destruct IH as [_ IH]. destruct (IH (conj Ft0 Ft1)) as [Hr1 Hr2].
      tauto.
Qed.

Lemma lssif_label_present (mask : Image) (label : Z) :
  In label (GetPixels mask) -> label <> 0 ->
  Zin label (lssif_GetLabels (lssif_Execute mask)) = true.
Proof.
  intros H H0. unfold lssif_GetLabels, lssif_Execute; simpl.
  apply Zin_In. apply dedup_In. apply filter_In. split; [assumption|].
  apply negb_true_iff. now apply Z.eqb_neq.
Qed.

(** [_checkROI] once the label is found: one test on the two corners
    decides between the bounding box and [None]. *)
Lemma _checkROI_present (imageNode maskNode : Image) (label : Z) :
  Zin label (lssif_GetLabels (lssif_Execute maskNode)) = true ->
  let bb := boundingBoxLS maskNode label in
  let c := roiCorners imageNode maskNode bb in
  _checkROI imageNode maskNode label =
  if outOfRange (GetSize imageNode) (fst c) (snd c) then
    (None, [(DEBUG, "Checking ROI validity"%string);
            (DEBUG, "Checking if label %d is persent in the mask"%string);
            (DEBUG, "Comparing physical space of bounding box to physical space of image"%string);
            (DEBUG, "ROI bounds (image coordinate space): %s"%string);
            (ERROR, Msg.outOfBounds)])
  else
    (Some bb, [(DEBUG, "Checking ROI validity"%string);
               (DEBUG, "Checking if label %d is persent in the mask"%string);
               (DEBUG, "Comparing physical space of bounding box to physical space of image"%string);
               (DEBUG, "ROI bounds (image coordinate space): %s"%string);
               (DEBUG, "ROI valid, calculating resampling grid"%string)]).
Proof.
  intros H bb c. subst c. unfold _checkROI, outOfRange, roiCorners. rewrite H.
  change (lssif_GetBoundingBox (lssif_Execute maskNode) label) with bb.
  cbn [negb fst snd].
  match goal with |- context [if ?b then (None, _) else _] => destruct b end;
    reflexivity.
Qed.



Lemma maskBox_has_label : In 1 (GetPixels maskBox).
Proof. apply Zin_In. vm_compute. reflexivity. Qed.

Lemma image10_is3D : is3D image10.
Proof. repeat split. Qed.

Lemma maskBox_is3D : is3D maskBox.
Proof. repeat split. Qed.


(** *** [_correctMask] *)

(** The three ways [_checkROI] ends. *)
Lemma _checkROI_cases (imageNode maskNode : Image) (label : Z) :
  _checkROI imageNode maskNode label =
    (None, [(DEBUG, "Checking ROI validity"%string);
            (DEBUG, "Checking if label %d is persent in the mask"%string);
            (ERROR, Msg.labelAbsentD)])
  \/ _checkROI imageNode maskNode label =
    (None, [(DEBUG, "Checking ROI validity"%string);
            (DEBUG, "Checking if label %d is persent in the mask"%string);
            (DEBUG, "Comparing physical space of bounding box to physical space of image"%string);
            (DEBUG, "ROI bounds (image coordinate space): %s"%string);
            (ERROR, Msg.outOfBounds)])
  \/ _checkROI imageNode maskNode label =
    (Some (boundingBoxLS maskNode label),
     [(DEBUG, "Checking ROI validity"%string);
      (DEBUG, "Checking if label %d is persent in the mask"%string);
      (DEBUG, "Comparing physical space of bounding box to physical space of image"%string);
      (DEBUG, "ROI bounds (image coordinate space): %s"%string);
      (DEBUG, "ROI valid, calculating resampling grid"%string)]).
Proof.
  destruct (Zin label (lssif_GetLabels (lssif_Execute maskNode))) eqn:E.
  - rewrite (_checkROI_present imageNode maskNode label E).
    destruct (outOfRange _ _ _); auto.
  - left. unfold _checkROI. rewrite E. reflexivity.
Qed.

(** Nearest-neighbour resampling copies voxel values: every voxel of the
    output is a voxel of the input or the default pixel value 0. *)
Lemma rif_Execute_nearest_copies interpolate (f : ResampleImageFilter) (input : Image) :
  rif_Interpolator f = sitkNearestNeighbor ->
  rif_DefaultPixelValue f = 0 ->
  Forall (fun v => In v (GetPixels input) \/ v = 0)
         (GetPixels (rif_Execute interpolate f input)).
Proof.
  intros Hn Hd. unfold rif_Execute. cbn [GetPixels]. rewrite Hn, Hd.
  apply Forall_forall. intros v Hv. apply in_map_iff in Hv.
  destruct Hv as [idx [<- _]].
  destruct (insideBuffer input _); [|right; reflexivity].
  unfold nearestNeighbor, GetPixel.
  match goal with
  | |- In (nth ?n ?l ?d) _ \/ _ => destruct (nth_in_or_default n l d) as [H|H]
  end.
  - left. exact H.
  - right. exact H.
Qed.

(** The result of the nearest-neighbour kernel does not depend on the
    kernels of the other interpolators. *)
Lemma rif_Execute_nearest_kernel_free interpolate interpolate'
      (f : ResampleImageFilter) (input : Image) :
  rif_Interpolator f = sitkNearestNeighbor ->
  rif_Execute interpolate f input = rif_Execute interpolate' f input.
Proof.
  intro Hn. unfold rif_Execute. rewrite Hn. reflexivity.
Qed.

(** C7. [_correctMask] runs [_checkROI] first.  When that returns [None],
    [_correctMask] returns [None] and never reaches the resampling step.
    When the ROI is valid, it returns the mask resampled by a filter whose
    reference is the image and whose interpolator is nearest neighbour:
    the result lies on the grid of the image, keeps the pixel type of the
    mask, and each of its voxels is a voxel value of the mask or the
    background 0, so that no label values are blended; the kernels of the
    other interpolators have no part in the result. *)
Theorem _correctMask_spec :
  forall interpolate (imageNode maskNode : Image) (label : Z),
    let run := _correctMask interpolate imageNode maskNode label in
    (result (_checkROI imageNode maskNode label) = None ->
     result run = None /\ logged DEBUG Msg.resampling run = false)
    /\ (result (_checkROI imageNode maskNode label) <> None ->
        exists resampled,
          result run = Some resampled
          /\ logged DEBUG Msg.resampling run = true
          /\ resampled = rif_Execute interpolate (correctingFilter imageNode) maskNode
          /\ rif_Interpolator (correctingFilter imageNode) = sitkNearestNeighbor
          /\ GetSize resampled = GetSize imageNode
          /\ GetSpacing resampled = GetSpacing imageNode
          /\ GetOrigin resampled = GetOrigin imageNode
          /\ GetDirection resampled = GetDirection imageNode
          /\ GetPixelID resampled = GetPixelID maskNode
          /\ Forall (fun v => In v (GetPixels maskNode) \/ v = 0) (GetPixels resampled)
          /\ (forall interpolate',
                 result (_correctMask interpolate' imageNode maskNode label)
                 = Some resampled)).
Proof.
  intros interpolate imageNode maskNode label run. subst run.
  unfold _correctMask.
  destruct (_checkROI_cases imageNode maskNode label) as [E | [E | E]]; rewrite E.
  - split; [intros _; split; reflexivity | intro H; exfalso; apply H; reflexivity].
  - split; [intros _; split; reflexivity | intro H; exfalso; apply H; reflexivity].
  - split; [intro H; discriminate H|].
    intros _. eexists. split; [reflexivity|].
    split; [reflexivity|]. split; [reflexivity|].
    repeat (split; [reflexivity|]).
    split; [apply rif_Execute_nearest_copies; reflexivity|].
    intro interpolate'. cbn [result bind logger_debug logger_log ret fst].
    f_equal.
Qed.

Lemma _correctMask_spec_witness :
  exists resampled,
    result (_correctMask nearest_kernel image10 maskSmall 1) = Some resampled
    /\ GetSize resampled = GetSize image10
    /\ GetPixelID resampled = GetPixelID maskSmall.
Proof.
  destruct (proj2 (_correctMask_spec nearest_kernel image10 maskSmall 1))
    as (resampled & Hr & _ & _ & _ & Hs & _ & _ & _ & Hp & _ & _).
  - vm_compute. intro H. discriminate H.
  - exists resampled. repeat split; assumption.
Defined.

(** *** [cropToTumorMask] *)

Lemma cropToTumorMask_unfold (imageNode maskNode : Image) (boundingBox : list Z) :
  result (cropToTumorMask imageNode maskNode boundingBox) =
  match cif_Execute (croppingFilter (GetSize maskNode) boundingBox) imageNode,
        cif_Execute (croppingFilter (GetSize maskNode) boundingBox) (Cast maskNode sitkInt32)
  with
  | Some croppedImageNode, Some croppedMaskNode =>
      Some (croppedImageNode, Cast croppedMaskNode (GetPixelID maskNode))
  | _, _ => None
  end.
Proof.
  unfold cropToTumorMask, croppingFilter.
  cbn [SetLowerBoundaryCropSize SetUpperBoundaryCropSize cif_default
       LowerBoundaryCropSize UpperBoundaryCropSize Cast GetSize GetPixelID].
  rewrite result_bind.
  destruct (cif_Execute _ imageNode); [|reflexivity].
  destruct (cif_Execute _ _); reflexivity.
Qed.

Lemma croppingFilter_valid (lx ux ly uy lz uz sx sy sz : Z) :
  0 <= lx <= ux -> ux < sx ->
  0 <= ly <= uy -> uy < sy ->
  0 <= lz <= uz -> uz < sz ->
  cif_valid (croppingFilter [sx; sy; sz] [lx; ux; ly; uy; lz; uz]) [sx; sy; sz] = true.
Proof.
  intros. unfold cif_valid, croppingFilter.
  cbn [LowerBoundaryCropSize UpperBoundaryCropSize evens odds zipWith combine
       forallb List.length Nat.eqb fst snd andb].
  repeat (apply andb_true_intro; split); try reflexivity.
  all: apply Z.leb_le; lia.
Qed.

(** C9. For a bounding box (L, U per axis) inside the grid shared by image
    and mask, [cropToTumorMask] crops both volumes with one filter whose
    lower margin is the lower index and whose upper margin is
    size - upper index - 1 on every axis.  The crop is an index-space slice
    (voxel [i] of the output is voxel [lower + i] of the input), both
    results have size upper - lower + 1 on every axis, and the mask comes
    back with the pixel type it had on input. *)
Theorem cropToTumorMask_size :
  forall (imageNode maskNode : Image) (lx ux ly uy lz uz sx sy sz : Z),
    GetSize maskNode = [sx; sy; sz] ->
    GetSize imageNode = [sx; sy; sz] ->
    0 <= lx <= ux -> ux < sx ->
    0 <= ly <= uy -> uy < sy ->
    0 <= lz <= uz -> uz < sz ->
    let cif := {| LowerBoundaryCropSize := [lx; ly; lz];
                  UpperBoundaryCropSize := [sx - ux - 1; sy - uy - 1; sz - uz - 1] |} in
    exists croppedImageNode croppedMaskNode croppedInt32,
      result (cropToTumorMask imageNode maskNode [lx; ux; ly; uy; lz; uz])
      = Some (croppedImageNode, croppedMaskNode)
      /\ cif_Execute cif imageNode = Some croppedImageNode
      /\ cif_Execute cif (Cast maskNode sitkInt32) = Some croppedInt32
      /\ croppedMaskNode = Cast croppedInt32 (GetPixelID maskNode)
      /\ GetSize croppedImageNode = [ux - lx + 1; uy - ly + 1; uz - lz + 1]
      /\ GetSize croppedMaskNode = [ux - lx + 1; uy - ly + 1; uz - lz + 1]
      /\ GetPixelID croppedMaskNode = GetPixelID maskNode
      /\ GetPixels croppedImageNode
         = map (fun idx => GetPixel imageNode (zipWith Z.add [lx; ly; lz] idx))
               (gridIndices (GetSize croppedImageNode))
      /\ GetPixels croppedInt32
         = map (fun idx => GetPixel (Cast maskNode sitkInt32) (zipWith Z.add [lx; ly; lz] idx))
               (gridIndices (GetSize croppedInt32)).
Proof.
  intros imageNode maskNode lx ux ly uy lz uz sx sy sz Hm Hi Hx Hx' Hy Hy' Hz Hz' cif.
  pose proof (croppingFilter_valid lx ux ly uy lz uz sx sy sz Hx Hx' Hy Hy' Hz Hz') as V.
  assert (Ecif : croppingFilter (GetSize maskNode) [lx; ux; ly; uy; lz; uz] = cif).
  { rewrite Hm. reflexivity. }
  assert (Esize : zipWith Z.sub (zipWith Z.sub [sx; sy; sz] [lx; ly; lz])
                          [sx - ux - 1; sy - uy - 1; sz - uz - 1]
                  = [ux - lx + 1; uy - ly + 1; uz - lz + 1]).
  { cbn [zipWith]. f_equal; [lia|]. f_equal; [lia|]. f_equal. lia. }
  rewrite cropToTumorMask_unfold, Ecif.
  change (croppingFilter [sx; sy; sz] [lx; ux; ly; uy; lz; uz]) with cif in V.
  unfold cif_Execute. cbn [Cast GetSize]. rewrite Hi, Hm, V.
  do 3 eexists.
  split; [reflexivity|]. split; [reflexivity|]. split; [reflexivity|].
  split; [reflexivity|].
  cbn [GetSize GetPixels GetPixelID Cast LowerBoundaryCropSize UpperBoundaryCropSize cif].
  rewrite Esize. repeat split; reflexivity.
Qed.

Lemma cropToTumorMask_size_witness :
  exists croppedImageNode croppedMaskNode,
    result (cropToTumorMask image10 maskBox [2; 5; 2; 5; 2; 5])
    = Some (croppedImageNode, croppedMaskNode)
    /\ GetSize croppedImageNode = [4; 4; 4]
    /\ GetSize croppedMaskNode = [4; 4; 4]
    /\ GetPixelID croppedMaskNode = sitkUInt8.
Proof.
  destruct (cropToTumorMask_size image10 maskBox 2 5 2 5 2 5 10 10 10
              eq_refl eq_refl ltac:(lia) ltac:(lia) ltac:(lia) ltac:(lia)
              ltac:(lia) ltac:(lia))
    as (ci & cm & c32 & Hr & _ & _ & _ & Hsi & Hsm & Hp & _).
  exists ci, cm. repeat split; assumption.
Defined.

(** *** The resampling grid of [resampleImage] *)

Lemma clamped_size (l e : Z) (r : Q) (pad s : Z) :
  (let u := Qceiling ((inQ l + inQ e - (1 # 2)) * r + inQ pad)%Q in
   let m := Qceiling (inQ s * r)%Q - 1 in
   if u >? m then m else u)
  - (let lo := Qfloor ((inQ l - (1 # 2)) * r - inQ pad)%Q in
     if lo <? 0 then 0 else lo) + 1
  = GridSpec.newSize l e r pad s.
Proof.
  unfold GridSpec.newSize, GridSpec.newUpper, GridSpec.newLower. cbv zeta.
  destruct (Z.gtb_spec (Qceiling ((inQ l + inQ e - (1 # 2)) * r + inQ pad)%Q)
                       (Qceiling (inQ s * r)%Q - 1));
    destruct (Z.ltb_spec (Qfloor ((inQ l - (1 # 2)) * r - inQ pad)%Q) 0); lia.
Qed.

Lemma effective_spacing (e : Z) (t m : Q) :
  (if negb (e =? 1) then t else m) = GridSpec.targetSpacing e t m.
Proof.
  unfold GridSpec.targetSpacing. destruct (e =? 1); reflexivity.
Qed.

Lemma resamplingGrid_newSize (maskNode : Image)
      (lx ly lz ex ey ez : Z) (mx my mz tx ty tz : Q) (sx sy sz padDistance : Z) :
  GetSpacing maskNode = [mx; my; mz] ->
  GetSize maskNode = [sx; sy; sz] ->
  grid_newSize (resamplingGrid maskNode [lx; ly; lz; ex; ey; ez] [tx; ty; tz] padDistance)
  = [GridSpec.newSize lx ex (GridSpec.ratio ex tx mx) padDistance sx;
     GridSpec.newSize ly ey (GridSpec.ratio ey ty my) padDistance sy;
     GridSpec.newSize lz ez (GridSpec.ratio ez tz mz) padDistance sz].
Proof.
  intros Hsp Hsz. unfold resamplingGrid. rewrite Hsp, Hsz.
  cbn [grid_newSize skipn firstn zipWith3 zipWith map].
  rewrite !effective_spacing.
  f_equal; [apply clamped_size|]. f_equal; [apply clamped_size|].
  f_equal. apply clamped_size.
Qed.




(** *** The checks of [checkMask] *)

Lemma _correctMask_cases interpolate (imageNode maskNode : Image) (label : Z) :
  (result (_correctMask interpolate imageNode maskNode label) = None
   /\ (errors (_correctMask interpolate imageNode maskNode label) = [Msg.labelAbsentD]
       \/ errors (_correctMask interpolate imageNode maskNode label) = [Msg.outOfBounds]))
  \/ (result (_correctMask interpolate imageNode maskNode label)
      = Some (rif_Execute interpolate (correctingFilter imageNode) maskNode)
      /\ errors (_correctMask interpolate imageNode maskNode label) = []).
Proof.
  unfold _correctMask.
  destruct (_checkROI_cases imageNode maskNode label) as [E | [E | E]]; rewrite E.
  - left. split; [reflexivity | left; reflexivity].
  - left. split; [reflexivity | right; reflexivity].
  - right. split; reflexivity.
Qed.

Lemma errors_bind {A B} (m : Logged A) (f : A -> Logged B) :
  errors (bind m f) = errors m ++ errors (f (result m)).
Proof.
  unfold errors. rewrite records_bind, filter_app, map_app. reflexivity.
Qed.

Lemma checkMask_checked lsif_verify interpolate python (imageNode maskNode : Image)
      (kwargs : Kwargs) (m : Image) :
  checkedMask lsif_verify interpolate imageNode maskNode kwargs = Some m ->
  let label := get (kw_label kwargs) 1 in
  let run := checkMask lsif_verify interpolate python imageNode maskNode kwargs in
  result run = Returns (Some (boundingBoxLU m label),
                        match lsif_verify imageNode maskNode with
                        | None => None
                        | Some _ => Some m
                        end)
  /\ errors run = checksOutcome (boundingBoxLU m label)
                                (lsif_GetCount {| lsif_mask := m |} label)
                                (get (kw_minimumROIDimensions kwargs) 1)
                                (kw_minimumROISize kwargs).
Proof.
  unfold checkedMask, checkMask, lsif_Execute, checksOutcome. intros H.
  cbv zeta.
  rewrite !result_bind, !errors_bind.
  destruct (lsif_verify imageNode maskNode) as [e|] eqn:Hv.
  - destruct (get (kw_correctMask kwargs) false) eqn:Hc; [|discriminate H].
    cbn [negb]. rewrite !result_bind, !errors_bind.
    destruct (_correctMask_cases interpolate imageNode maskNode (get (kw_label kwargs) 1))
      as [[E _] | [E Eerr]]; rewrite E in H |- *; [discriminate H|].
    rewrite Eerr.
    destruct (lsif_verify imageNode (rif_Execute interpolate (correctingFilter imageNode) maskNode))
      eqn:Hv2; [discriminate H|].
    injection H as <-.
    cbn [result fst snd ret].
    change (lsif_GetBoundingBox _ (get (kw_label kwargs) 1))
      with (boundingBoxLU (rif_Execute interpolate (correctingFilter imageNode) maskNode)
                          (get (kw_label kwargs) 1)).
    destruct (ndims_of _ <=? _); [split; reflexivity|].
    destruct (kw_minimumROISize kwargs) as [ms|]; [|split; reflexivity].
    destruct (lsif_GetCount _ _ <=? ms); split; reflexivity.
  - destruct (Zin _ _) eqn:Hl; [|discriminate H]. injection H as <-.
    cbn [negb result fst snd ret].
    change (lsif_GetBoundingBox _ (get (kw_label kwargs) 1))
      with (boundingBoxLU maskNode (get (kw_label kwargs) 1)).
    destruct (ndims_of _ <=? _); [split; reflexivity|].
    destruct (kw_minimumROISize kwargs) as [ms|]; [|split; reflexivity].
    destruct (lsif_GetCount _ _ <=? ms); split; reflexivity.
Qed.

(** The count of the code is the dimensionality of the specification. *)
Lemma ndims_of_dimensionality (lx ux ly uy lz uz : Z) :
  ndims_of [lx; ux; ly; uy; lz; uz]
  = CheckSpec.dimensionality [ux - lx + 1; uy - ly + 1; uz - lz + 1].
Proof.
  unfold ndims_of, count_true, CheckSpec.dimensionality.
  cbn [odds evens zipWith map filter].
  rewrite !Z.gtb_ltb.
  destruct (1 <? ux - lx + 1), (1 <? uy - ly + 1), (1 <? uz - lz + 1); reflexivity.
Qed.

Lemma ndims_of_boundingBoxLU (m : Image) (label : Z) :
  ndims_of (boundingBoxLU m label)
  = CheckSpec.dimensionality (CheckSpec.extents (boundingBoxLU m label)).
Proof.
  unfold boundingBoxLU. cbn [flat_map app CheckSpec.extents].
  apply ndims_of_dimensionality.
Qed.

(** C4. Once [checkMask] has the statistics of the mask it checks, the ROI
    passes the dimension check exactly when its dimensionality, the count
    of axes whose bounding-box extent is strictly greater than 1, is
    strictly greater than minDims, and, when minSize is given, the size
    check exactly when its voxel count is strictly greater than minSize;
    the size check is skipped when minSize is [None].  The check that is
    not satisfied is reported as an error, and no error is reported when
    both are satisfied.  The count that the code takes of a box
    (L_X, U_X, L_Y, U_Y, L_Z, U_Z) is this dimensionality of its extents
    U - L + 1: an axis of extent 2 counts, an axis of extent 1 does not.
    Boxes of extents (5,1,1) have dimensionality 1 and fail
    minimumROIDimensions = 1; boxes of extents (5,3,1) have 2 and pass. *)
Theorem checkMask_dimension_and_size_checks :
  (forall lsif_verify interpolate python (imageNode maskNode : Image) (kwargs : Kwargs)
          (m : Image),
      checkedMask lsif_verify interpolate imageNode maskNode kwargs = Some m ->
      let label := get (kw_label kwargs) 1 in
      let minDims := get (kw_minimumROIDimensions kwargs) 1 in
      let minSize := kw_minimumROISize kwargs in
      let run := checkMask lsif_verify interpolate python imageNode maskNode kwargs in
      let ndims := CheckSpec.dimensionality (CheckSpec.extents (boundingBoxLU m label)) in
      let roiSize := lsif_GetCount {| lsif_mask := m |} label in
      (errors run = [Msg.tooFewDims] <-> ~ ndims > minDims)
      /\ (errors run = [Msg.tooSmall] <->
          ndims > minDims /\ exists ms, minSize = Some ms /\ ~ roiSize > ms)
      /\ (errors run = [] <->
          ndims > minDims /\ forall ms, minSize = Some ms -> roiSize > ms))
  /\ (forall lx ux ly uy lz uz : Z,
         ndims_of [lx; ux; ly; uy; lz; uz]
         = CheckSpec.dimensionality [ux - lx + 1; uy - ly + 1; uz - lz + 1])
  /\ (forall e0 e1 e2 : Z,
         CheckSpec.dimensionality [e0; e1; e2]
         = (if 1 <? e0 then 1 else 0) + (if 1 <? e1 then 1 else 0)
           + (if 1 <? e2 then 1 else 0))
  /\ (CheckSpec.dimensionality [5; 1; 1] = 1
      /\ CheckSpec.dimensionality [5; 3; 1] = 2
      /\ CheckSpec.dimensionality [2; 1; 1] = 1
      /\ CheckSpec.dimensionality [2; 2; 2] = 3)
  /\ (forall lx ly lz : Z,
         ndims_of [lx; lx + 4; ly; ly; lz; lz] = 1
         /\ ndims_of [lx; lx + 4; ly; ly + 2; lz; lz] = 2
         /\ ndims_of [lx; lx + 1; ly; ly; lz; lz] = 1)
  /\ lsif_GetBoundingBox {| lsif_mask := maskLine |} 1 = [2; 6; 2; 2; 2; 2]
  /\ (forall python,
         errors (checkMask sitk_verify nearest_kernel python image10 maskLine noKwargs)
         = [Msg.tooFewDims])
  /\ lsif_GetBoundingBox {| lsif_mask := maskPlane |} 1 = [2; 6; 2; 4; 2; 2]
  /\ (forall python,
         errors (checkMask sitk_verify nearest_kernel python image10 maskPlane noKwargs) = []).
Proof.
  split; [|split; [|split; [|split; [|split]]]].
  - intros lsif_verify interpolate python imageNode maskNode kwargs m H.
    destruct (checkMask_checked lsif_verify interpolate python imageNode maskNode kwargs m H)
      as (_ & E).
    cbv zeta in *. rewrite E. clear E H. unfold checksOutcome.
    rewrite ndims_of_boundingBoxLU.
    destruct (Z.leb_spec (CheckSpec.dimensionality
                            (CheckSpec.extents (boundingBoxLU m (get (kw_label kwargs) 1))))
                         (get (kw_minimumROIDimensions kwargs) 1)) as [Hd|Hd].
    + repeat split; intros; decide_outcome.
    + destruct (kw_minimumROISize kwargs) as [ms|].
      * destruct (Z.leb_spec (lsif_GetCount {| lsif_mask := m |} (get (kw_label kwargs) 1)) ms)
          as [Hs|Hs].
        -- repeat split; intros; decide_outcome.
           ++ exists ms. split; [reflexivity | lia].
           ++ match goal with
              | H : forall _, Some ms = Some _ -> _ |- _ => specialize (H ms eq_refl); lia
              end.
        -- repeat split; intros; decide_outcome.
      * repeat split; intros; decide_outcome.
  - exact ndims_of_dimensionality.
  - intros e0 e1 e2. unfold CheckSpec.dimensionality. cbn [filter].
    destruct (1 <? e0), (1 <? e1), (1 <? e2); reflexivity.
  - repeat split; reflexivity.
  - intros lx ly lz. rewrite !ndims_of_dimensionality.
    replace (lx + 4 - lx + 1) with 5 by lia.
    replace (lx + 1 - lx + 1) with 2 by lia.
    replace (ly - ly + 1) with 1 by lia.
    replace (lz - lz + 1) with 1 by lia.
    replace (ly + 2 - ly + 1) with 3 by lia.
    repeat split; reflexivity.
  - split; [vm_compute; reflexivity|]. split; [intros []; vm_compute; reflexivity|].
    split; [vm_compute; reflexivity|]. intros []; vm_compute; reflexivity.
Qed.

Lemma maskBox_checked :
  checkedMask sitk_verify nearest_kernel image10 maskBox
              {| kw_label := Some 1; kw_minimumROIDimensions := Some 1;
                 kw_minimumROISize := Some 10; kw_correctMask := None |}
  = Some maskBox.
Proof. vm_compute. reflexivity. Qed.

Lemma checkMask_dimension_and_size_checks_witness :
  errors (checkMask sitk_verify nearest_kernel Python3 image10 maskBox
                    {| kw_label := Some 1; kw_minimumROIDimensions := Some 1;
                       kw_minimumROISize := Some 10; kw_correctMask := None |}) = []
  <-> CheckSpec.dimensionality (CheckSpec.extents (boundingBoxLU maskBox 1)) > 1
      /\ forall ms, Some 10 = Some ms -> lsif_GetCount {| lsif_mask := maskBox |} 1 > ms.
Proof.
  exact (proj2 (proj2 (proj1 checkMask_dimension_and_size_checks
                         sitk_verify nearest_kernel Python3 image10 maskBox _ maskBox
                         maskBox_checked))).
Defined.

(** *** What [checkMask] returns when a check fails *)

(** C1. The docstring of [checkMask] promises (None, None) whenever a check
    fails.  On the line-shaped ROI the dimension check fails and is
    reported, yet the bounding box is returned; on the 64-voxel box with
    minimumROISize = 64 the size check fails and is reported, yet the
    bounding box is returned. *)
Theorem checkMask_failed_check_returns_bounding_box :
  forall python,
    result (checkMask sitk_verify nearest_kernel python image10 maskLine noKwargs)
    = Returns (Some [2; 6; 2; 2; 2; 2], None)
    /\ errors (checkMask sitk_verify nearest_kernel python image10 maskLine noKwargs)
       = [Msg.tooFewDims]
    /\ result (checkMask sitk_verify nearest_kernel python image10 maskBox (kwargsMinSize 64))
       = Returns (Some [2; 5; 2; 5; 2; 5], None)
    /\ errors (checkMask sitk_verify nearest_kernel python image10 maskBox (kwargsMinSize 64))
       = [Msg.tooSmall].
Proof.
  intros []; repeat split; vm_compute; reflexivity.
Qed.




(** *** The scenarios of the specification, run *)

(** The 64-voxel box passes both checks with minimumROISize = 10: the
    bounding box is returned and no mask was corrected. *)
Example scenario_box_passes :
  forall python,
    checkMask sitk_verify nearest_kernel python image10 maskBox (kwargsMinSize 10)
    = (Returns (Some [2; 5; 2; 5; 2; 5], None),
       [(DEBUG, "Checking mask with label %d"%string);
        (DEBUG, "Calculating bounding box"%string);
        (DEBUG, "Checking minimum number of dimensions requirements (%d)"%string);
        (DEBUG, "Checking minimum size requirements (minimum size: %d)"%string)]).
Proof. intros []; vm_compute; reflexivity. Qed.

(** A mask whose origin is shifted by (100, 100, 100) does not overlap the
    image: [_checkROI] returns [None], and [checkMask] with [correctMask]
    enabled returns (None, None) after the out-of-bounds report. *)
Example scenario_shifted_mask :
  forall python,
    result (_checkROI image10 (withOrigin [100; 100; 100]%Q maskBox) 1) = None
    /\ result (checkMask sitk_verify nearest_kernel python image10
                         (withOrigin [100; 100; 100]%Q maskBox) kwargsCorrect)
       = Returns (None, None)
    /\ errors (checkMask sitk_verify nearest_kernel python image10
                         (withOrigin [100; 100; 100]%Q maskBox) kwargsCorrect)
       = [Msg.outOfBounds; Msg.correctionFailed].
Proof. intros []; repeat split; vm_compute; reflexivity. Qed.

(** Cropping a volume to its full grid changes neither its size nor its
    voxels. *)
Example scenario_full_crop :
  option_map (fun r => (GetSize (fst r), GetPixels (fst r)))
             (result (cropToTumorMask maskSmall maskSmall [0; 7; 0; 7; 0; 7]))
  = Some (GetSize maskSmall, GetPixels maskSmall).
Proof. vm_compute. reflexivity. Qed.

(** ** Properties of the further functions *)
(** *** [generateAngles] *)

Lemma Zrange_In (a b i : Z) : In i (Zrange a b) <-> a <= i < b.
Proof.
  unfold Zrange. rewrite in_map_iff. split.
  - intros [k [<- Hk]]. apply in_seq in Hk. lia.
  - intros H. exists (Z.to_nat (i - a)). split; [lia|]. apply in_seq. lia.
Qed.

Lemma allAngles_In (d : Z) (a : list Z) :
  In a (allAngles d) <->
  exists x y z, a = [x; y; z] /\ canonical a
                /\ Z.abs x <= d /\ Z.abs y <= d /\ Z.abs z <= d.
Proof.
  unfold allAngles. rewrite in_flat_map. split.
  - intros [z [Hz [<- | H]]].
    + apply Zrange_In in Hz. exists 0, 0, z. cbn. repeat split; lia.
    + apply in_flat_map in H. destruct H as [y [Hy [<- | H]]].
      * apply Zrange_In in Hz, Hy. exists 0, z, y. cbn. repeat split; lia.
      * apply in_map_iff in H. destruct H as [x [<- Hx]].
        apply Zrange_In in Hz, Hy, Hx. exists z, y, x. cbn. repeat split; lia.
  - intros (x & y & z & -> & Hc & Hx & Hy & Hz). cbn in Hc.
    destruct Hc as [Hc | [[-> Hc] | (-> & -> & Hc)]].
    + exists x. split; [apply Zrange_In; lia|]. right.
      apply in_flat_map. exists y. split; [apply Zrange_In; lia|]. right.
      apply in_map_iff. exists z. split; [reflexivity | apply Zrange_In; lia].
    + exists y. split; [apply Zrange_In; lia|]. right.
      apply in_flat_map. exists z. split; [apply Zrange_In; lia|]. left. reflexivity.
    + exists z. split; [apply Zrange_In; lia|]. left. reflexivity.
Qed.

Lemma fold_max_In (l : list Z) (a : Z) : In (fold_left Z.max l a) (a :: l).
Proof.
  revert a. induction l as [|y l IH]; intro a; simpl; [auto|].
  destruct (IH (Z.max a y)) as [H | H].
  - destruct (Z.max_spec a y) as [[_ E] | [_ E]]; rewrite E in *; simpl; auto.
  - simpl. auto.
Qed.

Lemma py_max_spec (xs : list Z) (m : Z) :
  py_max xs = Some m -> In m xs /\ forall x, In x xs -> x <= m.
Proof.
  destruct xs as [|a l]; [discriminate|]. cbn. intros [= <-]. split.
  - apply fold_max_In.
  - destruct (fold_max_ge l a) as [H1 H2]. intros x [<- | Hx]; auto.
Qed.

Lemma maxAbs3 (x y z : Z) : maxAbs [x; y; z] = Z.max (Z.max (Z.abs x) (Z.abs y)) (Z.abs z).
Proof. reflexivity. Qed.

(** The value of [generateAngles], without the log. *)
Lemma generateAngles_result (size : list Z) (kwargs : AngleKwargs) :
  result (generateAngles size kwargs) =
  match py_max (get (kw_distances kwargs) [1]) with
  | None => None
  | Some maxDistance =>
      let angles := allAngles maxDistance in
      let angles :=
        if maxDistance >? 1
        then filter (fun angle => Zin (maxAbs angle) (get (kw_distances kwargs) [1])) angles
        else angles in
      match angles, broadcast3 size with
      | [], _ => None
      | _, None => None
      | _ :: _, Some size =>
          let angles :=
            filter (fun angle =>
                      negb (minimum (zipWith Z.sub size (map Z.abs angle)) <=? 0))
                   angles in
          if get (kw_force2D kwargs) false then
            match column (get (kw_force2Ddimension kwargs) 0) with
            | None => None
            | Some d => Some (filter (fun angle => nth d angle 0 =? 0) angles)
            end
          else Some angles
      end
  end.
Proof.
  unfold generateAngles. rewrite result_bind.
  destruct (py_max _) as [m|]; [|reflexivity]. cbv zeta.
  destruct (if m >? 1 then _ else _) as [|a0 l]; [reflexivity|].
  destruct (broadcast3 size) as [s|]; [|reflexivity].
  destruct (get (kw_force2D kwargs) false); [|reflexivity].
  destruct (column _); reflexivity.
Qed.

(** The angles kept by the distance test are those whose infinity norm is
    one of the distances. *)
Lemma distance_filter_In (distances : list Z) (m : Z) (a : list Z) :
  py_max distances = Some m ->
  In a (if m >? 1
        then filter (fun angle => Zin (maxAbs angle) distances) (allAngles m)
        else allAngles m)
  <-> exists x y z, a = [x; y; z] /\ canonical a /\ In (maxAbs a) distances.
Proof.
  intro Hm. destruct (py_max_spec _ _ Hm) as [Hin Hmax].
  destruct (Z.gtb_spec m 1) as [Hgt | Hle].
  - rewrite filter_In, allAngles_In, Zin_In. split.
    + intros [(x & y & z & -> & Hc & _) Hd]. exists x, y, z. auto.
    + intros (x & y & z & -> & Hc & Hd). split; [|assumption].
      exists x, y, z. split; [reflexivity|]. split; [assumption|].
      specialize (Hmax _ Hd). rewrite maxAbs3 in Hmax. lia.
  - rewrite allAngles_In. split.
    + intros (x & y & z & -> & Hc & Hx & Hy & Hz). exists x, y, z.
      split; [reflexivity|]. split; [assumption|].
      assert (E : maxAbs [x; y; z] = m).
      { rewrite maxAbs3. cbn in Hc. lia. }
      rewrite E. exact Hin.
    + intros (x & y & z & -> & Hc & Hd). exists x, y, z.
      split; [reflexivity|]. split; [assumption|].
      specialize (Hmax _ Hd). rewrite maxAbs3 in Hmax. lia.
Qed.

Lemma size_filter_spec (s0 s1 s2 x y z : Z) :
  negb (minimum (zipWith Z.sub [s0; s1; s2] (map Z.abs [x; y; z])) <=? 0) = true
  <-> fitsBox [s0; s1; s2] [x; y; z].
Proof.
  cbn. rewrite negb_true_iff, Z.leb_gt. lia.
Qed.

Lemma broadcast3_shape (size s : list Z) :
  broadcast3 size = Some s -> exists s0 s1 s2, s = [s0; s1; s2].
Proof.
  destruct size as [|a [|b [|c [|? ?]]]]; try discriminate; intros [= <-]; eauto.
Qed.

(** X1. Whenever [generateAngles] returns, the rows it returns are exactly
    the offset vectors (x, y, z) whose first non-zero component is
    positive, whose largest absolute component is one of the distances,
    and which fit the box of the given size (|x| < size[0], |y| < size[1],
    |z| < size[2]); with force2D they also have a zero in the force2D
    dimension. *)
Theorem generateAngles_characterised :
  forall (size : list Z) (kwargs : AngleKwargs) (angles : list (list Z)),
    result (generateAngles size kwargs) = Some angles ->
    exists box,
      broadcast3 size = Some box
      /\ forall a,
        In a angles <->
        (exists x y z, a = [x; y; z])
        /\ canonical a
        /\ In (maxAbs a) (get (kw_distances kwargs) [1])
        /\ fitsBox box a
        /\ (get (kw_force2D kwargs) false = true ->
            exists d, column (get (kw_force2Ddimension kwargs) 0) = Some d
                      /\ nth d a 0 = 0).
Proof.
  intros size kwargs angles. rewrite generateAngles_result.
  destruct (py_max _) as [m|] eqn:Hm; [|discriminate]. cbv zeta.
  pose proof (fun a => distance_filter_In (get (kw_distances kwargs) [1]) m a Hm) as HD.
  destruct (if m >? 1 then _ else _) as [|a0 l] eqn:El; [discriminate|].
  destruct (broadcast3 size) as [box|] eqn:Hb; [|discriminate].
  destruct (broadcast3_shape _ _ Hb) as (s0 & s1 & s2 & ->).
  assert (HS : forall a, In a (filter (fun angle =>
                 negb (minimum (zipWith Z.sub [s0; s1; s2] (map Z.abs angle)) <=? 0))
                 (a0 :: l))
               <-> (exists x y z, a = [x; y; z]) /\ canonical a
                   /\ In (maxAbs a) (get (kw_distances kwargs) [1])
                   /\ fitsBox [s0; s1; s2] a).
  { intro a. rewrite filter_In, HD. split.
    - intros [(x & y & z & -> & Hc & Hd) Hf]. apply size_filter_spec in Hf.
      split; [eauto|]. split; [assumption|]. split; assumption.
    - intros ((x & y & z & ->) & Hc & Hd & Hf). split.
      + exists x, y, z. auto.
      + now apply size_filter_spec. }
  destruct (get (kw_force2D kwargs) false).
  - destruct (column _) as [d|] eqn:Hcol; [|discriminate].
    intros [= <-]. exists [s0; s1; s2]. split; [reflexivity|].
    intro a. rewrite filter_In, HS, Z.eqb_eq. split.
    + intros [(H1 & H2 & H3 & H4) H5].
      split; [assumption|]. split; [assumption|]. split; [assumption|].
      split; [assumption|]. intros _. exists d. auto.
    + intros (H1 & H2 & H3 & H4 & H5). split; [auto|].
      destruct (H5 eq_refl) as (d' & [= <-] & E). exact E.
  - intros [= <-]. exists [s0; s1; s2]. split; [reflexivity|].
    intro a. rewrite HS. split.
    + intros (H1 & H2 & H3 & H4).
      split; [assumption|]. split; [assumption|]. split; [assumption|].
      split; [assumption|]. intro; discriminate.
    + intros (H1 & H2 & H3 & H4 & _). auto.
Qed.

Lemma generateAngles_characterised_witness :
  exists box,
    broadcast3 [5; 5; 5] = Some box
    /\ forall a,
      In a [[0; 0; 1]; [0; 1; -1]; [1; -1; -1]; [1; -1; 0]; [1; -1; 1]; [0; 1; 0];
            [1; 0; -1]; [1; 0; 0]; [1; 0; 1]; [0; 1; 1]; [1; 1; -1]; [1; 1; 0]; [1; 1; 1]] <->
      (exists x y z, a = [x; y; z])
      /\ canonical a
      /\ In (maxAbs a) [1]
      /\ fitsBox box a
      /\ (false = true ->
          exists d, column 0 = Some d /\ nth d a 0 = 0).
Proof.
  exact (generateAngles_characterised [5; 5; 5] noAngleKwargs _ eq_refl).
Defined.

Lemma NoDup_flat_map_disjoint {A B} (f : A -> list B) (l : list A) :
  NoDup l ->
  (forall x, In x l -> NoDup (f x)) ->
  (forall x y b, In x l -> In y l -> In b (f x) -> In b (f y) -> x = y) ->
  NoDup (flat_map f l).
Proof.
  induction l as [|a l IH]; intros Hl Hf Hd; simpl; [constructor|].
  inversion Hl as [|? ? Ha Hl']; subst.
  apply NoDup_app.
  - apply Hf. now left.
  - apply IH; [assumption | intros; apply Hf; now right |].
    intros x y b Hx Hy. apply Hd; now right.
  - intros b Hb Hb'. apply in_flat_map in Hb'. destruct Hb' as [y [Hy Hby]].
    assert (a = y) by (apply (Hd a y b); [now left | now right | assumption | assumption]).
    subst. contradiction.
Qed.

Lemma NoDup_map_injective {A B} (f : A -> B) (l : list A) :
  (forall x y, f x = f y -> x = y) -> NoDup l -> NoDup (map f l).
Proof.
  intros Hf. induction 1 as [|x l Hx _ IH]; simpl; constructor; [|assumption].
  intro H. apply in_map_iff in H. destruct H as [y [E Hy]].
  apply Hf in E. subst. contradiction.
Qed.

Lemma Zrange_NoDup (a b : Z) : NoDup (Zrange a b).
Proof.
  unfold Zrange. apply NoDup_map_injective; [|apply seq_NoDup].
  intros i j H. lia.
Qed.

Lemma allAngles_NoDup (d : Z) : NoDup (allAngles d).
Proof.
  unfold allAngles. apply NoDup_flat_map_disjoint.
  - apply Zrange_NoDup.
  - intros z Hz. apply Zrange_In in Hz. constructor.
    + intro H. apply in_flat_map in H. destruct H as [y [_ [H | H]]].
      * injection H as H _. lia.
      * apply in_map_iff in H. destruct H as [x [H _]]. injection H as H _ _. lia.
    + apply NoDup_flat_map_disjoint.
      * apply Zrange_NoDup.
      * intros y Hy. constructor.
        -- intro H. apply in_map_iff in H. destruct H as [x [H _]].
           injection H as H _ _. lia.
        -- apply NoDup_map_injective; [|apply Zrange_NoDup].
           intros i j H. now injection H.
      * intros y y' b _ _ [<- | H] [H' | H'].
        -- now injection H'.
        -- apply in_map_iff in H'. destruct H' as [x [H' _]]. injection H' as H' _ _. lia.
        -- apply in_map_iff in H. destruct H as [x [<- _]]. injection H' as H' _ _. lia.
        -- apply in_map_iff in H. destruct H as [x [<- _]].
           apply in_map_iff in H'. destruct H' as [x' [H' _]]. now injection H'.
  - intros z z' b Hz Hz' Hb Hb'. apply Zrange_In in Hz, Hz'.
    assert (K : forall w, 1 <= w ->
                In b ([0; 0; w] ::
                      flat_map (fun y => [0; w; y] ::
                                  map (fun x => [w; y; x]) (Zrange (- d) (d + 1)))
                               (Zrange (- d) (d + 1))) ->
                b = [0; 0; w] \/ (exists y, b = [0; w; y]) \/ (exists y x, b = [w; y; x])).
    { intros w _ [<- | H]; [auto|]. apply in_flat_map in H.
      destruct H as [y [_ [<- | H]]]; [eauto|].
      apply in_map_iff in H. destruct H as [x [<- _]]. eauto. }
    destruct (K z ltac:(lia) Hb) as [-> | [[y ->] | [y [x ->]]]];
      destruct (K z' ltac:(lia) Hb') as [E | [[y' E] | [y' [x' E]]]];
      injection E; intros; lia.
Qed.

Lemma canonical_opp (a : list Z) : canonical a -> ~ canonical (map Z.opp a).
Proof.
  destruct a as [|x [|y [|z [|? ?]]]]; cbn; try tauto. lia.
Qed.

(** X2. The rows that [generateAngles] returns are pairwise distinct, and
    no row is the opposite of another row (or of itself): every direction
    is listed once. *)
Theorem generateAngles_directions_once :
  forall (size : list Z) (kwargs : AngleKwargs) (angles : list (list Z)),
    result (generateAngles size kwargs) = Some angles ->
    NoDup angles
    /\ forall a, In a angles -> ~ In (map Z.opp a) angles.
Proof.
  intros size kwargs angles H. split.
  - revert H. rewrite generateAngles_result.
    destruct (py_max _) as [m|]; [|discriminate]. cbv zeta.
    assert (N : NoDup (if m >? 1
                       then filter (fun angle => Zin (maxAbs angle)
                                                     (get (kw_distances kwargs) [1]))
                                   (allAngles m)
                       else allAngles m)).
    { destruct (m >? 1); [apply NoDup_filter|]; apply allAngles_NoDup. }
    destruct (if m >? 1 then _ else _) as [|a0 l]; [discriminate|].
    destruct (broadcast3 size) as [box|]; [|discriminate].
    match goal with
    | |- context [filter ?p (a0 :: l)] =>
        set (F := filter p (a0 :: l));
        assert (NF : NoDup F) by (apply NoDup_filter; exact N);
        clearbody F
    end.
    destruct (get (kw_force2D kwargs) false).
    + destruct (column _); [|discriminate]. intros [= <-].
      now apply NoDup_filter.
    + intros [= <-]. exact NF.
  - destruct (generateAngles_characterised size kwargs angles H) as (box & _ & C).
    intros a Ha Hopp. apply C in Ha. apply C in Hopp.
    destruct Ha as (_ & Hc & _). destruct Hopp as (_ & Hc' & _).
    exact (canonical_opp a Hc Hc').
Qed.

Lemma generateAngles_directions_once_witness :
  ~ In (map Z.opp [1; -1; 0])
       [[0; 0; 1]; [0; 1; -1]; [1; -1; -1]; [1; -1; 0]; [1; -1; 1]; [0; 1; 0];
        [1; 0; -1]; [1; 0; 0]; [1; 0; 1]; [0; 1; 1]; [1; 1; -1]; [1; 1; 0]; [1; 1; 1]].
Proof.
  apply (proj2 (generateAngles_directions_once [5; 5; 5] noAngleKwargs _ eq_refl)).
  do 3 right. left. reflexivity.
Defined.

Lemma filter_all {A} (p : A -> bool) (l : list A) :
  Forall (fun x => p x = true) l -> filter p l = l.
Proof.
  induction 1 as [|x l Hx _ IH]; simpl; [reflexivity|]. now rewrite Hx, IH.
Qed.

(** X3. With the default distance 1 and a box of at least 2 voxels on
    every axis, [generateAngles] returns 13 angles; with the distance 2
    alone and at least 3 voxels on every axis it returns 49. *)
Theorem generateAngles_counts :
  forall s0 s1 s2 : Z,
    (2 <= s0 -> 2 <= s1 -> 2 <= s2 ->
     option_map (@List.length (list Z))
                (result (generateAngles [s0; s1; s2] noAngleKwargs)) = Some 13%nat)
    /\ (3 <= s0 -> 3 <= s1 -> 3 <= s2 ->
        option_map (@List.length (list Z))
                   (result (generateAngles [s0; s1; s2] (angleKwargs [2]))) = Some 49%nat).
Proof.
  intros s0 s1 s2. split; intros H0 H1 H2; rewrite generateAngles_result.
  - change (py_max (get (kw_distances noAngleKwargs) [1])) with (Some 1).
    cbv beta iota zeta. change (1 >? 1) with false. cbv iota.
    change (allAngles 1) with
      [[0; 0; 1]; [0; 1; -1]; [1; -1; -1]; [1; -1; 0]; [1; -1; 1]; [0; 1; 0];
       [1; 0; -1]; [1; 0; 0]; [1; 0; 1]; [0; 1; 1]; [1; 1; -1]; [1; 1; 0]; [1; 1; 1]].
    cbn [broadcast3 get kw_force2D noAngleKwargs].
    rewrite filter_all; [reflexivity|].
    repeat constructor; apply size_filter_spec; cbn; lia.
  - change (py_max (get (kw_distances (angleKwargs [2])) [1])) with (Some 2).
    cbv beta iota zeta. change (2 >? 1) with true. cbv iota.
    set (l := filter _ (allAngles 2)).
    let v := eval vm_compute in
               (filter (fun angle => Zin (maxAbs angle) [2]) (allAngles 2)) in
    assert (El : l = v) by (subst l; vm_compute; reflexivity).
    rewrite El. clear l El.
    cbn [broadcast3 get kw_force2D angleKwargs].
    rewrite filter_all; [reflexivity|].
    repeat constructor; apply size_filter_spec; cbn; lia.
Qed.

Lemma generateAngles_counts_witness :
  option_map (@List.length (list Z)) (result (generateAngles [4; 3; 2] noAngleKwargs))
  = Some 13%nat.
Proof.
  apply (proj1 (generateAngles_counts 4 3 2)); lia.
Defined.

(** X4. [generateAngles] raises exactly when there are no distances, when
    the largest distance is below 1 (no angle is generated), when the size
    does not broadcast against rows of three, or when force2D is set with
    a force2D dimension outside -3..2. *)
Theorem generateAngles_raises :
  forall (size : list Z) (kwargs : AngleKwargs),
    result (generateAngles size kwargs) = None <->
    get (kw_distances kwargs) [1] = []
    \/ (exists m, py_max (get (kw_distances kwargs) [1]) = Some m /\ m < 1)
    \/ broadcast3 size = None
    \/ (get (kw_force2D kwargs) false = true
        /\ column (get (kw_force2Ddimension kwargs) 0) = None).
Proof.
  intros size kwargs. rewrite generateAngles_result.
  destruct (py_max (get (kw_distances kwargs) [1])) as [m|] eqn:Hm.
  - cbv zeta.
    pose proof (fun a => distance_filter_In (get (kw_distances kwargs) [1]) m a Hm) as HD.
    assert (Hne : get (kw_distances kwargs) [1] <> []).
    { intro E. rewrite E in Hm. discriminate. }
    destruct (if m >? 1 then _ else _) as [|a0 l] eqn:El.
    + split; [|reflexivity]. intros _. right. left. exists m. split; [reflexivity|].
      destruct (Z.lt_ge_cases m 1) as [|Hge]; [assumption|]. exfalso.
      apply (proj2 (HD [0; 0; m])).
      exists 0, 0, m. split; [reflexivity|]. split; [cbn; lia|].
      replace (maxAbs [0; 0; m]) with m by (rewrite maxAbs3; lia).
      apply (py_max_spec _ _ Hm).
    + assert (Hm1 : 1 <= m).
      { destruct (proj1 (HD a0) (or_introl eq_refl)) as (x & y & z & -> & Hc & Hd).
        apply (py_max_spec _ _ Hm) in Hd. rewrite maxAbs3 in Hd. cbn in Hc. lia. }
      destruct (broadcast3 size) as [box|].
      * destruct (get (kw_force2D kwargs) false).
        -- destruct (column _).
           ++ split; [discriminate|].
              intros [E | [(m' & [= <-] & Hlt) | [E | [_ E]]]];
                try contradiction; try discriminate; lia.
           ++ split; [|reflexivity]. intros _. right. right. right. auto.
        -- split; [discriminate|].
           intros [E | [(m' & [= <-] & Hlt) | [E | [E _]]]];
             try contradiction; try discriminate; lia.
      * split; [|reflexivity]. intros _. right. right. left. reflexivity.
  - split; [|reflexivity]. intros _. left.
    destruct (get (kw_distances kwargs) [1]); [reflexivity | discriminate].
Qed.

(** X5. On an axis where the box is one voxel thick no returned angle
    moves: a flat ROI gets in-plane angles only, and a single voxel gets
    none. *)
Theorem generateAngles_flat_axis :
  forall (s0 s1 s2 : Z) (kwargs : AngleKwargs) (angles : list (list Z)),
    result (generateAngles [s0; s1; s2] kwargs) = Some angles ->
    (forall (i : nat) (a : list Z),
        (i < 3)%nat -> nth i [s0; s1; s2] 0 = 1 -> In a angles -> nth i a 0 = 0)
    /\ (s0 = 1 -> s1 = 1 -> s2 = 1 -> angles = []).
Proof.
  intros s0 s1 s2 kwargs angles H.
  destruct (generateAngles_characterised _ kwargs angles H) as (box & [= <-] & C).
  split.
  - intros i a Hi Hs Ha. apply C in Ha.
    destruct Ha as ((x & y & z & ->) & _ & _ & (Hx & Hy & Hz) & _).
    destruct i as [|[|[|i]]]; cbn in *; lia.
  - intros -> -> ->. destruct angles as [|a l]; [reflexivity|]. exfalso.
    destruct (proj1 (C a) (or_introl eq_refl))
      as ((x & y & z & ->) & Hc & _ & (Hx & Hy & Hz) & _).
    cbn in Hc. lia.
Qed.

Lemma generateAngles_flat_axis_witness :
  result (generateAngles [1; 5; 5] noAngleKwargs)
  = Some [[0; 0; 1]; [0; 1; -1]; [0; 1; 0]; [0; 1; 1]]
  /\ nth 0 [0; 1; -1] 0 = 0.
Proof.
  split; [reflexivity|].
  apply (proj1 (generateAngles_flat_axis 1 5 5 noAngleKwargs _ eq_refl)
               0%nat [0; 1; -1] ltac:(lia) eq_refl).
  right. left. reflexivity.
Defined.

(** *** [getBinEdges] and [binImage] *)







(** Floor and ceiling against integers. *)
Lemma Qfloor_ge (z : Z) (q : Q) : (inQ z <= q)%Q <-> z <= Qfloor q.
Proof.
  split; intro H.
  - rewrite <- (Qfloor_Z z). now apply Qfloor_resp_le.
  - eapply Qle_trans; [|apply Qfloor_le]. unfold inQ. rewrite <- Zle_Qle. exact H.
Qed.

Lemma Qceiling_le (z : Z) (q : Q) : (q <= inQ z)%Q <-> Qceiling q <= z.
Proof.
  split; intro H.
  - rewrite <- (Qceiling_Z z). now apply Qceiling_resp_le.
  - eapply Qle_trans; [apply Qle_ceiling|]. unfold inQ. rewrite <- Zle_Qle. exact H.
Qed.

Lemma inject_Z_minus (x y : Z) : inject_Z (x - y) = (inject_Z x - inject_Z y)%Q.
Proof.
  unfold Z.sub, Qminus. now rewrite inject_Z_plus, inject_Z_opp.
Qed.

Lemma Qfloor_plus_Z (q : Q) (z : Z) : Qfloor (q + inQ z) = Qfloor q + z.
Proof.
  apply Z.le_antisymm.
  - assert (H : Qfloor (q + inQ z) - z <= Qfloor q); [|lia].
    apply Qfloor_ge. unfold inQ. rewrite inject_Z_minus.
    pose proof (Qfloor_le (q + inject_Z z)). lra.
  - apply Qfloor_ge. unfold inQ. rewrite inject_Z_plus.
    pose proof (Qfloor_le q). lra.
Qed.

Lemma Qceiling_plus_Z (q : Q) (z : Z) : Qceiling (q + inQ z) = Qceiling q + z.
Proof.
  apply Z.le_antisymm.
  - apply Qceiling_le. unfold inQ. rewrite inject_Z_plus.
    pose proof (Qle_ceiling q). lra.
  - assert (H : Qceiling q <= Qceiling (q + inQ z) - z); [|lia].
    apply Qceiling_le. unfold inQ. rewrite inject_Z_minus.
    pose proof (Qle_ceiling (q + inject_Z z)). lra.
Qed.



















Lemma take_None (a : list Q) (coords : list nat) (c : nat) :
  In c coords -> (List.length a <= c)%nat -> take a coords = None.
Proof.
  induction coords as [|c' coords IH]; intros Hin Hc; [destruct Hin|].
  cbn [take]. destruct Hin as [-> | Hin].
  - apply nth_error_None in Hc. now rewrite Hc.
  - rewrite (IH Hin Hc). now destruct (nth_error a c').
Qed.








(** X9. [binImage] raises when a coordinate lies outside the matrix or
    when there are no coordinates at all (the minimum of no values). *)
Theorem binImage_raises :
  forall (binwidth : Q) (parameterMatrix : list Q) (coords : list nat),
    ((exists c, In c coords /\ (List.length parameterMatrix <= c)%nat) ->
     result (binImage binwidth parameterMatrix coords) = None)
    /\ result (binImage binwidth parameterMatrix []) = None.
Proof.
  intros w M coords. split.
  - intros (c & Hc & Hout). unfold binImage. rewrite result_bind.
    now rewrite (take_None M coords c Hc Hout).
  - reflexivity.
Qed.

Lemma binImage_raises_witness :
  result (binImage 25 [54; 100; 166]%Q [0; 3]%nat) = None.
Proof.
  apply (proj1 (binImage_raises 25 [54; 100; 166]%Q [0; 3]%nat)).
  exists 3%nat. split; [cbn; auto | cbn; lia].
Defined.

(** *** More on [resampleImage] *)

Lemma resampleImage_outputs interpolate (imageNode maskNode : Image)
      (resampledPixelSpacing : list Q) (interpolator : InterpolatorArg)
      (label padDistance : Z) (bb : list Z) :
  array_equal (GetSpacing maskNode) resampledPixelSpacing
  && array_equal (GetSpacing imageNode) resampledPixelSpacing = false ->
  result (_checkROI imageNode maskNode label) = Some bb ->
  let g := resamplingGrid maskNode bb resampledPixelSpacing padDistance in
  result (resampleImage interpolate (Some imageNode) (Some maskNode)
                        resampledPixelSpacing interpolator label padDistance)
  = (Some (rif_Execute interpolate
             (gridFilter maskNode g (GetPixelID imageNode) (chosenInterpolator interpolator))
             imageNode),
     Some (rif_Execute interpolate
             (gridFilter maskNode g (GetPixelID maskNode) sitkNearestNeighbor)
             maskNode)).
Proof.
  intros Hfast Hroi g. unfold resampleImage. rewrite Hfast.
  rewrite !result_bind, Hroi, !result_bind.
  destruct interpolator as [i | name]; [|cbn [chosenInterpolator]; destruct (sitk_getattr name)];
    reflexivity.
Qed.

Lemma resampleImage_invalid interpolate (imageNode maskNode : Image)
      (resampledPixelSpacing : list Q) (interpolator : InterpolatorArg)
      (label padDistance : Z) :
  array_equal (GetSpacing maskNode) resampledPixelSpacing
  && array_equal (GetSpacing imageNode) resampledPixelSpacing = false ->
  result (_checkROI imageNode maskNode label) = None ->
  result (resampleImage interpolate (Some imageNode) (Some maskNode)
                        resampledPixelSpacing interpolator label padDistance)
  = (None, None).
Proof.
  intros Hfast Hroi. unfold resampleImage. rewrite Hfast.
  rewrite !result_bind, Hroi. reflexivity.
Qed.

(** X10. Whenever [resampleImage] resamples, the two volumes it returns
    lie on one grid: they have the same size, spacing and origin, and both
    have the direction of the input mask, also when the direction of the
    input image is another one.  The image keeps its pixel type and the
    mask keeps its own. *)
Theorem resampleImage_shared_grid :
  forall interpolate (imageNode maskNode : Image) (resampledPixelSpacing : list Q)
         (interpolator : InterpolatorArg) (label padDistance : Z)
         (resampledImageNode resampledMaskNode : Image),
    array_equal (GetSpacing maskNode) resampledPixelSpacing
    && array_equal (GetSpacing imageNode) resampledPixelSpacing = false ->
    result (resampleImage interpolate (Some imageNode) (Some maskNode)
                          resampledPixelSpacing interpolator label padDistance)
    = (Some resampledImageNode, Some resampledMaskNode) ->
    GetSize resampledImageNode = GetSize resampledMaskNode
    /\ GetSpacing resampledImageNode = GetSpacing resampledMaskNode
    /\ GetOrigin resampledImageNode = GetOrigin resampledMaskNode
    /\ GetDirection resampledImageNode = GetDirection maskNode
    /\ GetDirection resampledMaskNode = GetDirection maskNode
    /\ GetPixelID resampledImageNode = GetPixelID imageNode
    /\ GetPixelID resampledMaskNode = GetPixelID maskNode.
Proof.
  intros interpolate imageNode maskNode rps interpolator label pad ri rm Hfast Hr.
  destruct (result (_checkROI imageNode maskNode label)) as [bb|] eqn:Hroi.
  - rewrite (resampleImage_outputs interpolate imageNode maskNode rps interpolator
               label pad bb Hfast Hroi) in Hr.
    injection Hr as <- <-. repeat split; reflexivity.
  - rewrite (resampleImage_invalid interpolate imageNode maskNode rps interpolator
               label pad Hfast Hroi) in Hr. discriminate Hr.
Qed.

Lemma scenario_not_fast :
  array_equal (GetSpacing maskBox) [2; 2; 2]%Q
  && array_equal (GetSpacing image10) [2; 2; 2]%Q = false.
Proof. reflexivity. Qed.

Lemma resampleImage_shared_grid_witness :
  exists resampledImageNode resampledMaskNode,
    result (resampleImage nearest_kernel (Some image10) (Some maskBox) [2; 2; 2]%Q
                          (ByValue sitkLinear) 1 0)
    = (Some resampledImageNode, Some resampledMaskNode)
    /\ GetSize resampledImageNode = GetSize resampledMaskNode
    /\ GetOrigin resampledImageNode = GetOrigin resampledMaskNode.
Proof.
  destruct (result (resampleImage nearest_kernel (Some image10) (Some maskBox) [2; 2; 2]%Q
                                  (ByValue sitkLinear) 1 0)) as [[ri|] [rm|]] eqn:E;
    try (vm_compute in E; discriminate E).
  exists ri, rm. split; [reflexivity|].
  destruct (resampleImage_shared_grid nearest_kernel image10 maskBox [2; 2; 2]%Q
              (ByValue sitkLinear) 1 0 ri rm scenario_not_fast E) as (H1 & _ & H3 & _).
  split; assumption.
Defined.

(** X11. An interpolator name that SimpleITK does not know never makes
    [resampleImage] fail: the result is the one obtained with sitkBSpline,
    and when the volumes are resampled the fallback is logged as a
    warning. *)
Theorem resampleImage_unknown_interpolator :
  forall interpolate (imageNode maskNode : option Image) (resampledPixelSpacing : list Q)
         (name : string) (label padDistance : Z),
    sitk_getattr name = None ->
    result (resampleImage interpolate imageNode maskNode resampledPixelSpacing
                          (ByName name) label padDistance)
    = result (resampleImage interpolate imageNode maskNode resampledPixelSpacing
                            (ByValue sitkBSpline) label padDistance)
    /\ (logged DEBUG "Resampling image"
               (resampleImage interpolate imageNode maskNode resampledPixelSpacing
                              (ByName name) label padDistance) = true ->
        logged WARNING Msg.notRecognized
               (resampleImage interpolate imageNode maskNode resampledPixelSpacing
                              (ByName name) label padDistance) = true).
Proof.
  intros interpolate imageNode maskNode rps name label pad Hname.
  destruct imageNode as [imageNode|]; [|split; [reflexivity | intro H; discriminate H]].
  destruct maskNode as [maskNode|]; [|split; [reflexivity | intro H; discriminate H]].
  unfold resampleImage.
  destruct (array_equal (GetSpacing maskNode) rps && array_equal (GetSpacing imageNode) rps).
  - split; [reflexivity | intro H; discriminate H].
  - rewrite Hname.
    destruct (_checkROI_cases imageNode maskNode label) as [E | [E | E]]; rewrite E.
    + split; [reflexivity | intro H; discriminate H].
    + split; [reflexivity | intro H; discriminate H].
    + split; [reflexivity | intros _; reflexivity].
Qed.

Lemma resampleImage_unknown_interpolator_witness :
  result (resampleImage nearest_kernel (Some image10) (Some maskBox) [2; 2; 2]%Q
                        (ByName "bspline") 1 0)
  = result (resampleImage nearest_kernel (Some image10) (Some maskBox) [2; 2; 2]%Q
                          (ByValue sitkBSpline) 1 0).
Proof.
  exact (proj1 (resampleImage_unknown_interpolator nearest_kernel (Some image10)
                  (Some maskBox) [2; 2; 2]%Q "bspline" 1 0 eq_refl)).
Defined.

(** X12. The mask that [resampleImage] returns does not depend on the
    interpolator chosen for the image nor on the interpolation kernels:
    it is always resampled with nearest neighbour, and each of its voxels
    is a voxel value of the input mask or the background 0. *)
Theorem resampleImage_mask_nearest :
  forall interpolate interpolate' (imageNode maskNode : Image)
         (resampledPixelSpacing : list Q) (interpolator interpolator' : InterpolatorArg)
         (label padDistance : Z) (resampledMaskNode : Image),
    array_equal (GetSpacing maskNode) resampledPixelSpacing
    && array_equal (GetSpacing imageNode) resampledPixelSpacing = false ->
    snd (result (resampleImage interpolate (Some imageNode) (Some maskNode)
                               resampledPixelSpacing interpolator label padDistance))
    = Some resampledMaskNode ->
    snd (result (resampleImage interpolate' (Some imageNode) (Some maskNode)
                               resampledPixelSpacing interpolator' label padDistance))
    = Some resampledMaskNode
    /\ Forall (fun v => In v (GetPixels maskNode) \/ v = 0) (GetPixels resampledMaskNode).
Proof.
  intros interpolate interpolate' imageNode maskNode rps interpolator interpolator'
         label pad rm Hfast Hr.
  destruct (result (_checkROI imageNode maskNode label)) as [bb|] eqn:Hroi.
  - rewrite (resampleImage_outputs interpolate imageNode maskNode rps interpolator
               label pad bb Hfast Hroi) in Hr.
    rewrite (resampleImage_outputs interpolate' imageNode maskNode rps interpolator'
               label pad bb Hfast Hroi).
    cbn [snd] in *. injection Hr as <-. split.
    + reflexivity.
    + now apply rif_Execute_nearest_copies.
  - rewrite (resampleImage_invalid interpolate imageNode maskNode rps interpolator
               label pad Hfast Hroi) in Hr. discriminate Hr.
Qed.

Lemma resampleImage_mask_nearest_witness :
  snd (result (resampleImage nearest_kernel (Some image10) (Some maskBox) [2; 2; 2]%Q
                             (ByValue sitkLinear) 1 0))
  = snd (result (resampleImage nearest_kernel (Some image10) (Some maskBox) [2; 2; 2]%Q
                               (ByValue sitkBSpline) 1 0)).
Proof.
  destruct (snd (result (resampleImage nearest_kernel (Some image10) (Some maskBox)
                                       [2; 2; 2]%Q (ByValue sitkBSpline) 1 0)))
    as [rm|] eqn:E; [|vm_compute in E; discriminate E].
  exact (proj1 (resampleImage_mask_nearest nearest_kernel nearest_kernel image10 maskBox
                  [2; 2; 2]%Q (ByValue sitkBSpline) (ByValue sitkLinear) 1 0 rm
                  scenario_not_fast E)).
Defined.

(** X13. [resampleImage] returns (None, None) exactly when an input is
    missing, or when the spacings differ from the requested one and
    [_checkROI] rejects the ROI; in every other case both elements of the
    pair are volumes. *)
Theorem resampleImage_none_iff :
  forall interpolate (imageNode maskNode : option Image) (resampledPixelSpacing : list Q)
         (interpolator : InterpolatorArg) (label padDistance : Z),
    let r := result (resampleImage interpolate imageNode maskNode resampledPixelSpacing
                                   interpolator label padDistance) in
    (r = (None, None) <->
     imageNode = None \/ maskNode = None
     \/ exists im mk, imageNode = Some im /\ maskNode = Some mk
                      /\ array_equal (GetSpacing mk) resampledPixelSpacing
                         && array_equal (GetSpacing im) resampledPixelSpacing = false
                      /\ result (_checkROI im mk label) = None)
    /\ (r <> (None, None) -> fst r <> None /\ snd r <> None).
Proof.
  intros interpolate imageNode maskNode rps interpolator label pad r. subst r.
  destruct imageNode as [im|].
  2:{ split; [split; [auto | reflexivity] | intro H; exfalso; apply H; reflexivity]. }
  destruct maskNode as [mk|].
  2:{ split; [split; [auto | reflexivity] | intro H; exfalso; apply H; reflexivity]. }
  destruct (array_equal (GetSpacing mk) rps && array_equal (GetSpacing im) rps) eqn:Hfast.
  - assert (E : result (resampleImage interpolate (Some im) (Some mk) rps interpolator label pad)
                = (Some im, Some mk)).
    { unfold resampleImage. rewrite Hfast. reflexivity. }
    rewrite E. split; [split|].
    + intro H; discriminate H.
    + intros [H | [H | (im' & mk' & [= <-] & [= <-] & H & _)]]; try discriminate H.
      congruence.
    + intros _. split; intro H; discriminate H.
  - destruct (result (_checkROI im mk label)) as [bb|] eqn:Hroi.
    + rewrite (resampleImage_outputs interpolate im mk rps interpolator label pad bb Hfast Hroi).
      split; [split|].
      * intro H; discriminate H.
      * intros [H | [H | (im' & mk' & [= <-] & [= <-] & _ & H)]]; try discriminate H.
        congruence.
      * intros _. split; intro H; discriminate H.
    + rewrite (resampleImage_invalid interpolate im mk rps interpolator label pad Hfast Hroi).
      split; [split|].
      * intros _. right. right. exists im, mk. auto.
      * reflexivity.
      * intro H. exfalso. apply H. reflexivity.
Qed.

(** *** More on [checkMask] *)

(** X14. When the label statistics raise and [correctMask] is disabled,
    the handler of [checkMask] looks up [e.message] before anything else.
    On Python 3, where an exception has no such attribute, [checkMask]
    lets the AttributeError of that lookup through to its caller,
    whatever the error of the statistics was, after its two opening debug
    records.  On Python 2, for an error whose text is neither of the two
    that [checkMask] recognises, it returns (None, None) without logging
    any error. *)
Theorem checkMask_unrecognised_error :
  forall lsif_verify interpolate python (imageNode maskNode : Image) (kwargs : Kwargs)
         (e : RuntimeError),
    lsif_verify imageNode maskNode = Some e ->
    get (kw_correctMask kwargs) false = false ->
    let run := checkMask lsif_verify interpolate python imageNode maskNode kwargs in
    let opening := [(DEBUG, "Checking mask with label %d"%string);
                    (DEBUG, "Calculating bounding box"%string)] in
    (python = Python3 -> run = (Raises {| attribute := "message" |}, opening))
    /\ (python = Python2 ->
        contains Msg.typeMismatch (message e) = false ->
        contains Msg.spaceMismatch (message e) = false ->
        run = (Returns (None, None), opening)).
Proof.
  intros lsif_verify interpolate python imageNode maskNode kwargs e Hv Hc run opening.
  subst run opening. unfold checkMask, lsif_Execute, e_message. rewrite Hv, Hc.
  split.
  - intros ->. reflexivity.
  - intros -> Ht Hs. rewrite Ht, Hs. reflexivity.
Qed.

Lemma checkMask_unrecognised_error_witness :
  checkMask sitk_verify nearest_kernel Python3 image10 maskSmall noKwargs
  = (Raises {| attribute := "message" |},
     [(DEBUG, "Checking mask with label %d"%string);
      (DEBUG, "Calculating bounding box"%string)]).
Proof.
  refine (proj1 (checkMask_unrecognised_error sitk_verify nearest_kernel Python3
                   image10 maskSmall noKwargs
                   {| message := "Exception thrown in SimpleITK LabelStatisticsImageFilter_Execute: "
                                 ++ Msg.typeMismatch |} _ _) _).
  - reflexivity.
  - reflexivity.
  - reflexivity.
Defined.

(** X15. The second element of the pair that [checkMask] returns is a
    mask only when the first computation of the label statistics raised
    and [correctMask] is enabled; it is then the input mask resampled with
    nearest neighbour onto the grid of the image: it has the size,
    spacing, origin and direction of the image, the pixel type of the
    input mask, and no voxel value that is not in the input mask or 0. *)
Theorem checkMask_corrected_mask :
  forall lsif_verify interpolate python (imageNode maskNode : Image) (kwargs : Kwargs)
         (boundingBox : option (list Z)) (correctedMask : Image),
    result (checkMask lsif_verify interpolate python imageNode maskNode kwargs)
    = Returns (boundingBox, Some correctedMask) ->
    lsif_verify imageNode maskNode <> None
    /\ get (kw_correctMask kwargs) false = true
    /\ correctedMask = rif_Execute interpolate (correctingFilter imageNode) maskNode
    /\ GetSize correctedMask = GetSize imageNode
    /\ GetSpacing correctedMask = GetSpacing imageNode
    /\ GetOrigin correctedMask = GetOrigin imageNode
    /\ GetDirection correctedMask = GetDirection imageNode
    /\ GetPixelID correctedMask = GetPixelID maskNode
    /\ Forall (fun v => In v (GetPixels maskNode) \/ v = 0) (GetPixels correctedMask).
Proof.
  intros lsif_verify interpolate python imageNode maskNode kwargs bb cm.
  assert (K : forall (lsif : LabelStatisticsImageFilter) (c : option Image),
             exists box,
             result
               (logger_debug "Checking minimum number of dimensions requirements (%d)" ;;
                (if ndims_of (lsif_GetBoundingBox lsif (get (kw_label kwargs) 1))
                    <=? get (kw_minimumROIDimensions kwargs) 1
                 then
                   logger_error Msg.tooFewDims ;;
                   ret (Returns (Some (lsif_GetBoundingBox lsif (get (kw_label kwargs) 1)), c))
                 else
                   match kw_minimumROISize kwargs with
                   | Some minSize =>
                       logger_debug "Checking minimum size requirements (minimum size: %d)" ;;
                       (if lsif_GetCount lsif (get (kw_label kwargs) 1) <=? minSize
                        then
                          logger_error Msg.tooSmall ;;
                          ret (Returns
                                 (Some (lsif_GetBoundingBox lsif (get (kw_label kwargs) 1)), c))
                        else
                          ret (Returns
                                 (Some (lsif_GetBoundingBox lsif (get (kw_label kwargs) 1)), c)))
                   | None =>
                       ret (Returns (Some (lsif_GetBoundingBox lsif (get (kw_label kwargs) 1)), c))
                   end)) = Returns (box, c)).
  { intros lsif c. eexists. rewrite result_bind.
    destruct (ndims_of _ <=? _); [reflexivity|].
    destruct (kw_minimumROISize kwargs) as [ms|]; [|reflexivity].
    rewrite result_bind. destruct (lsif_GetCount _ _ <=? ms); reflexivity. }
  unfold checkMask, lsif_Execute, e_message. cbv zeta. rewrite !result_bind.
  destruct (lsif_verify imageNode maskNode) as [e|] eqn:Hv.
  - destruct (get (kw_correctMask kwargs) false) eqn:Hc; cbn [negb].
    + rewrite !result_bind.
      destruct (_correctMask_cases interpolate imageNode maskNode (get (kw_label kwargs) 1))
        as [[E _] | [E _]]; rewrite E.
      * cbn. intro H; discriminate H.
      * destruct (lsif_verify imageNode
                    (rif_Execute interpolate (correctingFilter imageNode) maskNode)) eqn:Hv2.
        -- cbn [result ret fst snd bind logger_error logger_debug logger_log].
           intros [= <- <-]. split; [discriminate|]. split; [reflexivity|].
           split; [reflexivity|]. repeat (split; [reflexivity|]).
           apply rif_Execute_nearest_copies; reflexivity.
        -- cbn [result ret fst].
           destruct (K {| lsif_mask := rif_Execute interpolate (correctingFilter imageNode)
                                                   maskNode |}
                       (Some (rif_Execute interpolate (correctingFilter imageNode) maskNode)))
             as [box ->].
           intros [= <- <-]. split; [discriminate|]. split; [reflexivity|].
           split; [reflexivity|]. repeat (split; [reflexivity|]).
           apply rif_Execute_nearest_copies; reflexivity.
    + rewrite !result_bind.
      destruct python;
        [destruct (contains Msg.typeMismatch (message e));
           [|destruct (contains Msg.spaceMismatch (message e))]|];
        cbn; intro H; discriminate H.
  - destruct (Zin _ _); cbn [negb].
    + cbn [result ret fst].
      destruct (K {| lsif_mask := maskNode |} None) as [box ->].
      intro H; discriminate H.
    + cbn. intro H; discriminate H.
Qed.

Lemma checkMask_corrected_mask_witness :
  result (checkMask sitk_verify nearest_kernel Python3 image10 maskSmall kwargsCorrect)
  = Returns (Some [2; 5; 2; 5; 2; 5],
             Some (rif_Execute nearest_kernel (correctingFilter image10) maskSmall))
  /\ GetSize (rif_Execute nearest_kernel (correctingFilter image10) maskSmall)
     = GetSize image10.
Proof.
  assert (E : result (checkMask sitk_verify nearest_kernel Python3 image10 maskSmall
                                kwargsCorrect)
              = Returns (Some [2; 5; 2; 5; 2; 5],
                         Some (rif_Execute nearest_kernel (correctingFilter image10)
                                           maskSmall)))
    by (vm_compute; reflexivity).
  split; [exact E|].
  exact (proj1 (proj2 (proj2 (proj2
           (checkMask_corrected_mask sitk_verify nearest_kernel Python3 image10 maskSmall
              kwargsCorrect _ _ E))))).
Defined.

(** *** Voxel addressing *)

Lemma unravel_bounds (sx sy sz k : Z) :
  0 < sx -> 0 < sy -> 0 < sz -> 0 <= k < sx * sy * sz ->
  exists x y z, unravel [sx; sy; sz] k = [x; y; z]
                /\ 0 <= x < sx /\ 0 <= y < sy /\ 0 <= z < sz.
Proof.
  intros Hx Hy Hz Hk. unfold unravel. do 3 eexists. split; [reflexivity|].
  split; [apply Z.mod_pos_bound; lia|]. split; [apply Z.mod_pos_bound; lia|].
  split.
  - apply Z.div_pos; nia.
  - apply Z.div_lt_upper_bound; nia.
Qed.

Lemma ravel_unravel (sx sy sz k : Z) :
  0 < sx -> 0 < sy ->
  ravel [sx; sy; sz] (unravel [sx; sy; sz] k) = k.
Proof.
  intros Hx Hy. unfold ravel, unravel.
  rewrite <- Z.div_div by lia.
  pose proof (Z_div_mod_eq_full k sx).
  pose proof (Z_div_mod_eq_full (k / sx) sy). nia.
Qed.

Lemma unravel_ravel (sx sy sz x y z : Z) :
  0 <= x < sx -> 0 <= y < sy ->
  unravel [sx; sy; sz] (ravel [sx; sy; sz] [x; y; z]) = [x; y; z].
Proof.
  intros Hx Hy. unfold ravel, unravel.
  assert (E1 : (x + sx * (y + sy * z)) mod sx = x).
  { replace (x + sx * (y + sy * z)) with (x + (y + sy * z) * sx) by lia.
    rewrite Z.mod_add by lia. apply Z.mod_small; lia. }
  assert (E2 : (x + sx * (y + sy * z)) / sx = y + sy * z).
  { replace (x + sx * (y + sy * z)) with (x + (y + sy * z) * sx) by lia.
    rewrite Z.div_add by lia. rewrite (Z.div_small x sx) by lia. lia. }
  assert (E3 : (y + sy * z) mod sy = y).
  { replace (y + sy * z) with (y + z * sy) by lia.
    rewrite Z.mod_add by lia. apply Z.mod_small; lia. }
  assert (E4 : (x + sx * (y + sy * z)) / (sx * sy) = z).
  { rewrite <- Z.div_div by lia. rewrite E2.
    replace (y + sy * z) with (y + z * sy) by lia.
    rewrite Z.div_add by lia. rewrite (Z.div_small y sy) by lia. lia. }
  now rewrite E1, E2, E3, E4.
Qed.

Lemma ravel_bounds (sx sy sz x y z : Z) :
  0 <= x < sx -> 0 <= y < sy -> 0 <= z < sz ->
  0 <= ravel [sx; sy; sz] [x; y; z] < sx * sy * sz.
Proof.
  intros Hx Hy Hz. unfold ravel.
  assert (H1 : 0 <= sy * z) by nia.
  assert (H2 : sy * z <= sy * (sz - 1)) by nia.
  assert (H3 : 0 <= sx * (y + sy * z)) by nia.
  assert (H4 : sx * (y + sy * z) <= sx * (sy * sz - 1)) by nia.
  nia.
Qed.

Lemma map_nth_seq {A} (l : list A) (d : A) :
  map (fun k => nth k l d) (seq 0 (List.length l)) = l.
Proof.
  induction l as [|x l IH]; [reflexivity|].
  cbn [List.length seq map nth]. f_equal.
  rewrite <- seq_shift, map_map. exact IH.
Qed.

Lemma numberOfPixels3 (sx sy sz : Z) : numberOfPixels [sx; sy; sz] = sx * sy * sz.
Proof. unfold numberOfPixels. cbn. lia. Qed.

Lemma wellFormed_size (im : Image) :
  wellFormed im ->
  exists sx sy sz, GetSize im = [sx; sy; sz] /\ 0 < sx /\ 0 < sy /\ 0 < sz
                   /\ Z.of_nat (List.length (GetPixels im)) = sx * sy * sz.
Proof.
  intros ((Hs & _) & Hpos & Hlen).
  destruct (GetSize im) as [|sx [|sy [|sz [|? ?]]]]; try discriminate.
  inversion Hpos as [|? ? Hx Hpos']; subst.
  inversion Hpos' as [|? ? Hy Hpos'']; subst.
  inversion Hpos'' as [|? ? Hz _]; subst.
  rewrite numberOfPixels3 in Hlen. exists sx, sy, sz. auto.
Qed.

(** Reading all voxels of a well-formed volume in storage order gives its
    voxel list. *)
Lemma pixels_by_index (im : Image) :
  wellFormed im ->
  map (GetPixel im) (gridIndices (GetSize im)) = GetPixels im.
Proof.
  intro Hwf. destruct (wellFormed_size im Hwf) as (sx & sy & sz & Hs & Hx & Hy & Hz & Hlen).
  unfold gridIndices. rewrite map_map. rewrite Hs, numberOfPixels3, <- Hlen, Nat2Z.id.
  rewrite <- (map_nth_seq (GetPixels im) 0) at 2.
  apply map_ext. intro k. unfold GetPixel. rewrite Hs, ravel_unravel by lia.
  now rewrite Nat2Z.id.
Qed.

Lemma gridIndices_In (sx sy sz : Z) (idx : list Z) :
  0 < sx -> 0 < sy -> 0 < sz ->
  In idx (gridIndices [sx; sy; sz]) ->
  exists x y z, idx = [x; y; z] /\ 0 <= x < sx /\ 0 <= y < sy /\ 0 <= z < sz.
Proof.
  intros Hx Hy Hz Hin. unfold gridIndices in Hin. apply in_map_iff in Hin.
  destruct Hin as [k [<- Hk]]. apply in_seq in Hk. rewrite numberOfPixels3 in Hk.
  apply unravel_bounds; lia.
Qed.

(** *** Volumes on one grid *)

(** Mapping a continuous index to its physical point on a grid and back to
    a continuous index of a volume on the same grid returns the index. *)
Lemma transform_roundtrip (a b : Image) (c : list Q) :
  is3D a -> invertibleGrid a ->
  GetSpacing b = GetSpacing a -> GetOrigin b = GetOrigin a ->
  GetDirection b = GetDirection a ->
  List.length c = 3%nat ->
  Forall2 Qeq
    (TransformPhysicalPointToContinuousIndex b
       (TransformContinuousIndexToPhysicalPoint a c)) c.
Proof.
  intros (_ & Hs & Ho & Hd) [Hdet Hsp] Es Eo Ed Hc.
  unfold TransformPhysicalPointToContinuousIndex, TransformContinuousIndexToPhysicalPoint.
  rewrite Es, Eo, Ed.
  destruct (GetSpacing a) as [|s0 [|s1 [|s2 [|? ?]]]]; try discriminate.
  destruct (GetOrigin a) as [|o0 [|o1 [|o2 [|? ?]]]]; try discriminate.
  destruct (GetDirection a) as [|d0 [|d1 [|d2 [|d3 [|d4 [|d5 [|d6 [|d7 [|d8 [|? ?]]]]]]]]]];
    try discriminate.
  destruct c as [|c0 [|c1 [|c2 [|? ?]]]]; try discriminate.
  inversion Hsp as [|? ? H0 Hsp']; subst.
  inversion Hsp' as [|? ? H1 Hsp'']; subst.
  inversion Hsp'' as [|? ? H2 _]; subst.
  cbn [zipWith matvec inverse3]. unfold det3 in *.
  repeat constructor; field; auto.
Qed.

Lemma fold_min_In (l : list Z) (a : Z) : In (fold_left Z.min l a) (a :: l).
Proof.
  revert a. induction l as [|y l IH]; intro a; simpl; [auto|].
  destruct (IH (Z.min a y)) as [H | H].
  - destruct (Z.min_spec a y) as [[_ E] | [_ E]]; rewrite E in *; simpl; auto.
  - simpl. auto.
Qed.

Lemma minimum_In (l : list Z) : l <> [] -> In (minimum l) l.
Proof.
  destruct l as [|a l]; [congruence|]. intros _. apply fold_min_In.
Qed.

Lemma maximum_In (l : list Z) : l <> [] -> In (maximum l) l.
Proof.
  destruct l as [|a l]; [congruence|]. intros _. apply fold_max_In.
Qed.

Lemma combine_seq_In {A} (l : list A) (v : A) (s : nat) :
  In v l -> exists k, In (k, v) (combine (seq s (List.length l)) l).
Proof.
  revert s. induction l as [|x l IH]; intros s Hin; [destruct Hin|].
  cbn [List.length seq combine]. destruct Hin as [-> | Hin].
  - exists s. now left.
  - destruct (IH (S s) Hin) as [k Hk]. exists k. now right.
Qed.

Lemma labelIndices_nonempty (mask : Image) (label : Z) :
  In label (GetPixels mask) -> labelIndices mask label <> [].
Proof.
  intros Hin E. destruct (combine_seq_In (GetPixels mask) label 0 Hin) as [k Hk].
  unfold labelIndices in E. apply map_eq_nil in E.
  assert (H : In (k, label)
                 (filter (fun kv : nat * Z => snd kv =? label)
                         (combine (seq 0 (List.length (GetPixels mask))) (GetPixels mask)))).
  { apply filter_In. split; [exact Hk | apply Z.eqb_refl]. }
  rewrite E in H. destruct H.
Qed.

Lemma labelIndices_bounds (mask : Image) (label : Z) (sx sy sz : Z) (idx : list Z) :
  GetSize mask = [sx; sy; sz] -> 0 < sx -> 0 < sy -> 0 < sz ->
  Z.of_nat (List.length (GetPixels mask)) = sx * sy * sz ->
  In idx (labelIndices mask label) ->
  exists x y z, idx = [x; y; z] /\ 0 <= x < sx /\ 0 <= y < sy /\ 0 <= z < sz.
Proof.
  intros Hs Hx Hy Hz Hlen Hin. unfold labelIndices in Hin.
  apply in_map_iff in Hin. destruct Hin as [[k v] [<- Hkv]].
  apply filter_In in Hkv. destruct Hkv as [Hkv _].
  apply in_combine_l in Hkv. apply in_seq in Hkv. cbn [fst]. rewrite Hs.
  apply unravel_bounds; lia.
Qed.

Lemma axis_bounds (idxs : list (list Z)) (i : nat) (s : list Z) (v : Z) :
  (forall idx, In idx idxs ->
               exists x y z, idx = [x; y; z]
                             /\ 0 <= x < nth 0 s 0 /\ 0 <= y < nth 1 s 0 /\ 0 <= z < nth 2 s 0) ->
  (i < 3)%nat -> In v (axis i idxs) -> 0 <= v < nth i s 0.
Proof.
  intros H Hi Hv. unfold axis in Hv. apply in_map_iff in Hv.
  destruct Hv as [idx [<- Hidx]].
  destruct (H idx Hidx) as (x & y & z & -> & Hx & Hy & Hz).
  destruct i as [|[|[|i]]]; cbn [nth]; try assumption. lia.
Qed.

(** The bounding box of a label that a well-formed mask carries lies
    inside the grid of the mask and is at least one voxel thick. *)
Lemma boundingBoxLS_inside (mask : Image) (label : Z) :
  wellFormed mask -> In label (GetPixels mask) ->
  exists lx ly lz ex ey ez sx sy sz,
    boundingBoxLS mask label = [lx; ly; lz; ex; ey; ez]
    /\ boundingBoxLU mask label = [lx; lx + ex - 1; ly; ly + ey - 1; lz; lz + ez - 1]
    /\ GetSize mask = [sx; sy; sz]
    /\ 0 <= lx /\ 1 <= ex /\ lx + ex <= sx
    /\ 0 <= ly /\ 1 <= ey /\ ly + ey <= sy
    /\ 0 <= lz /\ 1 <= ez /\ lz + ez <= sz.
Proof.
  intros Hwf Hin.
  destruct (wellFormed_size mask Hwf) as (sx & sy & sz & Hs & Hx & Hy & Hz & Hlen).
  pose proof (labelIndices_nonempty mask label Hin) as Hne.
  assert (B : forall idx, In idx (labelIndices mask label) ->
               exists x y z, idx = [x; y; z]
                 /\ 0 <= x < nth 0 [sx; sy; sz] 0 /\ 0 <= y < nth 1 [sx; sy; sz] 0
                 /\ 0 <= z < nth 2 [sx; sy; sz] 0).
  { intros idx Hidx. apply (labelIndices_bounds mask label sx sy sz idx); assumption. }
  assert (A : forall i, axis i (labelIndices mask label) <> []).
  { intros i E. unfold axis in E. apply map_eq_nil in E. contradiction. }
  assert (M : forall i, (i < 3)%nat ->
               0 <= minimum (axis i (labelIndices mask label))
               /\ minimum (axis i (labelIndices mask label))
                  <= maximum (axis i (labelIndices mask label))
               /\ maximum (axis i (labelIndices mask label)) < nth i [sx; sy; sz] 0).
  { intros i Hi.
    pose proof (axis_bounds _ i [sx; sy; sz] _ B Hi (minimum_In _ (A i))) as H1.
    pose proof (axis_bounds _ i [sx; sy; sz] _ B Hi (maximum_In _ (A i))) as H2.
    pose proof (minimum_le _ _ (maximum_In _ (A i))) as H3. lia. }
  destruct (M 0%nat ltac:(lia)) as (X1 & X2 & X3).
  destruct (M 1%nat ltac:(lia)) as (Y1 & Y2 & Y3).
  destruct (M 2%nat ltac:(lia)) as (Z1 & Z2 & Z3).
  cbn [nth] in *.
  unfold boundingBoxLS, boundingBoxLU. cbn [map app zipWith flat_map].
  do 9 eexists. split; [reflexivity|]. split.
  - repeat (f_equal; try lia).
  - split; [exact Hs|]. repeat split; lia.
Qed.

Lemma withinImage_Qeq (size : list Z) (c c' : list Q) :
  Forall2 Qeq c c' -> withinImage size c' -> withinImage size c.
Proof.
  unfold withinImage. intro E. revert size.
  induction E as [|x x' c c' Hx _ IH]; intros size H; inversion H; subst; constructor.
  - rewrite Hx. assumption.
  - now apply IH.
Qed.

(** X16. When the mask lies on the grid of the image (same size, spacing,
    origin and direction, the grid being invertible), [_checkROI] accepts
    every label that the mask carries and returns its bounding box: an ROI
    is never rejected for geometry when the grids agree. *)
Theorem _checkROI_same_grid :
  forall (imageNode maskNode : Image) (label : Z),
    wellFormed maskNode -> invertibleGrid maskNode -> sameGrid imageNode maskNode ->
    In label (GetPixels maskNode) -> label <> 0 ->
    result (_checkROI imageNode maskNode label) = Some (boundingBoxLS maskNode label).
Proof.
  intros imageNode maskNode label Hwf Hinv (Esz & Esp & Eor & Edir) Hin H0.
  pose proof (lssif_label_present maskNode label Hin H0) as Hp.
  rewrite (_checkROI_present imageNode maskNode label Hp). cbv zeta.
  destruct (boundingBoxLS_inside maskNode label Hwf Hin)
    as (lx & ly & lz & ex & ey & ez & sx & sy & sz & Ebb & _ & Hs &
        X1 & X2 & X3 & Y1 & Y2 & Y3 & Z1 & Z2 & Z3).
  rewrite Ebb.
  assert (W : withinImage (GetSize imageNode) (fst (roiCorners imageNode maskNode
                                                      [lx; ly; lz; ex; ey; ez]))
              /\ withinImage (GetSize imageNode) (snd (roiCorners imageNode maskNode
                                                         [lx; ly; lz; ex; ey; ez]))).
  { unfold roiCorners. cbn [fst snd firstn skipn map zipWith]. rewrite Esz, Hs.
    destruct Hwf as (H3D & _).
    split.
    - eapply withinImage_Qeq;
        [apply (transform_roundtrip maskNode imageNode); auto|].
      unfold withinImage, inQ. repeat constructor;
        rewrite ?Zle_Qle, ?Zlt_Qlt, ?inject_Z_plus in *;
        change (inject_Z 0) with 0%Q in *; change (inject_Z 1) with 1%Q in *; lra.
    - eapply withinImage_Qeq;
        [apply (transform_roundtrip maskNode imageNode); auto|].
      unfold withinImage, inQ. repeat constructor;
        rewrite ?Zle_Qle, ?Zlt_Qlt, ?inject_Z_plus in *;
        change (inject_Z 0) with 0%Q in *; change (inject_Z 1) with 1%Q in *; lra. }
  assert (O : outOfRange (GetSize imageNode)
                (fst (roiCorners imageNode maskNode [lx; ly; lz; ex; ey; ez]))
                (snd (roiCorners imageNode maskNode [lx; ly; lz; ex; ey; ez])) = false).
  { apply outOfRange_spec; [| |exact W].
    - destruct W as [W _]. apply Forall2_length in W. exact W.
    - destruct W as [_ W]. apply Forall2_length in W. exact W. }
  rewrite O. reflexivity.
Qed.

Lemma maskBox_wellFormed : wellFormed maskBox.
Proof.
  split; [exact maskBox_is3D|]. split; [repeat constructor | vm_compute; reflexivity].
Qed.

Lemma maskBox_invertible : invertibleGrid maskBox.
Proof.
  split; [intro H; vm_compute in H; discriminate H|].
  repeat constructor; intro H; vm_compute in H; discriminate H.
Qed.

Lemma _checkROI_same_grid_witness :
  result (_checkROI image10 maskBox 1) = Some (boundingBoxLS maskBox 1).
Proof.
  apply (_checkROI_same_grid image10 maskBox 1 maskBox_wellFormed maskBox_invertible).
  - repeat split.
  - exact maskBox_has_label.
  - discriminate.
Defined.

Lemma Qfloor_half (x : Z) (c : Q) : (c == inQ x)%Q -> Qfloor (c + (1 # 2)) = x.
Proof.
  intro E. assert (E' : (c + (1 # 2) == (1 # 2) + inQ x)%Q) by (rewrite E; ring).
  rewrite (Qfloor_comp _ _ E'), Qfloor_plus_Z. reflexivity.
Qed.

(** At the continuous index of a voxel inside the grid, nearest-neighbour
    interpolation reads that voxel. *)
Lemma nearest_at_voxel (im : Image) (sx sy sz x y z : Z) (c : list Q) :
  GetSize im = [sx; sy; sz] ->
  0 <= x < sx -> 0 <= y < sy -> 0 <= z < sz ->
  Forall2 Qeq c (map inQ [x; y; z]) ->
  insideBuffer im c = true /\ nearestNeighbor im c = GetPixel im [x; y; z].
Proof.
  intros Hs Hx Hy Hz E.
  inversion E as [|c0 ? t0 ? E0 T0]; subst.
  inversion T0 as [|c1 ? t1 ? E1 T1]; subst.
  inversion T1 as [|c2 ? t2 ? E2 T2]; subst.
  inversion T2; subst. split.
  - unfold insideBuffer. rewrite Hs. cbn [List.length Nat.eqb zipWith forallb andb].
    assert (B : forall (v s : Z) (q : Q), 0 <= v < s -> (q == inQ v)%Q ->
                 Qle_bool (- (1 # 2)) q && Qlt_bool q (inQ s - (1 # 2)) = true).
    { intros v s q Hv Eq. apply andb_true_intro. split.
      - apply Qle_bool_iff. rewrite Eq. unfold inQ.
        assert (H : (inject_Z 0 <= inject_Z v)%Q) by (rewrite <- Zle_Qle; lia).
        change (inject_Z 0) with 0%Q in H. lra.
      - unfold Qlt_bool. apply negb_true_iff.
        destruct (Qle_bool (inQ s - (1 # 2)) q) eqn:El; [|reflexivity].
        apply Qle_bool_iff in El. rewrite Eq in El. unfold inQ in El.
        assert (H : (inject_Z (v + 1) <= inject_Z s)%Q) by (rewrite <- Zle_Qle; lia).
        rewrite inject_Z_plus in H. change (inject_Z 1) with 1%Q in H. lra. }
    rewrite (B x sx c0 Hx E0), (B y sy c1 Hy E1), (B z sz c2 Hz E2). reflexivity.
  - unfold nearestNeighbor. cbn [map].
    now rewrite (Qfloor_half x c0 E0), (Qfloor_half y c1 E1), (Qfloor_half z c2 E2).
Qed.

(** Nearest-neighbour resampling of a volume onto its own grid returns its
    voxels. *)
Lemma rif_Execute_own_grid interpolate (f : ResampleImageFilter) (input : Image) :
  wellFormed input -> invertibleGrid input ->
  rif_Size f = GetSize input -> rif_OutputSpacing f = GetSpacing input ->
  rif_OutputOrigin f = GetOrigin input -> rif_OutputDirection f = GetDirection input ->
  rif_Interpolator f = sitkNearestNeighbor ->
  GetPixels (rif_Execute interpolate f input) = GetPixels input.
Proof.
  intros Hwf Hinv Esz Esp Eor Edir Hn.
  destruct (wellFormed_size input Hwf) as (sx & sy & sz & Hs & Hx & Hy & Hz & Hlen).
  transitivity (map (GetPixel input) (gridIndices (GetSize input)));
    [|now apply pixels_by_index].
  unfold rif_Execute. cbn [GetPixels GetSize rif_grid]. rewrite Esz, Hn.
  apply map_ext_in. intros idx Hidx. rewrite Hs in Hidx.
  destruct (gridIndices_In sx sy sz idx Hx Hy Hz Hidx) as (x & y & z & -> & Bx & By & Bz).
  assert (E : Forall2 Qeq
                (TransformPhysicalPointToContinuousIndex input
                   (TransformContinuousIndexToPhysicalPoint (rif_grid f input)
                      (map inQ [x; y; z])))
                (map inQ [x; y; z])).
  { destruct Hwf as ((H1 & H2 & H3 & H4) & _). destruct Hinv as [Hdet Hsp].
    apply transform_roundtrip.
    - unfold is3D. cbn [rif_grid GetSize GetSpacing GetOrigin GetDirection].
      rewrite Esz, Esp, Eor, Edir. auto.
    - unfold invertibleGrid. cbn [rif_grid GetSpacing GetDirection].
      rewrite Esp, Edir. auto.
    - cbn [rif_grid GetSpacing]. auto.
    - cbn [rif_grid GetOrigin]. auto.
    - cbn [rif_grid GetDirection]. auto.
    - reflexivity. }
  destruct (nearest_at_voxel input sx sy sz x y z _ Hs Bx By Bz E) as [Hin Hnn].
  rewrite Hin. exact Hnn.
Qed.

Lemma Image_eq (a b : Image) :
  GetSize a = GetSize b -> GetSpacing a = GetSpacing b ->
  GetOrigin a = GetOrigin b -> GetDirection a = GetDirection b ->
  GetPixelID a = GetPixelID b -> GetPixels a = GetPixels b -> a = b.
Proof.
  destruct a, b. cbn. intros; subst. reflexivity.
Qed.

(** X17. Correcting a mask that already lies on the grid of the image
    changes nothing: [_correctMask] returns the mask it was given. *)
Theorem _correctMask_aligned :
  forall interpolate (imageNode maskNode : Image) (label : Z),
    wellFormed maskNode -> invertibleGrid maskNode -> sameGrid imageNode maskNode ->
    In label (GetPixels maskNode) -> label <> 0 ->
    result (_correctMask interpolate imageNode maskNode label) = Some maskNode.
Proof.
  intros interpolate imageNode maskNode label Hwf Hinv Hsame Hin H0.
  pose proof (_checkROI_same_grid imageNode maskNode label Hwf Hinv Hsame Hin H0) as Hroi.
  destruct Hsame as (Esz & Esp & Eor & Edir).
  unfold _correctMask. rewrite !result_bind, Hroi. cbv beta iota. rewrite !result_bind.
  cbn [result ret fst]. f_equal.
  apply Image_eq.
  - exact Esz.
  - exact Esp.
  - exact Eor.
  - exact Edir.
  - reflexivity.
  - exact (rif_Execute_own_grid interpolate (correctingFilter imageNode) maskNode
             Hwf Hinv Esz Esp Eor Edir eq_refl).
Qed.

Lemma _correctMask_aligned_witness :
  result (_correctMask nearest_kernel image10 maskBox 1) = Some maskBox.
Proof.
  apply (_correctMask_aligned nearest_kernel image10 maskBox 1
           maskBox_wellFormed maskBox_invertible).
  - repeat split.
  - exact maskBox_has_label.
  - discriminate.
Defined.

(** *** Voxel values through [cropToTumorMask] *)

Lemma grid_nth (F : list Z -> Z) (sx sy sz k : Z) (d : Z) :
  0 <= k < sx * sy * sz ->
  nth (Z.to_nat k) (map F (gridIndices [sx; sy; sz])) d = F (unravel [sx; sy; sz] k).
Proof.
  intro Hk. unfold gridIndices. rewrite map_map, numberOfPixels3.
  rewrite (nth_indep _ d (F (unravel [sx; sy; sz] (Z.of_nat 0))))
    by (rewrite length_map, length_seq; lia).
  rewrite (map_nth (fun k0 => F (unravel [sx; sy; sz] (Z.of_nat k0)))).
  rewrite seq_nth by lia. cbn [Nat.add]. now rewrite Z2Nat.id by lia.
Qed.

Lemma castPixel_0 (p : PixelID) : castPixel p 0 = 0.
Proof. destruct p; reflexivity. Qed.

Lemma GetPixel_Cast (im : Image) (p : PixelID) (idx : list Z) :
  GetPixel (Cast im p) idx = castPixel p (GetPixel im idx).
Proof.
  unfold GetPixel, Cast. cbn [GetSize GetPixels].
  rewrite <- (castPixel_0 p) at 1. apply map_nth.
Qed.

(** The voxel at an index of a cropped volume. *)
Lemma cif_Execute_voxel (f : CropImageFilter) (im cropped : Image)
      (lx ly lz ex ey ez x y z : Z) :
  cif_Execute f im = Some cropped ->
  LowerBoundaryCropSize f = [lx; ly; lz] ->
  GetSize cropped = [ex; ey; ez] ->
  0 <= x < ex -> 0 <= y < ey -> 0 <= z < ez ->
  GetPixel cropped [x; y; z] = GetPixel im [lx + x; ly + y; lz + z].
Proof.
  unfold cif_Execute. destruct (cif_valid f (GetSize im)); [|discriminate].
  intros [= <-] Hl Hs Hx Hy Hz. cbn [GetSize GetPixels] in *.
  unfold GetPixel at 1. cbn [GetSize GetPixels]. rewrite Hs, Hl.
  rewrite grid_nth by (apply ravel_bounds; assumption).
  rewrite unravel_ravel by assumption. reflexivity.
Qed.

Lemma cast_round_trip (p : PixelID) (v : Z) :
  representable p v ->
  - 2 ^ 31 <= v < 2 ^ 31 \/ p = sitkUInt32 ->
  castPixel p (castPixel sitkInt32 v) = v.
Proof.
  intros Hr H32.
  assert (S32 : - 2 ^ 31 <= v < 2 ^ 31 -> wrap_signed 32 v = v).
  { intro H. unfold wrap_signed. rewrite Z.mod_small; lia. }
  destruct H32 as [H32 | ->].
  - cbn [castPixel]. rewrite (S32 H32).
    destruct p; cbn [castPixel representable] in *; unfold wrap_unsigned, wrap_signed;
      try reflexivity; rewrite Z.mod_small; lia.
  - cbn [castPixel representable] in *. unfold wrap_unsigned, wrap_signed.
    change (2 ^ (32 - 1)) with 2147483648. change (2 ^ 32) with 4294967296 in *.
    destruct (Z.lt_ge_cases v 2147483648) as [Hlt | Hge].
    + rewrite (Z.mod_small (v + 2147483648)) by lia.
      rewrite Z.mod_small; lia.
    + replace (v + 2147483648) with (v - 2147483648 + 1 * 4294967296) by lia.
      rewrite Z.mod_add by lia. rewrite (Z.mod_small (v - 2147483648)) by lia.
      replace (v - 2147483648 - 2147483648) with (v + (-1) * 4294967296) by lia.
      rewrite Z.mod_add by lia. apply Z.mod_small. lia.
Qed.

(** X18. For a box inside the grid shared by image and mask,
    [cropToTumorMask] moves voxels without changing the image: voxel
    (x, y, z) of the cropped image is voxel (lower + (x, y, z)) of the
    input.  A mask voxel takes the round trip through Int32 and back to
    the mask's pixel type, which returns the label whenever the label fits
    Int32 or the mask is of type UInt32; a label of 2^31 in a 64-bit mask
    does not survive it. *)
Theorem cropToTumorMask_voxels :
  forall (imageNode maskNode : Image) (lx ux ly uy lz uz sx sy sz x y z : Z),
    GetSize maskNode = [sx; sy; sz] ->
    GetSize imageNode = [sx; sy; sz] ->
    0 <= lx <= ux -> ux < sx ->
    0 <= ly <= uy -> uy < sy ->
    0 <= lz <= uz -> uz < sz ->
    0 <= x <= ux - lx -> 0 <= y <= uy - ly -> 0 <= z <= uz - lz ->
    exists croppedImageNode croppedMaskNode,
      result (cropToTumorMask imageNode maskNode [lx; ux; ly; uy; lz; uz])
      = Some (croppedImageNode, croppedMaskNode)
      /\ GetPixel croppedImageNode [x; y; z] = GetPixel imageNode [lx + x; ly + y; lz + z]
      /\ GetPixel croppedMaskNode [x; y; z]
         = castPixel (GetPixelID maskNode)
                     (castPixel sitkInt32 (GetPixel maskNode [lx + x; ly + y; lz + z]))
      /\ (representable (GetPixelID maskNode) (GetPixel maskNode [lx + x; ly + y; lz + z]) ->
          - 2 ^ 31 <= GetPixel maskNode [lx + x; ly + y; lz + z] < 2 ^ 31
          \/ GetPixelID maskNode = sitkUInt32 ->
          GetPixel croppedMaskNode [x; y; z] = GetPixel maskNode [lx + x; ly + y; lz + z])
      /\ castPixel sitkInt64 (castPixel sitkInt32 (2 ^ 31)) = - 2 ^ 31.
Proof.
  intros imageNode maskNode lx ux ly uy lz uz sx sy sz x y z
         Hm Hi Hx Hx' Hy Hy' Hz Hz' Bx By Bz.
  pose proof (croppingFilter_valid lx ux ly uy lz uz sx sy sz Hx Hx' Hy Hy' Hz Hz') as V.
  rewrite cropToTumorMask_unfold, Hm.
  set (cif := croppingFilter [sx; sy; sz] [lx; ux; ly; uy; lz; uz]) in *.
  assert (Esize : zipWith Z.sub (zipWith Z.sub [sx; sy; sz] (LowerBoundaryCropSize cif))
                          (UpperBoundaryCropSize cif)
                  = [ux - lx + 1; uy - ly + 1; uz - lz + 1]).
  { subst cif. unfold croppingFilter.
    cbn [LowerBoundaryCropSize UpperBoundaryCropSize evens odds zipWith].
    f_equal; [lia|]. f_equal; [lia|]. f_equal. lia. }
  destruct (cif_Execute cif imageNode) as [ci|] eqn:Ei.
  2:{ unfold cif_Execute in Ei. rewrite Hi, V in Ei. discriminate Ei. }
  destruct (cif_Execute cif (Cast maskNode sitkInt32)) as [cm|] eqn:Em.
  2:{ unfold cif_Execute in Em. cbn [Cast GetSize] in Em. rewrite Hm, V in Em.
      discriminate Em. }
  assert (Si : GetSize ci = [ux - lx + 1; uy - ly + 1; uz - lz + 1]).
  { unfold cif_Execute in Ei. rewrite Hi, V in Ei. injection Ei as <-. exact Esize. }
  assert (Sm : GetSize cm = [ux - lx + 1; uy - ly + 1; uz - lz + 1]).
  { unfold cif_Execute in Em. cbn [Cast GetSize] in Em. rewrite Hm, V in Em.
    injection Em as <-. exact Esize. }
  assert (Vi := cif_Execute_voxel cif imageNode ci lx ly lz _ _ _ x y z Ei eq_refl Si
                  ltac:(lia) ltac:(lia) ltac:(lia)).
  assert (Vm := cif_Execute_voxel cif (Cast maskNode sitkInt32) cm lx ly lz _ _ _ x y z
                  Em eq_refl Sm ltac:(lia) ltac:(lia) ltac:(lia)).
  exists ci, (Cast cm (GetPixelID maskNode)).
  split; [reflexivity|]. split; [exact Vi|].
  rewrite GetPixel_Cast, Vm, GetPixel_Cast.
  split; [reflexivity|]. split; [|reflexivity].
  intros Hr H32. now apply cast_round_trip.
Qed.

Lemma cropToTumorMask_voxels_witness :
  exists croppedImageNode croppedMaskNode,
    result (cropToTumorMask image10 maskBox [2; 5; 2; 5; 2; 5])
    = Some (croppedImageNode, croppedMaskNode)
    /\ GetPixel croppedImageNode [1; 0; 3] = GetPixel image10 [2 + 1; 2 + 0; 2 + 3].
Proof.
  destruct (cropToTumorMask_voxels image10 maskBox 2 5 2 5 2 5 10 10 10 1 0 3
              eq_refl eq_refl ltac:(lia) ltac:(lia) ltac:(lia) ltac:(lia)
              ltac:(lia) ltac:(lia) ltac:(lia) ltac:(lia) ltac:(lia))
    as (ci & cm & Hr & Hv & _).
  exists ci, cm. split; assumption.
Defined.

(** X19. Cropping a well-formed image to the box that covers its whole
    grid is a no-op: the cropped image has the size, spacing, direction,
    pixel type and voxels of the input, and its origin equals the input's
    origin. *)
Theorem cropToTumorMask_full_box :
  forall (imageNode maskNode : Image),
    wellFormed imageNode -> GetSize maskNode = GetSize imageNode ->
    exists croppedImageNode croppedMaskNode,
      result (cropToTumorMask imageNode maskNode (fullBox (GetSize imageNode)))
      = Some (croppedImageNode, croppedMaskNode)
      /\ GetSize croppedImageNode = GetSize imageNode
      /\ GetSpacing croppedImageNode = GetSpacing imageNode
      /\ GetDirection croppedImageNode = GetDirection imageNode
      /\ GetPixelID croppedImageNode = GetPixelID imageNode
      /\ GetPixels croppedImageNode = GetPixels imageNode
      /\ Forall2 Qeq (GetOrigin croppedImageNode) (GetOrigin imageNode)
      /\ GetSize croppedMaskNode = GetSize maskNode.
Proof.
  intros imageNode maskNode Hwf Hm.
  destruct (wellFormed_size imageNode Hwf) as (sx & sy & sz & Hs & Hx & Hy & Hz & Hlen).
  rewrite Hs in Hm. rewrite Hs. unfold fullBox. cbn [flat_map app].
  pose proof (croppingFilter_valid 0 (sx - 1) 0 (sy - 1) 0 (sz - 1) sx sy sz
                ltac:(lia) ltac:(lia) ltac:(lia) ltac:(lia) ltac:(lia) ltac:(lia)) as V.
  rewrite cropToTumorMask_unfold, Hm.
  set (cif := croppingFilter [sx; sy; sz] [0; sx - 1; 0; sy - 1; 0; sz - 1]) in *.
  assert (El : LowerBoundaryCropSize cif = [0; 0; 0]) by reflexivity.
  assert (Esize : zipWith Z.sub (zipWith Z.sub [sx; sy; sz] (LowerBoundaryCropSize cif))
                          (UpperBoundaryCropSize cif) = [sx; sy; sz]).
  { subst cif. unfold croppingFilter.
    cbn [LowerBoundaryCropSize UpperBoundaryCropSize evens odds zipWith].
    f_equal; [lia|]. f_equal; [lia|]. f_equal. lia. }
  unfold cif_Execute. cbn [Cast GetSize]. rewrite Hs, Hm, V, Esize, El.
  do 2 eexists. split; [reflexivity|].
  cbn [GetSize GetSpacing GetDirection GetPixelID GetPixels GetOrigin Cast].
  split; [reflexivity|]. split; [reflexivity|]. split; [reflexivity|].
  split; [reflexivity|]. split; [|split; [|reflexivity]].
  - transitivity (map (GetPixel imageNode) (gridIndices (GetSize imageNode)));
      [|now apply pixels_by_index].
    rewrite Hs. apply map_ext_in. intros idx Hidx.
    destruct (gridIndices_In sx sy sz idx Hx Hy Hz Hidx) as (x & y & z & -> & _).
    reflexivity.
  - destruct Hwf as ((_ & H2 & H3 & H4) & _).
    unfold TransformContinuousIndexToPhysicalPoint.
    destruct (GetSpacing imageNode) as [|s0 [|s1 [|s2 [|? ?]]]]; try discriminate.
    destruct (GetOrigin imageNode) as [|o0 [|o1 [|o2 [|? ?]]]]; try discriminate.
    destruct (GetDirection imageNode)
      as [|d0 [|d1 [|d2 [|d3 [|d4 [|d5 [|d6 [|d7 [|d8 [|? ?]]]]]]]]]]; try discriminate.
    cbn [map zipWith matvec]. unfold inQ. change (inject_Z 0) with 0%Q.
    repeat constructor; ring.
Qed.

Lemma image10_wellFormed : wellFormed image10.
Proof.
  split; [exact image10_is3D|]. split; [repeat constructor | vm_compute; reflexivity].
Qed.

Lemma cropToTumorMask_full_box_witness :
  exists croppedImageNode croppedMaskNode,
    result (cropToTumorMask image10 maskBox (fullBox (GetSize image10)))
    = Some (croppedImageNode, croppedMaskNode)
    /\ GetPixels croppedImageNode = GetPixels image10.
Proof.
  destruct (cropToTumorMask_full_box image10 maskBox image10_wellFormed eq_refl)
    as (ci & cm & Hr & _ & _ & _ & _ & Hp & _).
  exists ci, cm. split; assumption.
Defined.

(** X20. The bounding box that [checkMask] returns can be handed to
    [cropToTumorMask]: when the checked mask (the input mask, or the
    corrected one) is well-formed, carries the label and has the size of
    the image, cropping the image and that mask to the returned box
    succeeds, and both cropped volumes have the extent of the box,
    upper - lower + 1 on every axis. *)
Theorem checkMask_then_crop :
  forall lsif_verify interpolate python (imageNode maskNode : Image) (kwargs : Kwargs)
         (m : Image),
    checkedMask lsif_verify interpolate imageNode maskNode kwargs = Some m ->
    wellFormed m -> GetSize imageNode = GetSize m ->
    In (get (kw_label kwargs) 1) (GetPixels m) ->
    exists boundingBox correctedMask croppedImageNode croppedMaskNode,
      result (checkMask lsif_verify interpolate python imageNode maskNode kwargs)
      = Returns (Some boundingBox, correctedMask)
      /\ result (cropToTumorMask imageNode m boundingBox)
         = Some (croppedImageNode, croppedMaskNode)
      /\ GetSize croppedImageNode
         = zipWith (fun u l => u - l + 1) (odds boundingBox) (evens boundingBox)
      /\ GetSize croppedMaskNode = GetSize croppedImageNode
      /\ Forall (fun s => 1 <= s) (GetSize croppedImageNode).
Proof.
  intros lsif_verify interpolate python imageNode maskNode kwargs m Hchk Hwf Hsz Hin.
  destruct (checkMask_checked lsif_verify interpolate python imageNode maskNode kwargs m Hchk)
    as (Hbb & _). cbv zeta in Hbb.
  destruct (boundingBoxLS_inside m _ Hwf Hin)
    as (lx & ly & lz & ex & ey & ez & sx & sy & sz & _ & ELU & Hs &
        X1 & X2 & X3 & Y1 & Y2 & Y3 & Z1 & Z2 & Z3).
  rewrite ELU in Hbb. rewrite Hs in Hsz.
  pose proof (croppingFilter_valid lx (lx + ex - 1) ly (ly + ey - 1) lz (lz + ez - 1)
                sx sy sz ltac:(lia) ltac:(lia) ltac:(lia) ltac:(lia) ltac:(lia) ltac:(lia))
    as V.
  exists [lx; lx + ex - 1; ly; ly + ey - 1; lz; lz + ez - 1].
  eexists.
  rewrite cropToTumorMask_unfold, Hs.
  set (cif := croppingFilter [sx; sy; sz]
                [lx; lx + ex - 1; ly; ly + ey - 1; lz; lz + ez - 1]) in *.
  assert (Esize : zipWith Z.sub (zipWith Z.sub [sx; sy; sz] (LowerBoundaryCropSize cif))
                          (UpperBoundaryCropSize cif) = [ex; ey; ez]).
  { subst cif. unfold croppingFilter.
    cbn [LowerBoundaryCropSize UpperBoundaryCropSize evens odds zipWith].
    f_equal; [lia|]. f_equal; [lia|]. f_equal. lia. }
  unfold cif_Execute. cbn [Cast GetSize]. rewrite Hsz, Hs, V, Esize.
  do 2 eexists. split; [exact Hbb|]. split; [reflexivity|].
  cbn [GetSize Cast odds evens zipWith].
  split; [|split; [reflexivity|]].
  - f_equal; [lia|]. f_equal; [lia|]. f_equal. lia.
  - repeat constructor; lia.
Qed.

Lemma checkMask_then_crop_witness :
  exists boundingBox correctedMask croppedImageNode croppedMaskNode,
    result (checkMask sitk_verify nearest_kernel Python3 image10 maskBox
                      {| kw_label := Some 1; kw_minimumROIDimensions := Some 1;
                         kw_minimumROISize := Some 10; kw_correctMask := None |})
    = Returns (Some boundingBox, correctedMask)
    /\ result (cropToTumorMask image10 maskBox boundingBox)
       = Some (croppedImageNode, croppedMaskNode)
    /\ GetSize croppedImageNode
       = zipWith (fun u l => u - l + 1) (odds boundingBox) (evens boundingBox).
Proof.
  destruct (checkMask_then_crop sitk_verify nearest_kernel Python3 image10 maskBox _ maskBox
              maskBox_checked maskBox_wellFormed eq_refl maskBox_has_label)
    as (bb & c & ci & cm & H1 & H2 & H3 & _).
  exists bb, c, ci, cm. auto.
Defined.

(** *** [applyThreshold] *)

(** X21. [applyThreshold] chooses its mode by the truth value of
    [insideValue], so 0 acts like [None]: the image is thresholded, not
    binarised.  In that mode voxels within the thresholds keep their
    value, the others get the outside value, the pixel type is kept, and
    applying the same threshold again changes nothing.  With a non-zero
    [insideValue] the result is of type UInt8 and every voxel is the
    inside or the outside value. *)
Theorem applyThreshold_modes :
  forall (inputImage : Image) (lowerThreshold upperThreshold : Q)
         (insideValue : option Z) (outsideValue : Z) (r : Image),
    applyThreshold inputImage lowerThreshold upperThreshold insideValue outsideValue
    = Some r ->
    (insideValue = None \/ insideValue = Some 0 ->
     applyThreshold inputImage lowerThreshold upperThreshold None outsideValue = Some r
     /\ GetPixelID r = GetPixelID inputImage
     /\ Forall2 (fun v v' =>
                   v' = if withinThresholds lowerThreshold upperThreshold v
                        then v else castPixel (GetPixelID inputImage) outsideValue)
                (GetPixels inputImage) (GetPixels r)
     /\ applyThreshold r lowerThreshold upperThreshold insideValue outsideValue = Some r)
    /\ (forall v, insideValue = Some v -> v <> 0 ->
                  GetPixelID r = sitkUInt8
                  /\ Forall (fun v' => v' = v \/ v' = outsideValue) (GetPixels r)).
Proof.
  intros im lo hi inside out r Hr. split.
  - intros Hmode.
    assert (Ht : truthy inside = false) by (destruct Hmode as [-> | ->]; reflexivity).
    unfold applyThreshold in *. rewrite Ht in *. cbn [truthy].
    split; [exact Hr|].
    unfold tif_Execute in *. destruct (Qle_bool lo hi); [|discriminate Hr].
    injection Hr as <-. cbn [GetPixelID GetPixels GetSize GetSpacing GetOrigin GetDirection].
    split; [reflexivity|]. split.
    + induction (GetPixels im) as [|v l IH]; constructor; auto.
    + f_equal. apply Image_eq; try reflexivity.
      cbn [GetPixels]. rewrite map_map. apply map_ext. intro v.
      destruct (withinThresholds lo hi v) eqn:E; [now rewrite E|].
      destruct (withinThresholds lo hi (castPixel (GetPixelID im) out)); reflexivity.
  - intros v -> Hv.
    assert (Ht : truthy (Some v) = true).
    { cbn. apply negb_true_iff. now apply Z.eqb_neq. }
    unfold applyThreshold in Hr. rewrite Ht in Hr. cbn [get] in Hr.
    unfold btif_Execute in Hr.
    destruct (Qle_bool lo hi && (0 <=? v) && (v <? 256) && (0 <=? out) && (out <? 256));
      [|discriminate Hr].
    injection Hr as <-. cbn [GetPixelID GetPixels]. split; [reflexivity|].
    apply Forall_forall. intros v' Hv'. apply in_map_iff in Hv'.
    destruct Hv' as [w [<- _]]. destruct (withinThresholds lo hi w); auto.
Qed.

Lemma applyThreshold_modes_witness :
  applyThreshold (volume [2; 2; 1] sitkInt16 (fun idx => ravel [2; 2; 1] idx)) 1 2 None 9
  = Some {| GetSize := [2; 2; 1]; GetSpacing := [1; 1; 1]%Q; GetOrigin := [0; 0; 0]%Q;
            GetDirection := identity3; GetPixelID := sitkInt16;
            GetPixels := [9; 1; 2; 9] |}.
Proof.
  apply (proj1 (applyThreshold_modes
                  (volume [2; 2; 1] sitkInt16 (fun idx => ravel [2; 2; 1] idx)) 1 2
                  (Some 0) 9 _ eq_refl)).
  right. reflexivity.
Defined.

(** *** [normalizeImage] *)

(** X22. The [outliers] argument of [normalizeImage] has no effect on the
    image it returns: the clipped array is written to a new image that is
    never used, so the result is the normalised image times [scale],
    voxel by voxel, whatever [outliers] is; only the debug record that
    announces the removal depends on it. *)
Theorem normalizeImage_outliers_ignored :
  forall (sitk_Normalize : Image -> RealImage) (image : Image) (scale : Q)
         (outliers : option Q),
    result (normalizeImage sitk_Normalize image scale outliers)
    = scaleImage (sitk_Normalize image) scale
    /\ real_Pixels (result (normalizeImage sitk_Normalize image scale outliers))
       = map (fun v => v * scale)%Q (real_Pixels (sitk_Normalize image))
    /\ (logged DEBUG "Removing outliers > %g standard deviations"
               (normalizeImage sitk_Normalize image scale outliers) = true
        <-> outliers <> None).
Proof.
  intros N image scale [o|]; cbn; repeat split; try reflexivity;
    try discriminate; intro H; congruence.
Qed.

(** *** [getLoGImage] *)







(** *** When [checkMask] returns a bounding box *)


(** *** Flat axes in [resampleImage] *)

Lemma flat_axis_size (l pad s : Z) (m : Q) :
  ~ (m == 0)%Q ->
  GridSpec.newSize l 1 (m / m) pad s
  = Z.min (s - 1) (l + 1 + pad) - Z.max 0 (l - 1 - pad) + 1.
Proof.
  intro Hm. unfold GridSpec.newSize, GridSpec.newUpper, GridSpec.newLower.
  assert (E1 : (inQ s * (m / m) == 0 + inQ s)%Q) by (field; exact Hm).
  assert (E2 : ((inQ l + inQ 1 - (1 # 2)) * (m / m) + inQ pad
                == (1 # 2) + inQ (l + pad))%Q).
  { unfold inQ. rewrite inject_Z_plus. change (inject_Z 1) with 1%Q. field. exact Hm. }
  assert (E3 : ((inQ l - (1 # 2)) * (m / m) - inQ pad == - (1 # 2) + inQ (l - pad))%Q).
  { unfold inQ. rewrite inject_Z_minus. field. exact Hm. }
  rewrite (Qceiling_comp _ _ E1), (Qceiling_comp _ _ E2), (Qfloor_comp _ _ E3).
  rewrite !Qceiling_plus_Z, Qfloor_plus_Z.
  change (Qceiling 0) with 0. change (Qceiling (1 # 2)) with 1.
  change (Qfloor (- (1 # 2))) with (-1). lia.
Qed.

(** X25. [resampleImage] never resamples across an axis on which the ROI is
    one voxel thick: the spacing of the result on such an axis is the
    spacing of the input mask, whatever spacing was requested, and on
    every other axis it is the requested spacing.  On a flat axis the new
    grid keeps the slice of the ROI and padDistance + 1 slices on either
    side, as far as the mask reaches. *)
Theorem resampleImage_flat_axis :
  forall interpolate (imageNode maskNode : Image) (interpolator : InterpolatorArg)
         (label padDistance : Z)
         (lx ly lz ex ey ez : Z) (mx my mz tx ty tz : Q) (sx sy sz : Z),
    array_equal (GetSpacing maskNode) [tx; ty; tz]
    && array_equal (GetSpacing imageNode) [tx; ty; tz] = false ->
    result (_checkROI imageNode maskNode label) = Some [lx; ly; lz; ex; ey; ez] ->
    GetSpacing maskNode = [mx; my; mz] ->
    GetSize maskNode = [sx; sy; sz] ->
    exists resampledImageNode resampledMaskNode,
      result (resampleImage interpolate (Some imageNode) (Some maskNode)
                            [tx; ty; tz] interpolator label padDistance)
      = (Some resampledImageNode, Some resampledMaskNode)
      /\ GetSpacing resampledImageNode
         = [if ex =? 1 then mx else tx; if ey =? 1 then my else ty;
            if ez =? 1 then mz else tz]
      /\ GetSpacing resampledMaskNode = GetSpacing resampledImageNode
      /\ (ex = 1 -> ~ (mx == 0)%Q ->
          nth 0 (GetSize resampledImageNode) 0
          = Z.min (sx - 1) (lx + 1 + padDistance) - Z.max 0 (lx - 1 - padDistance) + 1)
      /\ (ey = 1 -> ~ (my == 0)%Q ->
          nth 1 (GetSize resampledImageNode) 0
          = Z.min (sy - 1) (ly + 1 + padDistance) - Z.max 0 (ly - 1 - padDistance) + 1)
      /\ (ez = 1 -> ~ (mz == 0)%Q ->
          nth 2 (GetSize resampledImageNode) 0
          = Z.min (sz - 1) (lz + 1 + padDistance) - Z.max 0 (lz - 1 - padDistance) + 1).
Proof.
  intros interpolate imageNode maskNode interpolator label pad
         lx ly lz ex ey ez mx my mz tx ty tz sx sy sz Hfast Hroi Hsp Hsz.
  rewrite (resampleImage_outputs interpolate imageNode maskNode [tx; ty; tz] interpolator
             label pad _ Hfast Hroi).
  do 2 eexists. split; [reflexivity|].
  cbn [GetSpacing GetSize rif_Execute rif_grid gridFilter rif_OutputSpacing rif_Size].
  rewrite (resamplingGrid_newSize maskNode lx ly lz ex ey ez mx my mz tx ty tz sx sy sz pad
             Hsp Hsz).
  split; [|split; [reflexivity|]].
  - unfold resamplingGrid. rewrite Hsp. cbn [grid_spacing skipn zipWith3].
    destruct (ex =? 1), (ey =? 1), (ez =? 1); reflexivity.
  - cbn [nth]. unfold GridSpec.ratio, GridSpec.targetSpacing.
    split; [|split]; intros -> Hm; cbn [Z.eqb Pos.eqb]; now apply flat_axis_size.
Qed.

Lemma resampleImage_flat_axis_witness :
  exists resampledImageNode resampledMaskNode,
    result (resampleImage nearest_kernel (Some image10) (Some maskPlane)
                          [2; 2; 2]%Q (ByValue sitkBSpline) 1 0)
    = (Some resampledImageNode, Some resampledMaskNode)
    /\ GetSpacing resampledImageNode = [2; 2; 1]%Q.
Proof.
  destruct (resampleImage_flat_axis nearest_kernel image10 maskPlane (ByValue sitkBSpline)
              1 0 2 2 2 5 3 1 1%Q 1%Q 1%Q 2%Q 2%Q 2%Q 10 10 10
              eq_refl eq_refl eq_refl eq_refl) as (ri & rm & Hr & Hs & _).
  exists ri, rm. split; assumption.
Defined.

(** *** Wavelet images *)

Lemma numberOfPixels_app (a b : list Z) :
  numberOfPixels (a ++ b) = numberOfPixels a * numberOfPixels b.
Proof.
  unfold numberOfPixels. induction a as [|x a IH]; cbn [app fold_right].
  - destruct (fold_right Z.mul 1 b); reflexivity.
  - rewrite IH. ring.
Qed.

Lemma numberOfPixels_rev (l : list Z) : numberOfPixels (rev l) = numberOfPixels l.
Proof.
  induction l as [|x l IH]; [reflexivity|].
  cbn [rev]. rewrite numberOfPixels_app, IH. unfold numberOfPixels. cbn [fold_right]. ring.
Qed.

Lemma numberOfPixels_3 (n0 n1 n2 : nat) :
  Z.to_nat (numberOfPixels [Z.of_nat n0; Z.of_nat n1; Z.of_nat n2]) = (n0 * n1 * n2)%nat.
Proof.
  unfold numberOfPixels. cbn [fold_right].
  rewrite Z.mul_1_r, <- !Nat2Z.inj_mul, Nat2Z.id. lia.
Qed.

Lemma length_concat_repeat {A} (l : list A) (n : nat) :
  List.length (List.concat (repeat l n)) = (n * List.length l)%nat.
Proof.
  induction n as [|n IH]; [reflexivity|].
  cbn [repeat List.concat]. rewrite length_app, IH. reflexivity.
Qed.

Lemma numpy_resize_length (a : ndarray) (new_shape : list Z) :
  List.length (elements (numpy_resize a new_shape)) = Z.to_nat (numberOfPixels new_shape).
Proof.
  unfold numpy_resize. cbn [elements].
  destruct (elements a) as [|q l] eqn:E.
  - apply repeat_length.
  - rewrite length_firstn, length_concat_repeat. cbn [List.length]. nia.
Qed.

Lemma numpy_resize_image (inputImage : Image) (a : ndarray) :
  exists im,
    CopyInformation (sitk_GetImageFromArray (numpy_resize a (rev (GetSize inputImage))))
                    inputImage = inr im
    /\ onGridOf inputImage im.
Proof.
  unfold CopyInformation.
  destruct (list_eq_dec Z.eq_dec _ _) as [E|N].
  - eexists. split; [reflexivity|].
    unfold onGridOf. cbn [real_Size real_Spacing real_Origin real_Direction real_Pixels].
    repeat split; try assumption.
    cbn [sitk_GetImageFromArray real_Pixels].
    rewrite numpy_resize_length. now rewrite numberOfPixels_rev.
  - exfalso. apply N. cbn [sitk_GetImageFromArray real_Size numpy_resize shape].
    apply rev_involutive.
Qed.

(** **** Arrays of three dimensions *)

Lemma length_concat_uniform {A} (ls : list (list A)) (n : nat) :
  Forall (fun l => List.length l = n) ls ->
  List.length (List.concat ls) = (List.length ls * n)%nat.
Proof.
  induction 1 as [|l ls Hl _ IH]; [reflexivity|].
  cbn [List.concat List.length]. rewrite length_app, IH, Hl. lia.
Qed.

Lemma nth_concat_uniform {A} (ls : list (list A)) (n r k : nat) (d : A) :
  Forall (fun l => List.length l = n) ls -> (k < n)%nat ->
  nth (r * n + k) (List.concat ls) d = nth k (nth r ls []) d.
Proof.
  intros Hu Hk. revert r. induction Hu as [|l ls Hl _ IH]; intros r.
  - cbn [List.concat]. destruct (r * n + k)%nat; destruct r; destruct k; reflexivity.
  - cbn [List.concat]. destruct r as [|r].
    + cbn [Nat.mul Nat.add nth]. apply app_nth1. lia.
    + cbn [nth]. rewrite app_nth2 by lia.
      replace (S r * n + k - List.length l)%nat with (r * n + k)%nat by lia.
      apply IH.
Qed.

Lemma rows3_uniform (s0 s1 s2 : nat) (f : nat -> nat -> nat -> Q) :
  Forall (fun r => List.length r = s2) (rows3 s0 s1 s2 f).
Proof.
  unfold rows3. rewrite Forall_forall. intros r Hin.
  apply in_flat_map in Hin as (i & _ & Hin).
  apply in_map_iff in Hin as (j & <- & _).
  now rewrite length_map, length_seq.
Qed.

Lemma rows3_length (s0 s1 s2 : nat) (f : nat -> nat -> nat -> Q) :
  List.length (rows3 s0 s1 s2 f) = (s0 * s1)%nat.
Proof.
  unfold rows3. rewrite flat_map_concat_map.
  rewrite (length_concat_uniform _ s1).
  - now rewrite length_map, length_seq.
  - rewrite Forall_forall. intros r Hin. apply in_map_iff in Hin as (i & <- & _).
    now rewrite length_map, length_seq.
Qed.

Lemma rows3_nth (s0 s1 s2 : nat) (f : nat -> nat -> nat -> Q) (i j : nat) :
  (i < s0)%nat -> (j < s1)%nat ->
  nth (i * s1 + j) (rows3 s0 s1 s2 f) [] = map (f i j) (seq 0 s2).
Proof.
  intros Hi Hj. unfold rows3. rewrite flat_map_concat_map.
  rewrite (nth_concat_uniform _ s1) by
    (try assumption; rewrite Forall_forall; intros r Hin;
     apply in_map_iff in Hin as (i' & <- & _); now rewrite length_map, length_seq).
  rewrite (nth_indep _ [] (map (fun j => map (f 0%nat j) (seq 0 s2)) (seq 0 s1)))
    by (now rewrite length_map, length_seq).
  rewrite (map_nth (fun i => map (fun j => map (f i j) (seq 0 s2)) (seq 0 s1)) (seq 0 s0) 0%nat i).
  rewrite seq_nth by assumption. cbn [Nat.add].
  rewrite (nth_indep _ [] (map (f i 0%nat) (seq 0 s2)))
    by (now rewrite length_map, length_seq).
  rewrite (map_nth (fun j => map (f i j) (seq 0 s2)) (seq 0 s1) 0%nat j).
  now rewrite seq_nth by assumption.
Qed.

Lemma array3_length (s0 s1 s2 : nat) (f : nat -> nat -> nat -> Q) :
  List.length (elements (array3 s0 s1 s2 f)) = (s0 * s1 * s2)%nat.
Proof.
  cbn [array3 elements].
  now rewrite (length_concat_uniform _ s2), rows3_length by apply rows3_uniform.
Qed.

Lemma item3_array3 (s0 s1 s2 : nat) (f : nat -> nat -> nat -> Q) (i j k : nat) :
  (i < s0)%nat -> (j < s1)%nat -> (k < s2)%nat ->
  item3 (array3 s0 s1 s2 f) i j k = f i j k.
Proof.
  intros Hi Hj Hk. unfold item3. cbn [array3 shape elements nth]. rewrite !Nat2Z.id.
  rewrite (nth_concat_uniform _ s2) by (try assumption; apply rows3_uniform).
  rewrite rows3_nth by assumption.
  rewrite (nth_indep _ 0%Q (f i j 0%nat)) by (now rewrite length_map, length_seq).
  rewrite (map_nth (f i j) (seq 0 s2) 0%nat k).
  now rewrite seq_nth by assumption.
Qed.

Lemma vectors_array3 (s0 s1 s2 : nat) (f : nat -> nat -> nat -> Q) (i j : nat) :
  (i < s0)%nat -> (j < s1)%nat ->
  nth (i * s1 + j) (vectors (array3 s0 s1 s2 f)) [] = map (f i j) (seq 0 s2).
Proof.
  intros Hi Hj. unfold vectors. cbn [array3 shape nth]. rewrite !Nat2Z.id.
  rewrite rows3_nth by assumption.
  apply map_ext_in. intros k Hk. apply in_seq in Hk.
  change (Z.of_nat s0 :: Z.of_nat s1 :: Z.of_nat s2 :: nil)
    with (shape (array3 s0 s1 s2 f)).
  change {| shape := shape (array3 s0 s1 s2 f);
            elements := List.concat (rows3 s0 s1 s2 f) |} with (array3 s0 s1 s2 f).
  apply item3_array3; lia.
Qed.

Lemma evenArray_shape (a : ndarray) :
  evenArray a ->
  exists n0 n1 n2,
    shape a = [Z.of_nat n0; Z.of_nat n1; Z.of_nat n2]
    /\ (0 < n0 /\ 0 < n1 /\ 0 < n2)%nat
    /\ Nat.even n0 = true /\ Nat.even n1 = true /\ Nat.even n2 = true
    /\ List.length (elements a) = (n0 * n1 * n2)%nat.
Proof.
  intros (H3 & Hs & Hl).
  destruct (shape a) as [|s0 [|s1 [|s2 [|]]]] eqn:E; try discriminate H3.
  inversion Hs as [|? ? [P0 E0] Hs1]; subst.
  inversion Hs1 as [|? ? [P1 E1] Hs2]; subst.
  inversion Hs2 as [|? ? [P2 E2] _]; subst.
  assert (Hev : forall s, 0 < s -> s mod 2 = 0 -> Nat.even (Z.to_nat s) = true).
  { intros s Hp Hm. apply Nat.even_spec. exists (Z.to_nat (s / 2)).
    pose proof (Z_div_mod_eq_full s 2). lia. }
  exists (Z.to_nat s0), (Z.to_nat s1), (Z.to_nat s2).
  rewrite !Z2Nat.id by lia. split; [reflexivity|].
  split; [lia|]. repeat split; try (apply Hev; assumption).
  rewrite Hl. rewrite <- (Z2Nat.id s0), <- (Z2Nat.id s1), <- (Z2Nat.id s2) by lia.
  rewrite numberOfPixels_3. now rewrite !Z2Nat.id by lia.
Qed.

Lemma evenArray_intro (a : ndarray) (n0 n1 n2 : nat) :
  shape a = [Z.of_nat n0; Z.of_nat n1; Z.of_nat n2] ->
  (0 < n0 /\ 0 < n1 /\ 0 < n2)%nat ->
  Nat.even n0 = true -> Nat.even n1 = true -> Nat.even n2 = true ->
  List.length (elements a) = (n0 * n1 * n2)%nat ->
  evenArray a.
Proof.
  intros Hs Hp E0 E1 E2 Hl. unfold evenArray. rewrite Hs, Hl, numberOfPixels_3.
  split; [reflexivity|]. split; [|reflexivity].
  assert (Hev : forall n, (0 < n)%nat -> Nat.even n = true ->
                          0 < Z.of_nat n /\ Z.of_nat n mod 2 = 0).
  { intros n Hn He. split; [lia|]. apply Nat.even_spec in He as [m ->].
    rewrite Nat2Z.inj_mul, Z.mul_comm. apply Z.mod_mul. lia. }
  repeat constructor; try (apply Hev; tauto).
Qed.

(** **** The transforms along the three axes *)

Lemma concat_chunks {A} (p n : nat) (l : list A) :
  List.length l = (n * p)%nat ->
  List.concat (map (fun c => firstn p (skipn (c * p) l)) (seq 0 n)) = l.
Proof.
  revert l. induction n as [|n IH]; intros l Hl.
  - destruct l; [reflexivity|discriminate Hl].
  - cbn [seq map List.concat]. rewrite <- seq_shift, map_map.
    cbn [Nat.mul Nat.add skipn].
    rewrite (map_ext (fun c => firstn p (skipn (S c * p) l))
                     (fun c => firstn p (skipn (c * p) (skipn p l)))).
    + rewrite IH by (rewrite length_skipn; lia). apply firstn_skipn.
    + intros c. rewrite skipn_skipn. f_equal. f_equal. lia.
Qed.

Lemma band_rows (g : list Q -> list Q) (s0 s1 s2 : nat) (f : nat -> nat -> nat -> Q) :
  isBand g -> (0 < s0)%nat -> (0 < s1)%nat -> (0 < s2)%nat -> Nat.even s2 = true ->
  let rows := map g (rows3 s0 s1 s2 f) in
  rows <> []
  /\ List.length rows = (s0 * s1)%nat
  /\ Forall (fun r => List.length r = s2) rows
  /\ List.length (List.concat rows) = (s0 * s1 * s2)%nat
  /\ forall i j k, (i < s0)%nat -> (j < s1)%nat -> (k < s2)%nat ->
       nth ((i * s1 + j) * s2 + k) (List.concat rows) 0%Q
       = nth k (g (map (f i j) (seq 0 s2))) 0%Q.
Proof.
  intros Hg H0 H1 H2 He rows.
  assert (Hlen : List.length rows = (s0 * s1)%nat)
    by (unfold rows; now rewrite length_map, rows3_length).
  assert (Hu : Forall (fun r => List.length r = s2) rows).
  { unfold rows. rewrite Forall_map.
    eapply Forall_impl; [|apply (rows3_uniform s0 s1 s2 f)].
    intros v Hv. cbn beta in Hv. rewrite Hg; [assumption| |now rewrite Hv].
    intros ->. cbn in Hv. lia. }
  split; [|split; [exact Hlen|split; [exact Hu|split]]].
  - intros E. rewrite E in Hlen. cbn in Hlen. nia.
  - now rewrite (length_concat_uniform _ s2), Hlen.
  - intros i j k Hi Hj Hk.
    rewrite (nth_concat_uniform _ s2) by assumption.
    unfold rows.
    rewrite (nth_indep _ [] (g [])) by (rewrite length_map, rows3_length; nia).
    rewrite (map_nth g (rows3 s0 s1 s2 f) [] (i * s1 + j)).
    now rewrite rows3_nth by assumption.
Qed.

Lemma numpy_hstack_rows (rows : list (list Q)) :
  rows <> [] -> numpy_hstack rows = inr (List.concat rows).
Proof. destruct rows; [intros C; now elim C|reflexivity]. Qed.

Lemma numpy_vstack_rows (rows : list (list Q)) (n : nat) :
  rows <> [] -> Forall (fun r => List.length r = n) rows -> numpy_vstack rows = inr rows.
Proof.
  destruct rows as [|r rows]; [intros C; now elim C|]. intros _ Hu.
  inversion Hu as [|? ? Hr Hrest]; subst. cbn [numpy_vstack].
  replace (forallb _ rows) with true; [reflexivity|].
  symmetry. apply forallb_forall. intros r' Hin. rewrite Forall_forall in Hrest.
  apply Nat.eqb_eq. now rewrite (Hrest r' Hin).
Qed.

Lemma numpy_reshape_3 (flat : list Q) (n0 n1 n2 : nat) :
  List.length flat = (n0 * n1 * n2)%nat ->
  numpy_reshape flat [Z.of_nat n0; Z.of_nat n1; Z.of_nat n2]
  = inr {| shape := [Z.of_nat n0; Z.of_nat n1; Z.of_nat n2]; elements := flat |}.
Proof.
  intros Hl. unfold numpy_reshape. rewrite numberOfPixels_3, Hl, Nat.eqb_refl. reflexivity.
Qed.

(** One band of [_decompose_i]: the coefficients of the vectors along
    the last axis, put back in place. *)
Lemma band_i (g : list Q -> list Q) (data : ndarray) (n0 n1 n2 : nat) :
  isBand g ->
  shape data = [Z.of_nat n0; Z.of_nat n1; Z.of_nat n2] ->
  (0 < n0 /\ 0 < n1 /\ 0 < n2)%nat -> Nat.even n2 = true ->
  exists flat B,
    numpy_hstack (map g (vectors data)) = inr flat
    /\ numpy_reshape flat (shape data) = inr B
    /\ shape B = shape data
    /\ List.length (elements B) = (n0 * n1 * n2)%nat
    /\ forall i j k, (i < n0)%nat -> (j < n1)%nat -> (k < n2)%nat ->
         item3 B i j k = nth k (g (vector_i data i j)) 0%Q.
Proof.
  intros Hg Hs (H0 & H1 & H2) He.
  unfold vectors, vector_i. rewrite Hs. cbn [nth]. rewrite !Nat2Z.id.
  destruct (band_rows g n0 n1 n2 (item3 data) Hg H0 H1 H2 He) as (Hne & _ & _ & Hl & Hn).
  eexists. eexists. split; [now apply numpy_hstack_rows|].
  split; [now apply numpy_reshape_3|].
  split; [reflexivity|]. split; [exact Hl|].
  intros i j k Hi Hj Hk. unfold item3 at 1. cbn [shape elements nth]. rewrite !Nat2Z.id.
  now apply Hn.
Qed.

(** One band of [_decompose_j]: the coefficients of the vectors along
    the middle axis. *)
Lemma band_j (g : list Q -> list Q) (data : ndarray) (n0 n1 n2 : nat) :
  isBand g ->
  shape data = [Z.of_nat n0; Z.of_nat n1; Z.of_nat n2] ->
  (0 < n0 /\ 0 < n1 /\ 0 < n2)%nat -> Nat.even n1 = true ->
  exists flat B,
    numpy_hstack (map g (vectors (transpose_021 data))) = inr flat
    /\ numpy_reshape flat [nth 0 (shape data) 0; nth 2 (shape data) 0; nth 1 (shape data) 0]
       = inr B
    /\ shape (transpose_021 B) = shape data
    /\ List.length (elements (transpose_021 B)) = (n0 * n1 * n2)%nat
    /\ forall i j k, (i < n0)%nat -> (j < n1)%nat -> (k < n2)%nat ->
         item3 (transpose_021 B) i j k = nth j (g (vector_j data i k)) 0%Q.
Proof.
  intros Hg Hs (H0 & H1 & H2) He.
  unfold vector_j. rewrite Hs. cbn [nth].
  unfold transpose_021 at 1. rewrite Hs. cbn [nth]. rewrite !Nat2Z.id.
  unfold vectors. cbn [array3 shape nth]. rewrite !Nat2Z.id.
  set (T := {| shape := [Z.of_nat n0; Z.of_nat n2; Z.of_nat n1];
               elements := List.concat (rows3 n0 n2 n1 (fun i k j => item3 data i j k)) |}).
  destruct (band_rows g n0 n2 n1 (item3 T) Hg H0 H2 H1 He) as (Hne & _ & _ & Hl & Hn).
  eexists. eexists. split; [now apply numpy_hstack_rows|].
  split; [apply numpy_reshape_3; exact Hl|].
  unfold transpose_021. cbn [shape elements nth]. rewrite !Nat2Z.id.
  split; [reflexivity|]. split; [apply array3_length|].
  intros i j k Hi Hj Hk. rewrite item3_array3 by assumption.
  unfold item3 at 1. cbn [shape elements nth]. rewrite !Nat2Z.id.
  rewrite Hn by assumption. f_equal. f_equal.
  apply map_ext_in. intros j' Hj'. apply in_seq in Hj'.
  exact (item3_array3 n0 n2 n1 (fun i k j => item3 data i j k) i k j'
           ltac:(lia) ltac:(lia) ltac:(lia)).
Qed.

(** One band of [_decompose_k]: the coefficients of the vectors along
    the first axis. *)
Lemma band_k (g : list Q -> list Q) (data : ndarray) (n0 n1 n2 : nat) :
  isBand g ->
  shape data = [Z.of_nat n0; Z.of_nat n1; Z.of_nat n2] ->
  (0 < n0 /\ 0 < n1 /\ 0 < n2)%nat -> Nat.even n0 = true ->
  exists rows slices,
    numpy_vstack (map g (vectors (transpose_210 data))) = inr rows
    /\ numpy_split rows (nth 2 (shape data) 0) = inr slices
    /\ shape (transpose_210 (numpy_asarray slices)) = shape data
    /\ List.length (elements (transpose_210 (numpy_asarray slices))) = (n0 * n1 * n2)%nat
    /\ forall i j k, (i < n0)%nat -> (j < n1)%nat -> (k < n2)%nat ->
         item3 (transpose_210 (numpy_asarray slices)) i j k
         = nth i (g (vector_k data j k)) 0%Q.
Proof.
  intros Hg Hs (H0 & H1 & H2) He.
  unfold vector_k. rewrite Hs. cbn [nth].
  unfold transpose_210 at 1. rewrite Hs. cbn [nth]. rewrite !Nat2Z.id.
  unfold vectors. cbn [array3 shape nth]. rewrite !Nat2Z.id.
  set (T := array3 n2 n1 n0 (fun k j i => item3 data i j k)).
  destruct (band_rows g n2 n1 n0 (item3 T) Hg H2 H1 H0 He) as (Hne & Hlen & Hu & Hl & Hn).
  set (rows := map g (rows3 n2 n1 n0 (item3 T))) in *. clearbody rows.
  exists rows. eexists. split; [now apply (numpy_vstack_rows rows n0)|].
  assert (Hsplit : numpy_split rows (Z.of_nat n2)
                   = inr (map (fun c => firstn n1 (skipn (c * n1) rows)) (seq 0 n2))).
  { unfold numpy_split. rewrite Nat2Z.id, Hlen.
    replace (Z.of_nat n2 <=? 0) with false by (symmetry; apply Z.leb_gt; lia).
    rewrite (Nat.mul_comm n2 n1), Nat.Div0.mod_mul, Nat.eqb_refl. cbn [negb].
    rewrite Nat.div_mul by lia. reflexivity. }
  split; [exact Hsplit|].
  set (slices := map (fun c => firstn n1 (skipn (c * n1) rows)) (seq 0 n2)).
  assert (Hhd : hd [] slices = firstn n1 rows).
  { unfold slices. destruct n2 as [|n2]; [lia|]. reflexivity. }
  assert (Hhd2 : List.length (hd [] (hd [] slices)) = n0).
  { rewrite Hhd. destruct rows as [|r rows]; [now elim Hne|].
    destruct n1 as [|n1]; [lia|]. cbn [firstn hd].
    now inversion Hu. }
  assert (Hels : elements (numpy_asarray slices) = List.concat rows).
  { cbn [numpy_asarray elements]. unfold slices. now rewrite concat_chunks. }
  assert (Hshape : shape (numpy_asarray slices)
                   = [Z.of_nat n2; Z.of_nat n1; Z.of_nat n0]).
  { cbn [numpy_asarray shape]. rewrite Hhd2, Hhd, length_firstn, Hlen.
    unfold slices. rewrite length_map, length_seq.
    replace (Nat.min n1 (n2 * n1)) with n1 by nia. reflexivity. }
  unfold transpose_210. rewrite Hshape. cbn [nth]. rewrite !Nat2Z.id.
  split; [reflexivity|]. split; [apply array3_length|].
  intros i j k Hi Hj Hk. rewrite item3_array3 by assumption.
  unfold item3 at 1. rewrite Hshape, Hels. cbn [nth]. rewrite !Nat2Z.id.
  rewrite Hn by assumption. f_equal. f_equal.
  apply map_ext_in. intros i' Hi'. apply in_seq in Hi'.
  exact (item3_array3 n2 n1 n0 (fun k j i => item3 data i j k) k j i'
           ltac:(lia) ltac:(lia) ltac:(lia)).
Qed.

Section Transforms.

Variable Wavelet : Type.
Variable pywt_swt : list Q -> Wavelet -> Exception + (list Q * list Q).
Hypothesis swt_stationary : stationary pywt_swt.

Lemma detailOf_band (w : Wavelet) : isBand (detailOf pywt_swt w).
Proof.
  intros v Hv He. destruct (swt_stationary v w Hv He) as (cA & cD & E & _ & Hd).
  unfold detailOf, coefficients. now rewrite E.
Qed.

Lemma approximationOf_band (w : Wavelet) : isBand (approximationOf pywt_swt w).
Proof.
  intros v Hv He. destruct (swt_stationary v w Hv He) as (cA & cD & E & Ha & _).
  unfold approximationOf, coefficients. now rewrite E.
Qed.

Lemma swt_all_spec (vs : list (list Q)) (w : Wavelet) :
  Forall (fun v => v <> [] /\ Nat.even (List.length v) = true) vs ->
  swt_all Wavelet pywt_swt vs w
  = inr (map (detailOf pywt_swt w) vs, map (approximationOf pywt_swt w) vs).
Proof.
  induction 1 as [|v vs [Hv He] _ IH]; [reflexivity|].
  cbn [swt_all map]. unfold detailOf, approximationOf, coefficients at 1 3.
  destruct (swt_stationary v w Hv He) as (cA & cD & -> & _).
  cbn [and_then]. rewrite IH. reflexivity.
Qed.

Lemma rows3_even (s0 s1 s2 : nat) (f : nat -> nat -> nat -> Q) :
  (0 < s2)%nat -> Nat.even s2 = true ->
  Forall (fun v => v <> [] /\ Nat.even (List.length v) = true) (rows3 s0 s1 s2 f).
Proof.
  intros Hp He. eapply Forall_impl; [|apply rows3_uniform].
  intros v Hv. cbn beta in Hv. rewrite Hv. split; [|exact He].
  intros ->. cbn in Hv. lia.
Qed.

Lemma _decompose_i_spec (data : ndarray) (w : Wavelet) :
  evenArray data ->
  exists H L,
    _decompose_i Wavelet pywt_swt data w = inr (H, L)
    /\ (shape H = shape data /\ shape L = shape data)
    /\ (evenArray H /\ evenArray L)
    /\ forall i j k,
         (i < dim data 0)%nat ->
         (j < dim data 1)%nat ->
         (k < dim data 2)%nat ->
         item3 H i j k = nth k (detailOf pywt_swt w (vector_i data i j)) 0%Q
         /\ item3 L i j k = nth k (approximationOf pywt_swt w (vector_i data i j)) 0%Q.
Proof.
  intros Hd. destruct (evenArray_shape data Hd) as (n0 & n1 & n2 & Hs & Hp & E0 & E1 & E2 & _).
  destruct (band_i _ data n0 n1 n2 (detailOf_band w) Hs Hp E2)
    as (fH & H & EH1 & EH2 & SH & LH & IH).
  destruct (band_i _ data n0 n1 n2 (approximationOf_band w) Hs Hp E2)
    as (fL & L & EL1 & EL2 & SL & LL & IL).
  exists H, L. unfold _decompose_i. rewrite swt_all_spec.
  - cbn [and_then]. rewrite EH1. cbn [and_then]. rewrite EH2. cbn [and_then].
    rewrite EL1. cbn [and_then]. rewrite EL2. cbn [and_then].
    split; [reflexivity|]. split; [now split|]. split.
    + split; eapply evenArray_intro; try eassumption; congruence.
    + unfold dim. rewrite Hs. cbn [nth]. rewrite !Nat2Z.id. intros i j k Hi Hj Hk.
      split; [now apply IH|now apply IL].
  - unfold vectors. rewrite Hs. cbn [nth]. rewrite !Nat2Z.id.
    apply rows3_even; [lia|assumption].
Qed.

Lemma _decompose_j_spec (data : ndarray) (w : Wavelet) :
  evenArray data ->
  exists H L,
    _decompose_j Wavelet pywt_swt data w = inr (H, L)
    /\ (shape H = shape data /\ shape L = shape data)
    /\ (evenArray H /\ evenArray L)
    /\ forall i j k,
         (i < dim data 0)%nat ->
         (j < dim data 1)%nat ->
         (k < dim data 2)%nat ->
         item3 H i j k = nth j (detailOf pywt_swt w (vector_j data i k)) 0%Q
         /\ item3 L i j k = nth j (approximationOf pywt_swt w (vector_j data i k)) 0%Q.
Proof.
  intros Hd. destruct (evenArray_shape data Hd) as (n0 & n1 & n2 & Hs & Hp & E0 & E1 & E2 & _).
  destruct (band_j _ data n0 n1 n2 (detailOf_band w) Hs Hp E1)
    as (fH & H & EH1 & EH2 & SH & LH & IH).
  destruct (band_j _ data n0 n1 n2 (approximationOf_band w) Hs Hp E1)
    as (fL & L & EL1 & EL2 & SL & LL & IL).
  exists (transpose_021 H), (transpose_021 L). unfold _decompose_j. rewrite swt_all_spec.
  - cbn [and_then]. rewrite EH1. cbn [and_then]. rewrite EH2. cbn [and_then].
    rewrite EL1. cbn [and_then]. rewrite EL2. cbn [and_then].
    split; [reflexivity|]. split; [now split|]. split.
    + split; eapply evenArray_intro; try eassumption; congruence.
    + unfold dim. rewrite Hs. cbn [nth]. rewrite !Nat2Z.id. intros i j k Hi Hj Hk.
      split; [now apply IH|now apply IL].
  - unfold vectors, transpose_021. cbn [array3 shape nth]. rewrite Hs. cbn [nth].
    rewrite !Nat2Z.id. apply rows3_even; [lia|assumption].
Qed.

Lemma _decompose_k_spec (data : ndarray) (w : Wavelet) :
  evenArray data ->
  exists H L,
    _decompose_k Wavelet pywt_swt data w = inr (H, L)
    /\ (shape H = shape data /\ shape L = shape data)
    /\ (evenArray H /\ evenArray L)
    /\ forall i j k,
         (i < dim data 0)%nat ->
         (j < dim data 1)%nat ->
         (k < dim data 2)%nat ->
         item3 H i j k = nth i (detailOf pywt_swt w (vector_k data j k)) 0%Q
         /\ item3 L i j k = nth i (approximationOf pywt_swt w (vector_k data j k)) 0%Q.
Proof.
  intros Hd. destruct (evenArray_shape data Hd) as (n0 & n1 & n2 & Hs & Hp & E0 & E1 & E2 & _).
  destruct (band_k _ data n0 n1 n2 (detailOf_band w) Hs Hp E0)
    as (rH & H & EH1 & EH2 & SH & LH & IH).
  destruct (band_k _ data n0 n1 n2 (approximationOf_band w) Hs Hp E0)
    as (rL & L & EL1 & EL2 & SL & LL & IL).
  exists (transpose_210 (numpy_asarray H)), (transpose_210 (numpy_asarray L)).
  unfold _decompose_k. rewrite swt_all_spec.
  - cbn [and_then]. rewrite EH1. cbn [and_then]. rewrite EH2. cbn [and_then].
    rewrite EL1. cbn [and_then]. rewrite EL2. cbn [and_then].
    split; [reflexivity|]. split; [now split|]. split.
    + split; eapply evenArray_intro; try eassumption; congruence.
    + unfold dim. rewrite Hs. cbn [nth]. rewrite !Nat2Z.id. intros i j k Hi Hj Hk.
      split; [now apply IH|now apply IL].
  - unfold vectors, transpose_210. cbn [array3 shape nth]. rewrite Hs. cbn [nth].
    rewrite !Nat2Z.id. apply rows3_even; [lia|assumption].
Qed.

End Transforms.

(** **** The decomposition of an image *)

Lemma padded_even (inputImage : Image) :
  List.length (GetSize inputImage) = 3%nat ->
  Forall (fun s => 0 < s) (GetSize inputImage) ->
  let matrix := sitk_GetArrayFromImage inputImage in
  evenArray (ndarray_resize matrix
               (map (fun dim => if negb (dim mod 2 =? 0) then dim + 1 else dim)
                    (shape matrix))).
Proof.
  intros H3 Hpos. cbn zeta. unfold evenArray, ndarray_resize. cbn [shape elements].
  split; [now rewrite length_map; cbn [sitk_GetArrayFromImage shape]; rewrite length_rev|].
  split.
  - rewrite Forall_map. cbn [sitk_GetArrayFromImage shape].
    rewrite Forall_forall in *. intros s Hin. apply in_rev in Hin. apply Hpos in Hin.
    destruct (Z.eqb_spec (s mod 2) 0) as [E|N]; cbn [negb]; [lia|].
    split; [lia|]. pose proof (Z.mod_pos_bound s 2 ltac:(lia)).
    rewrite Z.add_mod by lia. replace (s mod 2) with 1 by lia. reflexivity.
  - rewrite length_firstn, length_app, repeat_length. lia.
Qed.

Section WaveletFacts.

Variable Wavelet : Type.
Variable pywt_Wavelet : string -> Exception + Wavelet.
Variable pywt_swt : list Q -> Wavelet -> Exception + (list Q * list Q).
Variable dict : forall A : Type, list (string * A) -> list (string * A).

Hypothesis dict_permutation : forall A (l : list (string * A)), Permutation (dict A l) l.
Hypothesis swt_stationary : stationary pywt_swt.

Lemma toImages_succeeds (inputImage : Image) (dec : list (string * ndarray)) :
  exists dec',
    toImages inputImage (rev (GetSize inputImage)) dec = inr dec'
    /\ map fst dec' = map fst dec
    /\ Forall (fun kv => onGridOf inputImage (snd kv)) dec'.
Proof.
  induction dec as [|[k a] dec IH].
  - exists []. repeat split; constructor.
  - destruct IH as (dec' & E & Hk & Hg).
    destruct (numpy_resize_image inputImage a) as (im & Ei & Gi).
    exists ((k, im) :: dec'). cbn [toImages]. rewrite Ei. cbn [and_then]. rewrite E.
    cbn [and_then map fst]. repeat split; [now rewrite Hk|].
    constructor; assumption.
Qed.

Lemma skipLevels_succeeds (n : nat) (data : ndarray) (w : Wavelet) :
  evenArray data ->
  exists data', skipLevels Wavelet pywt_swt n data w = inr data' /\ evenArray data'.
Proof.
  revert data. induction n as [|n IH]; intros data Hd.
  - exists data. now split.
  - cbn [skipLevels].
    destruct (_decompose_i_spec Wavelet pywt_swt swt_stationary data w Hd)
      as (H & L & -> & _ & [_ HL] & _). cbn [and_then].
    destruct (_decompose_j_spec Wavelet pywt_swt swt_stationary L w HL)
      as (LH & LL & -> & _ & [_ HLL] & _). cbn [and_then].
    destruct (_decompose_k_spec Wavelet pywt_swt swt_stationary LL w HLL)
      as (LLH & LLL & -> & _ & [_ HLLL] & _). cbn [and_then].
    now apply IH.
Qed.

Lemma decomposeLevels_succeeds (n : nat) (inputImage : Image) (data : ndarray) (w : Wavelet) :
  evenArray data ->
  exists data' ret_,
    decomposeLevels Wavelet pywt_swt dict n inputImage
                    (rev (GetSize inputImage)) data w = inr (data', ret_)
    /\ List.length ret_ = n
    /\ Forall (levelDict inputImage) ret_.
Proof.
  revert data. induction n as [|n IH]; intros data Hd.
  - exists data, []. repeat split; constructor.
  - cbn [decomposeLevels].
    destruct (_decompose_i_spec Wavelet pywt_swt swt_stationary data w Hd)
      as (H & L & -> & _ & [HH HL] & _). cbn [and_then].
    destruct (_decompose_j_spec Wavelet pywt_swt swt_stationary H w HH)
      as (HH' & HL' & -> & _ & [HHH HHL] & _). cbn [and_then].
    destruct (_decompose_j_spec Wavelet pywt_swt swt_stationary L w HL)
      as (LH' & LL' & -> & _ & [HLH HLL] & _). cbn [and_then].
    destruct (_decompose_k_spec Wavelet pywt_swt swt_stationary HH' w HHH)
      as (b1 & b2 & -> & _). cbn [and_then].
    destruct (_decompose_k_spec Wavelet pywt_swt swt_stationary HL' w HHL)
      as (b3 & b4 & -> & _). cbn [and_then].
    destruct (_decompose_k_spec Wavelet pywt_swt swt_stationary LH' w HLH)
      as (b5 & b6 & -> & _). cbn [and_then].
    destruct (_decompose_k_spec Wavelet pywt_swt swt_stationary LL' w HLL)
      as (b7 & LLL & -> & _ & [_ HLLL] & _). cbn [and_then].
    match goal with |- context [toImages _ _ (dict _ ?d)] => set (dec := d) end.
    destruct (toImages_succeeds inputImage (dict _ dec)) as (dec' & -> & Hk & Hg).
    cbn [and_then].
    destruct (IH LLL HLLL) as (data' & ret_ & -> & Hl & Hr). cbn [and_then].
    exists data', (dec' :: ret_). split; [reflexivity|].
    split; [cbn [List.length]; now rewrite Hl|].
    constructor; [|assumption]. split; [|assumption].
    rewrite Hk. change subbands with (map fst dec).
    apply Permutation_map, dict_permutation.
Qed.

Lemma _swt3_succeeds (inputImage : Image) (name : string) (w : Wavelet) (level start_level : Z) :
  List.length (GetSize inputImage) = 3%nat ->
  Forall (fun s => 0 < s) (GetSize inputImage) ->
  pywt_Wavelet name = inr w ->
  exists approximation ret_,
    _swt3 Wavelet pywt_Wavelet pywt_swt dict
          inputImage name level start_level = inr (approximation, ret_)
    /\ onGridOf inputImage approximation
    /\ List.length ret_ = Z.to_nat level
    /\ Forall (levelDict inputImage) ret_.
Proof.
  intros H3 Hpos Hw. pose proof (padded_even inputImage H3 Hpos) as Hpad. cbn zeta in Hpad.
  unfold _swt3. cbn [sitk_GetArrayFromImage shape] in *.
  rewrite length_rev, H3. cbn [Nat.eqb negb]. rewrite Hw. cbn [and_then].
  match goal with |- context [skipLevels _ _ ?n ?d w] =>
    destruct (skipLevels_succeeds n d w Hpad) as (data & -> & Hd) end.
  cbn [and_then].
  destruct (decomposeLevels_succeeds (Z.to_nat level) inputImage data w Hd)
    as (data' & ret_ & -> & Hl & Hr).
  cbn [and_then].
  destruct (numpy_resize_image inputImage data') as (im & -> & Gi). cbn [and_then].
  exists im, ret_. split; [reflexivity|]. split; [exact Gi|]. split; assumption.
Qed.

End WaveletFacts.

(** **** The names of the wavelet images *)

Lemma string_of_uint_no_dash (d : Decimal.uint) :
  hasChar "-"%char (DecimalString.NilEmpty.string_of_uint d) = false.
Proof.
  induction d; cbn [DecimalString.NilEmpty.string_of_uint hasChar]; try assumption;
    reflexivity.
Qed.

Lemma str_int_injective (n m : nat) : str_int n = str_int m -> n = m.
Proof.
  unfold str_int. intros E.
  apply (f_equal DecimalString.NilEmpty.uint_of_string) in E.
  rewrite !DecimalString.NilEmpty.usu in E. injection E as E.
  apply (f_equal Nat.of_uint) in E.
  now rewrite !DecimalNat.Unsigned.of_to in E.
Qed.

Lemma str_int_not_empty (n : nat) : str_int n <> EmptyString.
Proof.
  unfold str_int. intros E.
  apply (f_equal DecimalString.NilEmpty.uint_of_string) in E.
  rewrite DecimalString.NilEmpty.usu in E. cbn in E. injection E as E.
  assert (H0 : n = 0%nat)
    by (rewrite <- (DecimalNat.Unsigned.of_to n), E; reflexivity).
  subst n. vm_compute in E. discriminate E.
Qed.

Lemma split_at_dash (s s' t t' : string) :
  hasChar "-"%char s = false -> hasChar "-"%char s' = false ->
  (s ++ "-" ++ t = s' ++ "-" ++ t')%string -> s = s' /\ t = t'.
Proof.
  revert s'. induction s as [|c s IH]; intros [|c' s'] Hs Hs' E; cbn in *.
  - injection E as E. now split.
  - injection E as Ec E. subst c'. cbn in Hs'. discriminate Hs'.
  - injection E as Ec E. subst c. cbn in Hs. discriminate Hs.
  - injection E as Ec E. subst c'.
    apply orb_false_iff in Hs as [_ Hs]. apply orb_false_iff in Hs' as [_ Hs'].
    destruct (IH s' Hs Hs' E) as [-> ->]. now split.
Qed.

(** The part of a name between [wavelet] and the dash. *)
Lemma waveletName_parts (idx : nat) (key : string) :
  exists num,
    waveletName idx key = ("wavelet" ++ (num ++ "-" ++ key))%string
    /\ hasChar "-"%char num = false
    /\ (num = EmptyString <-> idx = 1%nat)
    /\ (idx <> 1%nat -> num = str_int idx).
Proof.
  unfold waveletName. destruct (Nat.eqb_spec idx 1) as [->|N].
  - exists EmptyString. repeat split; try reflexivity. intros C. now elim C.
  - exists (str_int idx). repeat split.
    + apply string_of_uint_no_dash.
    + intros E. now apply str_int_not_empty in E.
    + intros E. now elim N.
Qed.

Lemma waveletName_injective (i j : nat) (k k' : string) :
  waveletName i k = waveletName j k' -> i = j /\ k = k'.
Proof.
  destruct (waveletName_parts i k) as (a & -> & Ha & Ha1 & Ha2).
  destruct (waveletName_parts j k') as (b & -> & Hb & Hb1 & Hb2).
  intros E. cbn [String.append] in E. injection E as E.
  destruct (split_at_dash _ _ _ _ Ha Hb E) as [Eab Ek]. split; [|exact Ek].
  destruct (Nat.eq_dec i 1) as [->|Ni].
  - symmetry. apply Hb1. rewrite <- Eab. now apply Ha1.
  - destruct (Nat.eq_dec j 1) as [->|Nj].
    + apply Ha1. rewrite Eab. now apply Hb1.
    + rewrite (Ha2 Ni), (Hb2 Nj) in Eab. now apply str_int_injective.
Qed.

Lemma NoDup_subbands : NoDup subbands.
Proof.
  unfold subbands.
  repeat (constructor; [cbn [In]; intros C;
    repeat (destruct C as [C|C]; [discriminate C|]); exact C|]).
  constructor.
Qed.

Lemma LLL_not_subband : ~ In "LLL"%string subbands.
Proof.
  unfold subbands. cbn [In]. intros C.
  repeat (destruct C as [C|C]; [discriminate C|]). exact C.
Qed.

Lemma yieldItems_result (idx : nat) (wl : list (string * RealImage)) (kwargs : WaveletKwargs) :
  result (yieldItems idx wl kwargs)
  = map (fun kv => (snd kv, waveletName idx (fst kv), kwargs)) wl.
Proof.
  induction wl as [|[k im] wl IH]; [reflexivity|].
  cbn [yieldItems map fst snd]. rewrite !result_bind, IH. reflexivity.
Qed.

Lemma yieldLevels_cons (idx : nat) (wl : list (string * RealImage))
      (rest : list (list (string * RealImage))) (kwargs : WaveletKwargs) :
  result (yieldLevels idx (wl :: rest) kwargs)
  = map (fun kv => (snd kv, waveletName idx (fst kv), kwargs)) wl
    ++ result (yieldLevels (S idx) rest kwargs).
Proof.
  cbn [yieldLevels]. rewrite !result_bind, yieldItems_result. reflexivity.
Qed.

Lemma yieldLevels_spec (inputImage : Image) (kwargs : WaveletKwargs)
      (ret_ : list (list (string * RealImage))) (idx : nat) :
  Forall (levelDict inputImage) ret_ ->
  let ys := result (yieldLevels idx ret_ kwargs) in
  List.length ys = (7 * List.length ret_)%nat
  /\ Forall (fun y => onGridOf inputImage (fst (fst y)) /\ snd y = kwargs) ys
  /\ (forall name, In name (map yieldedName ys) <->
        exists i key, (idx <= i < idx + List.length ret_)%nat /\ In key subbands
                      /\ name = waveletName i key)
  /\ NoDup (map yieldedName ys).
Proof.
  intros Hr. revert idx. induction Hr as [|wl rest Hwl Hrest IH]; intros idx; cbn zeta.
  - cbn. repeat split; try constructor.
    + intros [].
    + intros (i & key & Hi & _). lia.
  - rewrite yieldLevels_cons.
    destruct (IH (S idx)) as (Hlen & Hgrid & Hnames & Hnodup). cbn zeta in *.
    destruct Hwl as [Hk Hg].
    set (ys := result (yieldLevels (S idx) rest kwargs)) in *. clearbody ys.
    assert (Hmap : map yieldedName
                     (map (fun kv : string * RealImage =>
                             (snd kv, waveletName idx (fst kv), kwargs)) wl)
                   = map (waveletName idx) (map fst wl)).
    { rewrite !map_map. reflexivity. }
    assert (Hhere : forall name,
               In name (map (waveletName idx) (map fst wl)) <->
               exists key, In key subbands /\ name = waveletName idx key).
    { intros name. rewrite in_map_iff. split.
      - intros (key & <- & Hin). exists key. split; [|reflexivity].
        eapply Permutation_in; [exact Hk|exact Hin].
      - intros (key & Hin & ->). exists key. split; [reflexivity|].
        eapply Permutation_in; [apply Permutation_sym; exact Hk|exact Hin]. }
    split; [|split; [|split]].
    + rewrite length_app, length_map, Hlen.
      rewrite <- (length_map fst wl), (Permutation_length Hk). cbn. lia.
    + apply Forall_app. split; [|exact Hgrid].
      rewrite Forall_map. rewrite Forall_forall in *. intros kv Hin.
      cbn [fst snd]. split; [now apply Hg|reflexivity].
    + intros name. rewrite map_app, in_app_iff, Hmap, Hhere, Hnames. cbn [List.length].
      split.
      * intros [(key & Hin & ->)|(i & key & Hi & Hin & ->)].
        -- exists idx, key. repeat split; [lia|lia|assumption].
        -- exists i, key. repeat split; [lia|lia|assumption].
      * intros (i & key & Hi & Hin & ->).
        destruct (Nat.eq_dec i idx) as [->|N].
        -- left. now exists key.
        -- right. exists i, key. repeat split; [lia|lia|assumption].
    + rewrite map_app, Hmap. apply NoDup_app; [| exact Hnodup |].
      * apply NoDup_map_injective.
        -- intros a b E. now apply waveletName_injective in E.
        -- eapply Permutation_NoDup; [apply Permutation_sym; exact Hk|apply NoDup_subbands].
      * intros name H1 H2. apply Hhere in H1 as (key & _ & ->).
        apply Hnames in H2 as (i & key' & Hi & _ & E).
        apply waveletName_injective in E as [E _]. lia.
Qed.

Lemma sumsAndDifferences_stationary : stationary sumsAndDifferences.
Proof.
  intros v w Hv _. unfold sumsAndDifferences. eexists. eexists.
  split; [reflexivity|].
  assert (Hn : List.length (tl v ++ firstn 1 v) = List.length v).
  { destruct v as [|x v]; [now elim Hv|].
    cbn [tl firstn]. rewrite length_app. cbn [List.length]. lia. }
  split; rewrite zipWith_length, Hn; apply Nat.min_id.
Qed.

(** X26 (getWaveletImage, _swt3): for a three-dimensional image with at
    least one voxel on every axis and a wavelet that PyWavelets knows,
    with a stationary transform and whatever the order in which a dict
    hands out its items, the generator yields 7 * level + 1 images: for
    every level 1..level the seven detail sub-bands HHH .. LLH, then the
    approximation LLL of the last level.  Every image lies on the grid of
    the input and has a value for each of its voxels, is yielded with
    the [kwargs] of the call, and no two images share a name: the name
    is wavelet-<band> at level 1 and wavelet<level>-<band> above. *)
Theorem getWaveletImage_yields
        (Wavelet : Type) (pywt_Wavelet : string -> Exception + Wavelet)
        (pywt_swt : list Q -> Wavelet -> Exception + (list Q * list Q))
        (dict : forall A : Type, list (string * A) -> list (string * A))
        (inputImage : Image) (kwargs : WaveletKwargs) (w : Wavelet) :
  (forall A (l : list (string * A)), Permutation (dict A l) l) ->
  stationary pywt_swt ->
  List.length (GetSize inputImage) = 3%nat ->
  Forall (fun s => 0 < s) (GetSize inputImage) ->
  pywt_Wavelet (get (kw_wavelet kwargs) "coif1"%string) = inr w ->
  let level := Z.to_nat (get (kw_level kwargs) 1) in
  exists details approx,
    let yielded := details ++ [(approx, waveletName level "LLL", kwargs)] in
    result (getWaveletImage Wavelet pywt_Wavelet pywt_swt dict inputImage kwargs)
    = inr yielded
    /\ List.length details = (7 * level)%nat
    /\ Forall (fun y => onGridOf inputImage (fst (fst y)) /\ snd y = kwargs) yielded
    /\ (forall name, In name (map yieldedName details) <->
          exists idx key, (1 <= idx <= level)%nat /\ In key subbands
                          /\ name = waveletName idx key)
    /\ NoDup (map yieldedName yielded).
Proof.
  intros Hperm Hswt H3 Hpos Hw level.
  destruct (_swt3_succeeds Wavelet pywt_Wavelet pywt_swt dict Hperm Hswt
              inputImage _ w (get (kw_level kwargs) 1)
              (get (kw_start_level kwargs) 0) H3 Hpos Hw)
    as (approx & ret_ & E & Ga & Hl & Hr).
  destruct (yieldLevels_spec inputImage kwargs ret_ 1 Hr)
    as (Hlen & Hgrid & Hnames & Hnodup).
  cbn zeta in *. fold level in Hl.
  exists (result (yieldLevels 1 ret_ kwargs)), approx.
  split; [|split; [|split; [|split]]].
  - unfold getWaveletImage. rewrite result_bind. cbn [result logger_debug logger_log fst].
    rewrite E. rewrite !result_bind. cbn [result ret fst]. rewrite Hl.
    reflexivity.
  - now rewrite Hlen, Hl.
  - apply Forall_app. split; [exact Hgrid|].
    constructor; [|constructor]. cbn [fst snd]. now split.
  - intros name. rewrite Hnames, Hl. split.
    + intros (i & key & Hi' & Hin & ->). exists i, key. repeat split; [lia|lia|assumption].
    + intros (i & key & Hi' & Hin & ->). exists i, key. repeat split; [lia|lia|assumption].
  - rewrite map_app. apply NoDup_app; [exact Hnodup| |].
    + cbn [map]. constructor; [intros []|constructor].
    + intros name H1 H2. cbn [map In yieldedName fst snd] in H2.
      destruct H2 as [<-|[]].
      apply Hnames in H1 as (i & key & _ & Hin & E').
      apply waveletName_injective in E' as [_ <-]. now apply LLL_not_subband.
Qed.

Lemma getWaveletImage_yields_witness :
  exists details approx,
    let yielded := details ++ [(approx, waveletName 2 "LLL",
                                {| kw_wavelet := Some "haar"%string; kw_level := Some 2;
                                   kw_start_level := None |})] in
    result (getWaveletImage unit haarOnly sumsAndDifferences insertionOrder image323
                            {| kw_wavelet := Some "haar"%string; kw_level := Some 2;
                               kw_start_level := None |}) = inr yielded
    /\ List.length details = 14%nat
    /\ Forall (fun y => onGridOf image323 (fst (fst y))
                        /\ snd y = {| kw_wavelet := Some "haar"%string; kw_level := Some 2;
                                      kw_start_level := None |}) yielded
    /\ (forall name, In name (map yieldedName details) <->
          exists idx key, (1 <= idx <= 2)%nat /\ In key subbands
                          /\ name = waveletName idx key)
    /\ NoDup (map yieldedName yielded).
Proof.
  apply (getWaveletImage_yields unit haarOnly sumsAndDifferences insertionOrder image323
           {| kw_wavelet := Some "haar"%string; kw_level := Some 2; kw_start_level := None |}
           tt).
  - intros A l. apply Permutation_refl.
  - exact sumsAndDifferences_stationary.
  - reflexivity.
  - repeat constructor.
  - reflexivity.
Defined.

(** X27 (getWaveletImage, _swt3): with a stationary transform and an
    image that has at least one voxel on every axis, the generator
    raises exactly when the image is not three-dimensional or
    PyWavelets does not know the wavelet.  The dimension is checked
    first: an image that is not three-dimensional gives
    ValueError('Expected 3D data array') whatever the wavelet.  In both
    cases the exception comes before the first image, with nothing
    logged but the opening debug record. *)
Theorem getWaveletImage_raises
        (Wavelet : Type) (pywt_Wavelet : string -> Exception + Wavelet)
        (pywt_swt : list Q -> Wavelet -> Exception + (list Q * list Q))
        (dict : forall A : Type, list (string * A) -> list (string * A))
        (inputImage : Image) (kwargs : WaveletKwargs) :
  (forall A (l : list (string * A)), Permutation (dict A l) l) ->
  stationary pywt_swt ->
  Forall (fun s => 0 < s) (GetSize inputImage) ->
  let name := get (kw_wavelet kwargs) "coif1"%string in
  let r := getWaveletImage Wavelet pywt_Wavelet pywt_swt dict inputImage kwargs in
  (List.length (GetSize inputImage) <> 3%nat ->
     r = (inl (ValueError "Expected 3D data array"),
          [(DEBUG, "Generating Wavelet images"%string)]))
  /\ (List.length (GetSize inputImage) = 3%nat ->
      forall e, pywt_Wavelet name = inl e ->
        r = (inl e, [(DEBUG, "Generating Wavelet images"%string)]))
  /\ ((exists e, result r = inl e) <->
      List.length (GetSize inputImage) <> 3%nat \/ exists e, pywt_Wavelet name = inl e).
Proof.
  intros Hperm Hswt Hpos name r.
  assert (A1 : List.length (GetSize inputImage) <> 3%nat ->
               r = (inl (ValueError "Expected 3D data array"),
                    [(DEBUG, "Generating Wavelet images"%string)])).
  { intros N. unfold r, getWaveletImage, _swt3. cbn [sitk_GetArrayFromImage shape].
    rewrite length_rev. apply Nat.eqb_neq in N. rewrite N. reflexivity. }
  assert (A2 : List.length (GetSize inputImage) = 3%nat ->
               forall e, pywt_Wavelet name = inl e ->
               r = (inl e, [(DEBUG, "Generating Wavelet images"%string)])).
  { intros H3 e He. unfold r, getWaveletImage, _swt3. cbn [sitk_GetArrayFromImage shape].
    rewrite length_rev, H3. cbn [Nat.eqb negb]. fold name. rewrite He. reflexivity. }
  split; [exact A1|]. split; [exact A2|]. split.
  - intros [e He].
    destruct (Nat.eq_dec (List.length (GetSize inputImage)) 3) as [H3|N]; [|now left].
    right. destruct (pywt_Wavelet name) as [e'|w] eqn:Ew; [now exists e'|].
    exfalso.
    destruct (_swt3_succeeds Wavelet pywt_Wavelet pywt_swt dict Hperm Hswt
                inputImage name w (get (kw_level kwargs) 1)
                (get (kw_start_level kwargs) 0) H3 Hpos Ew)
      as (approx & ret_ & E & _).
    unfold r, getWaveletImage in He. rewrite result_bind in He.
    cbn [result logger_debug logger_log fst] in He. fold name in He. rewrite E in He.
    rewrite !result_bind in He. cbn [result ret fst] in He. discriminate He.
  - intros [N|[e He]].
    + rewrite (A1 N). eexists. reflexivity.
    + destruct (Nat.eq_dec (List.length (GetSize inputImage)) 3) as [H3|N].
      * rewrite (A2 H3 e He). eexists. reflexivity.
      * rewrite (A1 N). eexists. reflexivity.
Qed.

Lemma getWaveletImage_raises_witness :
  getWaveletImage unit haarOnly sumsAndDifferences insertionOrder
                  image323 {| kw_wavelet := None; kw_level := None; kw_start_level := None |}
  = (inl (ValueError "Unknown wavelet name"),
     [(DEBUG, "Generating Wavelet images"%string)]).
Proof.
  refine (proj1 (proj2 (getWaveletImage_raises unit haarOnly sumsAndDifferences
                          insertionOrder image323
                          {| kw_wavelet := None; kw_level := None; kw_start_level := None |}
                          _ _ _)) _ _ _).
  - intros A l. apply Permutation_refl.
  - exact sumsAndDifferences_stationary.
  - repeat constructor.
  - reflexivity.
  - reflexivity.
Defined.
Lemma firstn_concat_repeat {A} (l : list A) (n : nat) :
  (n <= List.length l)%nat -> firstn n (List.concat (repeat l n)) = firstn n l.
Proof.
  intros Hn. destruct n as [|m]; [reflexivity|].
  cbn [repeat List.concat]. rewrite firstn_app.
  replace (S m - List.length l)%nat with 0%nat by lia.
  cbn [firstn]. apply app_nil_r.
Qed.

Lemma numberOfPixels_adjusted (size : list Z) :
  Forall (fun s => 0 < s) size ->
  0 < numberOfPixels size
  /\ numberOfPixels size
     <= numberOfPixels (map (fun dim => if negb (dim mod 2 =? 0) then dim + 1 else dim) size).
Proof.
  unfold numberOfPixels. induction 1 as [|s size Hs _ IH]; cbn [map fold_right]; [lia|].
  destruct IH as [IH1 IH2]. split; [nia|].
  destruct (negb (s mod 2 =? 0)); nia.
Qed.

(** The array that [_swt3] pads to even dimensions and cuts back to the
    shape of the image holds the voxels of the image. *)
Lemma pad_and_cut (inputImage : Image) :
  wellFormed inputImage ->
  let matrix := sitk_GetArrayFromImage inputImage in
  elements (numpy_resize
              (ndarray_resize matrix
                 (map (fun dim => if negb (dim mod 2 =? 0) then dim + 1 else dim)
                      (shape matrix)))
              (shape matrix))
  = map inQ (GetPixels inputImage).
Proof.
  intros (_ & Hpos & Hlen). cbn zeta.
  assert (Hpos' : Forall (fun s => 0 < s) (rev (GetSize inputImage))).
  { rewrite Forall_forall in *. intros s Hin. apply Hpos. now apply in_rev. }
  destruct (numberOfPixels_adjusted _ Hpos') as [H0 Hle].
  rewrite numberOfPixels_rev in H0, Hle.
  unfold numpy_resize, ndarray_resize, sitk_GetArrayFromImage. cbn [elements shape].
  rewrite numberOfPixels_rev.
  set (els := map inQ (GetPixels inputImage)).
  assert (Hels : List.length els = Z.to_nat (numberOfPixels (GetSize inputImage))).
  { unfold els. rewrite length_map. lia. }
  set (adjusted := map _ (rev (GetSize inputImage))) in *.
  set (n := Z.to_nat (numberOfPixels (GetSize inputImage))) in *.
  set (n' := Z.to_nat (numberOfPixels adjusted)) in *.
  assert (Hn : (1 <= n <= n')%nat) by (unfold n, n'; lia).
  assert (Hpad : List.length (firstn n' (els ++ repeat 0%Q n')) = n').
  { rewrite length_firstn, length_app, repeat_length. lia. }
  destruct (firstn n' (els ++ repeat 0%Q n')) as [|q padded] eqn:Ep.
  - cbn [List.length] in Hpad. lia.
  - rewrite firstn_concat_repeat by (rewrite Hpad; lia). rewrite <- Ep.
    rewrite firstn_firstn. replace (Nat.min n n') with n by lia.
    rewrite firstn_app. replace (n - List.length els)%nat with 0%nat by lia.
    cbn [firstn]. rewrite app_nil_r. apply firstn_all2. lia.
Qed.

(** X28 (getWaveletImage, _swt3): with no level to compute and none to
    skip (level <= 0 and start_level <= 0) no transform is applied: for a
    well-formed image and a known wavelet the generator yields one
    image, named wavelet0-LLL, which has the grid of the input and its
    voxel values, also when the image has odd dimensions and was padded
    in between. *)
Theorem getWaveletImage_no_levels
        (Wavelet : Type) (pywt_Wavelet : string -> Exception + Wavelet)
        (pywt_swt : list Q -> Wavelet -> Exception + (list Q * list Q))
        (dict : forall A : Type, list (string * A) -> list (string * A))
        (inputImage : Image) (kwargs : WaveletKwargs) (w : Wavelet) :
  wellFormed inputImage ->
  pywt_Wavelet (get (kw_wavelet kwargs) "coif1"%string) = inr w ->
  get (kw_level kwargs) 1 <= 0 ->
  get (kw_start_level kwargs) 0 <= 0 ->
  getWaveletImage Wavelet pywt_Wavelet pywt_swt dict inputImage kwargs
  = (inr [({| real_Size := GetSize inputImage;
              real_Spacing := GetSpacing inputImage;
              real_Origin := GetOrigin inputImage;
              real_Direction := GetDirection inputImage;
              real_Pixels := map inQ (GetPixels inputImage) |},
           "wavelet0-LLL"%string, kwargs)],
     [(DEBUG, "Generating Wavelet images"%string);
      (DEBUG, "Yielding approximation (%s) image"%string)]).
Proof.
  intros Hwf Hw Hl Hs.
  pose proof (pad_and_cut inputImage Hwf) as Hpix. cbn zeta in Hpix.
  destruct Hwf as ((H3 & _) & _).
  unfold getWaveletImage, _swt3.
  replace (Z.to_nat (get (kw_level kwargs) 1)) with 0%nat by lia.
  replace (Z.to_nat (get (kw_start_level kwargs) 0)) with 0%nat by lia.
  rewrite Hw. cbn [skipLevels decomposeLevels and_then].
  cbn [sitk_GetArrayFromImage shape] in *. rewrite length_rev, H3. cbn [Nat.eqb negb].
  unfold CopyInformation.
  destruct (list_eq_dec Z.eq_dec _ _) as [E|N].
  - cbn [and_then sitk_GetImageFromArray real_Size real_Pixels].
    rewrite Hpix. cbn [numpy_resize shape]. rewrite rev_involutive. reflexivity.
  - exfalso. apply N. cbn [sitk_GetImageFromArray real_Size numpy_resize shape].
    apply rev_involutive.
Qed.

Lemma getWaveletImage_no_levels_witness :
  result (getWaveletImage unit haarOnly sumsAndDifferences insertionOrder
            image323
            {| kw_wavelet := Some "haar"%string; kw_level := Some 0; kw_start_level := None |})
  = inr [({| real_Size := [3; 2; 3];
             real_Spacing := GetSpacing image323;
             real_Origin := GetOrigin image323;
             real_Direction := GetDirection image323;
             real_Pixels := map inQ (GetPixels image323) |},
          "wavelet0-LLL"%string,
          {| kw_wavelet := Some "haar"%string; kw_level := Some 0; kw_start_level := None |})].
Proof.
  refine (f_equal fst
            (getWaveletImage_no_levels unit haarOnly sumsAndDifferences
               insertionOrder image323
               {| kw_wavelet := Some "haar"%string; kw_level := Some 0;
                  kw_start_level := None |} tt _ _ _ _)).
  - split; [repeat split|split]; [repeat constructor|reflexivity].
  - reflexivity.
  - cbn. lia.
  - cbn. lia.
Defined.

(** X29 (_decompose_i, _decompose_j, _decompose_k): with a stationary
    transform, each of the three functions succeeds on an array whose
    three dimensions are positive and even, and returns two arrays H
    and L of the shape of its input.  Each works along one axis and
    leaves the coefficients in the place of the elements they come from:
    [_decompose_i] transforms the vectors data[i][j][:] along the last
    axis, [_decompose_j] the vectors data[i][:][k] along the middle axis
    and [_decompose_k] the vectors data[:][j][k] along the first axis; H
    holds the detail coefficients and L the approximation coefficients
    of each vector. *)
Theorem _decompose_axes
        (Wavelet : Type) (pywt_swt : list Q -> Wavelet -> Exception + (list Q * list Q))
        (data : ndarray) (w : Wavelet) :
  stationary pywt_swt ->
  evenArray data ->
  exists Hi Li Hj Lj Hk Lk,
    _decompose_i Wavelet pywt_swt data w = inr (Hi, Li)
    /\ _decompose_j Wavelet pywt_swt data w = inr (Hj, Lj)
    /\ _decompose_k Wavelet pywt_swt data w = inr (Hk, Lk)
    /\ Forall (fun a => shape a = shape data /\ evenArray a) [Hi; Li; Hj; Lj; Hk; Lk]
    /\ forall i j k, (i < dim data 0)%nat -> (j < dim data 1)%nat -> (k < dim data 2)%nat ->
         (item3 Hi i j k = nth k (detailOf pywt_swt w (vector_i data i j)) 0%Q
          /\ item3 Li i j k = nth k (approximationOf pywt_swt w (vector_i data i j)) 0%Q)
         /\ (item3 Hj i j k = nth j (detailOf pywt_swt w (vector_j data i k)) 0%Q
             /\ item3 Lj i j k = nth j (approximationOf pywt_swt w (vector_j data i k)) 0%Q)
         /\ (item3 Hk i j k = nth i (detailOf pywt_swt w (vector_k data j k)) 0%Q
             /\ item3 Lk i j k = nth i (approximationOf pywt_swt w (vector_k data j k)) 0%Q).
Proof.
  intros Hswt Hd.
  destruct (_decompose_i_spec Wavelet pywt_swt Hswt data w Hd)
    as (Hi & Li & Ei & [Si1 Si2] & [Vi1 Vi2] & Ii).
  destruct (_decompose_j_spec Wavelet pywt_swt Hswt data w Hd)
    as (Hj & Lj & Ej & [Sj1 Sj2] & [Vj1 Vj2] & Ij).
  destruct (_decompose_k_spec Wavelet pywt_swt Hswt data w Hd)
    as (Hk & Lk & Ek & [Sk1 Sk2] & [Vk1 Vk2] & Ik).
  exists Hi, Li, Hj, Lj, Hk, Lk.
  split; [exact Ei|]. split; [exact Ej|]. split; [exact Ek|]. split.
  - repeat (constructor; [now split|]). constructor.
  - intros i j k B0 B1 B2. split; [now apply Ii|]. split; [now apply Ij|now apply Ik].
Qed.

Lemma _decompose_axes_witness :
  exists Hi Li Hj Lj Hk Lk,
    _decompose_i unit sumsAndDifferences array222 tt = inr (Hi, Li)
    /\ _decompose_j unit sumsAndDifferences array222 tt = inr (Hj, Lj)
    /\ _decompose_k unit sumsAndDifferences array222 tt = inr (Hk, Lk)
    /\ Forall (fun a => shape a = shape array222 /\ evenArray a) [Hi; Li; Hj; Lj; Hk; Lk]
    /\ forall i j k,
         (i < dim array222 0)%nat -> (j < dim array222 1)%nat -> (k < dim array222 2)%nat ->
         (item3 Hi i j k = nth k (detailOf sumsAndDifferences tt (vector_i array222 i j)) 0%Q
          /\ item3 Li i j k
             = nth k (approximationOf sumsAndDifferences tt (vector_i array222 i j)) 0%Q)
         /\ (item3 Hj i j k = nth j (detailOf sumsAndDifferences tt (vector_j array222 i k)) 0%Q
             /\ item3 Lj i j k
                = nth j (approximationOf sumsAndDifferences tt (vector_j array222 i k)) 0%Q)
         /\ (item3 Hk i j k = nth i (detailOf sumsAndDifferences tt (vector_k array222 j k)) 0%Q
             /\ item3 Lk i j k
                = nth i (approximationOf sumsAndDifferences tt (vector_k array222 j k)) 0%Q).
Proof.
  apply (_decompose_axes unit sumsAndDifferences array222 tt).
  - exact sumsAndDifferences_stationary.
  - split; [reflexivity|]. split; [|reflexivity].
    repeat constructor.
Defined.

(** *** The origin of the new grid *)




